(** * Legal-document ingestion: chunking, chunk identity and batch loading

    A shallow embedding of the two ingestion pipelines of the repository:
    the HTML case-law pipeline ([ZipFiles/vectorize.py], class
    [LegalCaseVectorDB]) and the federal-law PDF pipeline (class
    [FederalLawIngestion]).  Python strings are sequences of Unicode code
    points, integers are unbounded ([Z]), and the [while] loop of
    [chunk_text] is run with fuel. *)

From Stdlib Require Import String Ascii DecimalString DecimalZ.
From Stdlib Require Import ZArith Zbitwise List Lia Bool Finite.
From Stdlib Require Import Sorted Permutation.
Import ListNotations.
Open Scope Z_scope.

(** ** Python strings *)

Module PyStr.

(** A [str] is a sequence of code points. *)
Definition char := Z.
Definition str := list char.

Definition of_string (s : string) : str :=
  map (fun a => Z.of_N (N_of_ascii a)) (list_ascii_of_string s).

(** [len(s)], of a string or of a list. *)
Definition len {A : Type} (s : list A) : Z := Z.of_nat (length s).

Fixpoint eqb (a b : str) : bool :=
  match a, b with
  | [], [] => true
  | x :: a', y :: b' => (x =? y) && eqb a' b'
  | _, _ => false
  end.

(** Index adjustment of a slice bound: negative bounds count from the end,
    and everything is clamped to [0, n]. *)
Definition adjust (i n : Z) : Z :=
  if i <? 0 then Z.max (i + n) 0 else Z.min i n.

(** [s[i:j]] *)
Definition slice (s : str) (i j : Z) : str :=
  let a := adjust i (len s) in
  let b := adjust j (len s) in
  firstn (Z.to_nat (b - a)) (skipn (Z.to_nat a) s).

(** [s.startswith(p)] *)
Fixpoint startswith (s p : str) : bool :=
  match p, s with
  | [], _ => true
  | y :: p', x :: s' => (x =? y) && startswith s' p'
  | _ :: _, [] => false
  end.

(** Does [sub] occur in [s] at offset [p]? *)
Definition occurs_at (s sub : str) (p : Z) : bool :=
  (0 <=? p) && startswith (skipn (Z.to_nat p) s) sub.

(** Candidates [lo + cnt - 1], ..., [lo], highest first. *)
Fixpoint rfind_scan (s sub : str) (lo : Z) (cnt : nat) : Z :=
  match cnt with
  | O => -1
  | S k =>
      if occurs_at s sub (lo + Z.of_nat k) then lo + Z.of_nat k
      else rfind_scan s sub lo k
  end.

(** [s.rfind(sub, lo, hi)]: the bounds are adjusted as CPython does (the
    upper one clamped to the length, negative ones counted from the end),
    and the highest offset [i] with [lo <= i], [i + len(sub) <= hi] at
    which [sub] occurs is returned, or [-1]. *)
Definition rfind (s sub : str) (lo hi : Z) : Z :=
  let n := len s in
  let hi' := if hi >? n then n else if hi <? 0 then Z.max (hi + n) 0 else hi in
  let lo' := if lo <? 0 then Z.max (lo + n) 0 else lo in
  rfind_scan s sub lo' (Z.to_nat (hi' - len sub - lo' + 1)).

(** [str.isspace] on one code point. *)
Definition isspace (c : char) : bool :=
  ((9 <=? c) && (c <=? 13)) || ((28 <=? c) && (c <=? 32))
  || (c =? 133) || (c =? 160) || (c =? 5760)
  || ((8192 <=? c) && (c <=? 8202))
  || (c =? 8232) || (c =? 8233) || (c =? 8239) || (c =? 8287)
  || (c =? 12288).

Fixpoint lstrip (s : str) : str :=
  match s with
  | [] => []
  | c :: s' => if isspace c then lstrip s' else s
  end.

Definition rstrip (s : str) : str := rev (lstrip (rev s)).

(** [s.strip()] *)
Definition strip (s : str) : str := rstrip (lstrip s).

(** Truth value of a string. *)
Definition truthy (s : str) : bool :=
  match s with [] => false | _ => true end.

(** [str(i)] / [f"{i}"] for an integer.  CPython converts an integer of at
    most 4300 digits, its default limit, and raises [ValueError] beyond it;
    [of_int] is the conversion on that range, [int_to_str_defined] below.
    The pipelines convert list positions only. *)
Definition of_int (i : Z) : str :=
  of_string (NilZero.string_of_int (Z.to_int i)).

(** [s.encode()]: UTF-8; a lone surrogate raises [UnicodeEncodeError]
    ([None]). *)
Definition encode_char (c : char) : option (list Z) :=
  if c <? 0 then None
  else if c <? 128 then Some [c]
  else if c <? 2048 then
    Some [Z.lor 192 (Z.shiftr c 6); Z.lor 128 (Z.land c 63)]
  else if c <? 65536 then
    if (55296 <=? c) && (c <=? 57343) then None
    else Some [Z.lor 224 (Z.shiftr c 12);
               Z.lor 128 (Z.land (Z.shiftr c 6) 63);
               Z.lor 128 (Z.land c 63)]
  else if c <? 1114112 then
    Some [Z.lor 240 (Z.shiftr c 18);
          Z.lor 128 (Z.land (Z.shiftr c 12) 63);
          Z.lor 128 (Z.land (Z.shiftr c 6) 63);
          Z.lor 128 (Z.land c 63)]
  else None.

Fixpoint encode (s : str) : option (list Z) :=
  match s with
  | [] => Some []
  | c :: s' =>
      match encode_char c, encode s' with
      | Some b, Some bs => Some (b ++ bs)
      | _, _ => None
      end
  end.

End PyStr.

Import PyStr.

(** [py "..."]: a string literal, as code points. *)
Notation "'py' s" := (of_string s%string) (at level 9, s at level 0, only parsing).

(** ** MD5 (RFC 1321), as computed by [hashlib.md5] *)

Module MD5.

Definition w32 (x : Z) : Z := x mod 4294967296.

Definition rotl (x c : Z) : Z :=
  w32 (Z.lor (Z.shiftl x c) (Z.shiftr x (32 - c))).

Definition lnot32 (x : Z) : Z := Z.lxor x 4294967295.

Definition shifts : list Z :=
  [7; 12; 17; 22; 7; 12; 17; 22; 7; 12; 17; 22; 7; 12; 17; 22;
   5; 9; 14; 20; 5; 9; 14; 20; 5; 9; 14; 20; 5; 9; 14; 20;
   4; 11; 16; 23; 4; 11; 16; 23; 4; 11; 16; 23; 4; 11; 16; 23;
   6; 10; 15; 21; 6; 10; 15; 21; 6; 10; 15; 21; 6; 10; 15; 21].

Definition sines : list Z :=
  [0xd76aa478; 0xe8c7b756; 0x242070db; 0xc1bdceee;
   0xf57c0faf; 0x4787c62a; 0xa8304613; 0xfd469501;
   0x698098d8; 0x8b44f7af; 0xffff5bb1; 0x895cd7be;
   0x6b901122; 0xfd987193; 0xa679438e; 0x49b40821;
   0xf61e2562; 0xc040b340; 0x265e5a51; 0xe9b6c7aa;
   0xd62f105d; 0x02441453; 0xd8a1e681; 0xe7d3fbc8;
   0x21e1cde6; 0xc33707d6; 0xf4d50d87; 0x455a14ed;
   0xa9e3e905; 0xfcefa3f8; 0x676f02d9; 0x8d2a4c8a;
   0xfffa3942; 0x8771f681; 0x6d9d6122; 0xfde5380c;
   0xa4beea44; 0x4bdecfa9; 0xf6bb4b60; 0xbebfbc70;
   0x289b7ec6; 0xeaa127fa; 0xd4ef3085; 0x04881d05;
   0xd9d4d039; 0xe6db99e5; 0x1fa27cf8; 0xc4ac5665;
   0xf4292244; 0x432aff97; 0xab9423a7; 0xfc93a039;
   0x655b59c3; 0x8f0ccc92; 0xffeff47d; 0x85845dd1;
   0x6fa87e4f; 0xfe2ce6e0; 0xa3014314; 0x4e0811a1;
   0xf7537e82; 0xbd3af235; 0x2ad7d2bb; 0xeb86d391].

(** Little-endian bytes of a word, and back. *)
Fixpoint le_bytes (k : nat) (x : Z) : list Z :=
  match k with
  | O => []
  | S k' => (x mod 256) :: le_bytes k' (x / 256)
  end.

Fixpoint le_word (bs : list Z) : Z :=
  match bs with
  | [] => 0
  | b :: bs' => b + 256 * le_word bs'
  end.

(** Message padding: a 1 bit, zeros up to 56 mod 64, the bit length on 64
    bits. *)
Definition pad (msg : list Z) : list Z :=
  let n := Z.of_nat (length msg) in
  msg ++ [128] ++ repeat 0 (Z.to_nat ((55 - n) mod 64))
      ++ le_bytes 8 ((8 * n) mod 2 ^ 64).

(** The sixteen words of a 64-byte block. *)
Fixpoint words (k : nat) (bs : list Z) : list Z :=
  match k with
  | O => []
  | S k' => le_word (firstn 4 bs) :: words k' (skipn 4 bs)
  end.

Record state := St { sa : Z; sb : Z; sc : Z; sd : Z }.

Definition init : state :=
  St 0x67452301 0xefcdab89 0x98badcfe 0x10325476.

Definition round (m : list Z) (st : state) (i : nat) : state :=
  let '(St a b c d) := st in
  let iz := Z.of_nat i in
  let '(f, g) :=
    if iz <? 16 then (Z.lor (Z.land b c) (Z.land (lnot32 b) d), iz)
    else if iz <? 32 then
      (Z.lor (Z.land d b) (Z.land (lnot32 d) c), (5 * iz + 1) mod 16)
    else if iz <? 48 then (Z.lxor (Z.lxor b c) d, (3 * iz + 5) mod 16)
    else (Z.lxor c (Z.lor b (lnot32 d)), (7 * iz) mod 16) in
  let f' := w32 (f + a + nth i sines 0 + nth (Z.to_nat g) m 0) in
  St d (w32 (b + rotl f' (nth i shifts 0))) b c.

Definition block (st : state) (bs : list Z) : state :=
  let '(St a b c d) := st in
  let '(St a' b' c' d') := fold_left (round (words 16 bs)) (seq 0 64) st in
  St (w32 (a + a')) (w32 (b + b')) (w32 (c + c')) (w32 (d + d')).

Fixpoint blocks (k : nat) (st : state) (bs : list Z) : state :=
  match k with
  | O => st
  | S k' => blocks k' (block st (firstn 64 bs)) (skipn 64 bs)
  end.

Definition digest (msg : list Z) : list Z :=
  let p := pad msg in
  let '(St a b c d) := blocks (length p / 64) init p in
  le_bytes 4 a ++ le_bytes 4 b ++ le_bytes 4 c ++ le_bytes 4 d.

Definition hexdigits : str := py "0123456789abcdef".

Definition hex_byte (b : Z) : str :=
  [nth (Z.to_nat (b / 16 mod 16)) hexdigits 0;
   nth (Z.to_nat (b mod 16)) hexdigits 0].

(** [hashlib.md5(msg).hexdigest()] *)
Definition hexdigest (msg : list Z) : str :=
  flat_map hex_byte (digest msg).

End MD5.

(** ** Identity assigner *)

(** [LegalCaseVectorDB.generate_chunk_id]: the string that is hashed. *)
Definition unique_string (state file_name : str) (chunk_index : Z) : str :=
  state ++ py "_" ++ file_name ++ py "_" ++ of_int chunk_index.

(** [generate_chunk_id(state, file_name, chunk_index)]; [None] when
    [encode] raises. *)
Definition generate_chunk_id (state file_name : str) (chunk_index : Z)
  : option str :=
  option_map MD5.hexdigest (encode (unique_string state file_name chunk_index)).

(** [process_pdf_folder], the inline id: [f"{pdf_file.name}_{chunk_idx}"]. *)
Definition pdf_unique_string (file_name : str) (chunk_idx : Z) : str :=
  file_name ++ py "_" ++ of_int chunk_idx.

Definition pdf_chunk_id (file_name : str) (chunk_idx : Z) : option str :=
  option_map MD5.hexdigest (encode (pdf_unique_string file_name chunk_idx)).

(** ** Chunker *)

(** The two [chunk_text] methods share their loop and differ in three places:
    the delimiters tried, the bounds handed to [rfind] (given the tentative
    end and the text length), and the minimum length of a kept chunk. *)
Record variant := Variant {
  puncts : list str;
  rfind_bounds : Z -> Z -> Z * Z;
  min_len : Z
}.

(** [LegalCaseVectorDB.chunk_text]:
    [for punct in ['. ', '! ', '? ', '\n\n']],
    [text.rfind(punct, end, min(end + 150, text_length))],
    [len(chunk) > 50]. *)
Definition html : variant :=
  {| puncts := [py ". "; py "! "; py "? "; [10; 10]];
     rfind_bounds := fun end_ text_length =>
                       (end_, Z.min (end_ + 150) text_length);
     min_len := 50 |}.

(** [FederalLawIngestion.chunk_text]:
    [for punct in ['. ', '.\n', '! ', '? ']],
    [text.rfind(punct, end - 200, end + 200)],
    [len(chunk) > 100]. *)
Definition pdf : variant :=
  {| puncts := [py ". "; [46; 10]; py "! "; py "? "];
     rfind_bounds := fun end_ _ => (end_ - 200, end_ + 200);
     min_len := 100 |}.

(** The [for punct in ...] loop: the first delimiter found in the window
    moves [end] just past its right-most occurrence, and the loop breaks. *)
Fixpoint snap (V : variant) (text : str) (end_ : Z) (ps : list str) : Z :=
  match ps with
  | [] => end_
  | punct :: ps' =>
      let '(lo, hi) := rfind_bounds V end_ (len text) in
      let punct_pos := rfind text punct lo hi in
      if negb (punct_pos =? -1) then punct_pos + len punct
      else snap V text end_ ps'
  end.

(** One iteration of the [while] loop, from the cursor [start]. *)
Record window := Window {
  w_start : Z;        (** [start] on entry *)
  w_end : Z;          (** [end] after snapping *)
  w_chunk : str;      (** [text[start:end].strip()] *)
  w_kept : bool;      (** was the chunk appended? *)
  w_next : Z          (** [start] on exit *)
}.

Definition iteration (V : variant) (text : str) (chunk_size overlap start : Z)
  : window :=
  let text_length := len text in
  let end0 := start + chunk_size in
  let end_ := if end0 <? text_length then snap V text end0 (puncts V)
              else end0 in
  let chunk := strip (slice text start end_) in
  {| w_start := start;
     w_end := end_;
     w_chunk := chunk;
     w_kept := truthy chunk && (len chunk >? min_len V);
     w_next := if end_ <? text_length then end_ - overlap else text_length |}.

(** The [while start < text_length] loop; [None] when the fuel runs out. *)
Fixpoint chunk_loop (V : variant) (fuel : nat) (text : str)
    (chunk_size overlap start : Z) (chunks : list str) : option (list str) :=
  match fuel with
  | O => None
  | S fuel' =>
      if start <? len text then
        let w := iteration V text chunk_size overlap start in
        chunk_loop V fuel' text chunk_size overlap (w_next w)
          (if w_kept w then chunks ++ [w_chunk w] else chunks)
      else Some chunks
  end.

(** [chunk_text(text, chunk_size, overlap)] *)
Definition chunk_text (V : variant) (fuel : nat) (text : str)
    (chunk_size overlap : Z) : option (list str) :=
  if negb (truthy text) || (len text =? 0) then Some []
  else chunk_loop V fuel text chunk_size overlap 0 [].

(** The same loop, recording every iteration. *)
Fixpoint windows (V : variant) (fuel : nat) (text : str)
    (chunk_size overlap start : Z) : option (list window) :=
  match fuel with
  | O => None
  | S fuel' =>
      if start <? len text then
        let w := iteration V text chunk_size overlap start in
        option_map (cons w)
          (windows V fuel' text chunk_size overlap (w_next w))
      else Some []
  end.

(** Offsets of [text] inside the slice [text[w_start:w_end]] of a window
    whose bounds are not negative. *)
Definition covers (w : window) (i : Z) : Prop := w_start w <= i < w_end w.

(** The calls of the two pipelines. *)
Definition html_chunk_text (fuel : nat) (text : str) : option (list str) :=
  chunk_text html fuel text 1000 200.

Definition pdf_chunk_text (fuel : nat) (text : str) : option (list str) :=
  chunk_text pdf fuel text 1500 300.

(** Truth value of a list. *)
Definition nonempty {A : Type} (l : list A) : bool :=
  match l with [] => false | _ => true end.

(** ** Paths and directory listings *)

Record path := Path {
  parent : str;
  name : str
}.

(** [str(p)] for a POSIX path, given by the string of its parent and by its
    name: the parent [.] is not written, and no separator is added to a
    parent that ends with one, the root. *)
Definition path_str (p : path) : str :=
  if eqb (parent p) (py ".") then name p
  else
    match rev (parent p) with
    | 47 :: _ => parent p ++ name p
    | _ => parent p ++ py "/" ++ name p
    end.

(** [p.stem]: the name without its last suffix; a name whose only dot is the
    first or the last character has no suffix. *)
Definition stem (p : path) : str :=
  let i := rfind (name p) (py ".") 0 (len (name p)) in
  if (0 <? i) && (i <? len (name p) - 1) then slice (name p) 0 i
  else name p.

(** [s.endswith(suffix)] *)
Definition endswith (s suffix : str) : bool :=
  startswith (rev s) (rev suffix).

(** Lexicographic order on code points, the order of [sorted] on the POSIX
    paths of one directory (on Windows pathlib compares the names with
    their case folded). *)
Fixpoint str_leb (a b : str) : bool :=
  match a, b with
  | [], _ => true
  | _ :: _, [] => false
  | x :: a', y :: b' => (x <? y) || ((x =? y) && str_leb a' b')
  end.

(** ** HTML extractor *)

(** What the HTML parser hands back: a tag is seen through the strings below
    it, a parsed document through its text, taken with
    [get_text(separator='\n', strip=True)] once the script, style, meta and
    link elements are removed, and through [soup.find('title')]. *)
Record tag := Tag { tag_strings : list str }.

Record soup := Soup {
  soup_text : str;
  soup_title : option tag
}.

(** [tag.get_text(strip=True)]: the stripped strings that are not empty,
    joined with the empty separator. *)
Definition get_text_strip (t : tag) : str :=
  concat (filter truthy (map strip (tag_strings t))).

(** [s.split(sep)] on a one-character separator, and [sep.join(l)]. *)
Fixpoint split (sep : char) (s : str) : list str :=
  match s with
  | [] => [[]]
  | c :: s' =>
      if c =? sep then [] :: split sep s'
      else match split sep s' with
           | [] => [[c]]
           | l :: ls => (c :: l) :: ls
           end
  end.

Fixpoint join (sep : str) (l : list str) : str :=
  match l with
  | [] => []
  | [x] => x
  | x :: l' => x ++ sep ++ join sep l'
  end.

(** A file of a listing: its path, and the parsed document when it can be
    opened, read and parsed ([None]: an exception is raised). *)
Record html_file := HtmlFile {
  hf_path : path;
  hf_soup : option soup
}.

Record extracted := Extracted {
  x_text : str;
  x_title : str;
  x_file_path : str;
  x_file_name : str
}.

(** [extract_text_from_html(html_path)]; [None] is the [except] branch.  A
    tag is true whatever its contents, so [if title:] tests that a title
    element was found.  The [except] branch prints the name of the file
    before it returns [None]; output to the console is not modelled, and is
    taken to succeed (a console that refuses a string, as a strict UTF-8
    console refuses a lone surrogate, makes [print] raise). *)
Definition extract_text_from_html (f : html_file) : option extracted :=
  match hf_soup f with
  | None => None
  | Some sp =>
      let text := soup_text sp in
      let lines := filter truthy (map strip (split 10 text)) in
      let text := join [10] lines in
      let case_title :=
        match soup_title sp with
        | Some title => get_text_strip title
        | None => stem (hf_path f)
        end in
      Some {| x_text := text;
              x_title := case_title;
              x_file_path := path_str (hf_path f);
              x_file_name := name (hf_path f) |}
  end.

(** ** Batch loader *)

(** How a run of a folder ends: it returns, an exception leaves it, or the
    model ran out of fuel inside [chunk_text]. *)
Inductive outcome (A : Type) : Type :=
| Returned (a : A)
| Raised (a : A)
| OutOfFuel.

Arguments Returned {A} a.
Arguments Raised {A} a.
Arguments OutOfFuel {A}.

Section Loader.

(** Metadata records, and the collection of the vector store:
    [collection.add] returns the collection it leaves and whether it returned
    ([true]) or raised ([false]). *)
Variable M : Type.
Variable Store : Type.
Variable coll_add : Store -> list str -> list M -> list str -> Store * bool.

Record batch := Batch {
  b_documents : list str;
  b_metadatas : list M;
  b_ids : list str
}.

(** The local variables of a folder run, the collection, and the log of the
    calls made to [collection.add]. *)
Record loader := Loader {
  documents : list str;
  metadatas : list M;
  ids : list str;
  total_chunks : Z;
  files_processed : Z;
  files_skipped : Z;
  store : Store;
  calls : list batch
}.

Definition start_run (s : Store) : loader :=
  {| documents := []; metadatas := []; ids := [];
     total_chunks := 0; files_processed := 0; files_skipped := 0;
     store := s; calls := [] |}.

Definition skip_file (st : loader) : loader :=
  {| documents := documents st; metadatas := metadatas st; ids := ids st;
     total_chunks := total_chunks st;
     files_processed := files_processed st;
     files_skipped := files_skipped st + 1;
     store := store st; calls := calls st |}.

Definition count_file (st : loader) : loader :=
  {| documents := documents st; metadatas := metadatas st; ids := ids st;
     total_chunks := total_chunks st;
     files_processed := files_processed st + 1;
     files_skipped := files_skipped st;
     store := store st; calls := calls st |}.

(** [documents.append(chunk); metadatas.append(...); ids.append(chunk_id);
    total_chunks += 1] *)
Definition append_record (st : loader) (chunk : str) (meta : M) (id : str)
  : loader :=
  {| documents := documents st ++ [chunk];
     metadatas := metadatas st ++ [meta];
     ids := ids st ++ [id];
     total_chunks := total_chunks st + 1;
     files_processed := files_processed st;
     files_skipped := files_skipped st;
     store := store st; calls := calls st |}.

(** The [try: collection.add(...)] of the chunk loop: the three lists are
    reset in the [try] body after the call, and in the [except] branch. *)
Definition flush (st : loader) : loader :=
  let b := Batch (documents st) (metadatas st) (ids st) in
  match coll_add (store st) (documents st) (metadatas st) (ids st) with
  | (s', true) =>
      {| documents := []; metadatas := []; ids := [];
         total_chunks := total_chunks st;
         files_processed := files_processed st;
         files_skipped := files_skipped st;
         store := s'; calls := calls st ++ [b] |}
  | (s', false) =>
      {| documents := []; metadatas := []; ids := [];
         total_chunks := total_chunks st;
         files_processed := files_processed st;
         files_skipped := files_skipped st;
         store := s'; calls := calls st ++ [b] |}
  end.

(** The body of [for chunk_idx, chunk in enumerate(chunks)], once the id is
    computed. *)
Definition add_record (batch_size : Z) (st : loader) (chunk : str)
    (meta : M) (id : str) : loader :=
  let st' := append_record st chunk meta id in
  if len (documents st') >=? batch_size then flush st' else st'.

(** [for chunk_idx, chunk in enumerate(chunks)]: [mk] builds the id and the
    metadata of a chunk; the id is computed first, and [None] means that
    computing it raised. *)
Fixpoint add_chunks (mk : Z -> option (str * M)) (batch_size : Z)
    (st : loader) (chunk_idx : Z) (chunks : list str) : outcome loader :=
  match chunks with
  | [] => Returned st
  | chunk :: rest =>
      match mk chunk_idx with
      | None => Raised st
      | Some (id, meta) =>
          add_chunks mk batch_size (add_record batch_size st chunk meta id)
            (chunk_idx + 1) rest
      end
  end.

(** [if documents: try: collection.add(...) except ...], after the loop
    over the files. *)
Definition final_flush (st : loader) : loader :=
  if nonempty (documents st) then
    let b := Batch (documents st) (metadatas st) (ids st) in
    match coll_add (store st) (documents st) (metadatas st) (ids st) with
    | (s', _) =>
        {| documents := documents st; metadatas := metadatas st;
           ids := ids st;
           total_chunks := total_chunks st;
           files_processed := files_processed st;
           files_skipped := files_skipped st;
           store := s'; calls := calls st ++ [b] |}
    end
  else st.

End Loader.

Arguments Batch {M} _ _ _.
Arguments b_documents {M} _.
Arguments b_metadatas {M} _.
Arguments b_ids {M} _.
Arguments documents {M Store} _.
Arguments metadatas {M Store} _.
Arguments ids {M Store} _.
Arguments total_chunks {M Store} _.
Arguments files_processed {M Store} _.
Arguments files_skipped {M Store} _.
Arguments store {M Store} _.
Arguments calls {M Store} _.
Arguments start_run {M Store} _.
Arguments skip_file {M Store} _.
Arguments count_file {M Store} _.
Arguments append_record {M Store} _ _ _ _.
Arguments flush {M Store} _ _.
Arguments add_record {M Store} _ _ _ _ _ _.
Arguments add_chunks {M Store} _ _ _ _ _ _.
Arguments final_flush {M Store} _ _.

(** [for f in files], an exception leaving the loop with it. *)
Fixpoint for_files {F A : Type} (body : A -> F -> outcome A) (st : A)
    (files : list F) : outcome A :=
  match files with
  | [] => Returned st
  | f :: rest =>
      match body st f with
      | Returned st' => for_files body st' rest
      | Raised st' => Raised st'
      | OutOfFuel => OutOfFuel
      end
  end.

(** ** HTML pipeline *)

Record html_metadata := HtmlMetadata {
  hm_state : str;
  hm_case_title : str;
  hm_file_name : str;
  hm_file_path : str;
  hm_chunk_index : Z;
  hm_total_chunks : Z
}.

(** A directory entry of the root: its path, whether it is a directory, and
    the entries below it. *)
Record entry := Entry {
  e_path : path;
  e_is_dir : bool;
  e_children : list html_file
}.

(** [state_path.glob('*' + suffix)] *)
Definition glob (suffix : str) (children : list html_file) : list html_file :=
  filter (fun f => endswith (name (hf_path f)) suffix) children.

(** [list(state_path.glob('*.html')) + list(state_path.glob('*.htm'))] *)
Definition html_files (state_path : entry) : list html_file :=
  glob (py ".html") (e_children state_path)
  ++ glob (py ".htm") (e_children state_path).

Section HtmlPipeline.

Variable Store : Type.
Variable coll_add :
  Store -> list str -> list html_metadata -> list str -> Store * bool.

(** [str.lower], the case mapping of the interpreter. *)
Variable lower : str -> str.

Definition html_loader := loader html_metadata Store.

(** The id and the metadata of chunk [chunk_idx] of a file. *)
Definition html_record (state_name : str) (html_file : html_file)
    (x : extracted) (chunks : list str) (chunk_idx : Z)
  : option (str * html_metadata) :=
  match generate_chunk_id state_name (name (hf_path html_file)) chunk_idx with
  | None => None
  | Some chunk_id =>
      Some (chunk_id,
            {| hm_state := state_name;
               hm_case_title := x_title x;
               hm_file_name := x_file_name x;
               hm_file_path := x_file_path x;
               hm_chunk_index := chunk_idx;
               hm_total_chunks := len chunks |})
  end.

(** The body of [for html_file in html_files]. *)
Definition process_html_file (batch_size : Z) (state_name : str)
    (st : html_loader) (html_file : html_file) : outcome html_loader :=
  match extract_text_from_html html_file with
  | None => Returned (skip_file st)
  | Some x =>
      if negb (truthy (x_text x)) then Returned (skip_file st)
      else
        match chunk_text html (S (length (x_text x))) (x_text x) 1000 200 with
        | None => OutOfFuel
        | Some chunks =>
            if negb (nonempty chunks) then Returned (skip_file st)
            else add_chunks coll_add (html_record state_name html_file x chunks)
                   batch_size (count_file st) 0 chunks
        end
  end.

(** [process_state_folder(state_path, batch_size)], run on the collection
    [s].  The outcome is that of the part of the function that works on the
    files and the collection: the messages printed on the way, and the
    [collection.count()] of the summary, after the final flush, are not
    modelled and are taken to succeed.  [Returned st] is thus the state in
    which the function returns when they do. *)
Definition process_state_folder (state_path : entry) (batch_size : Z)
    (s : Store) : outcome html_loader :=
  let state_name := lower (name (e_path state_path)) in
  if negb (nonempty (html_files state_path)) then Returned (start_run s)
  else
    match for_files (process_html_file batch_size state_name)
            (start_run s) (html_files state_path) with
    | Returned st => Returned (final_flush coll_add st)
    | Raised st => Raised st
    | OutOfFuel => OutOfFuel
    end.

(** The comprehension of [process_all_states]. *)
Definition is_state_folder (f : entry) : bool :=
  e_is_dir f
  && negb (startswith (name (e_path f)) (py "."))
  && negb (startswith (name (e_path f)) (py "_"))
  && negb (eqb (name (e_path f)) (py "legal_cases_chroma_db")).

Definition state_folders (root : list entry) : list entry :=
  filter is_state_folder root.

(** [sorted(state_folders)] *)
Fixpoint insert_sorted (f : entry) (l : list entry) : list entry :=
  match l with
  | [] => [f]
  | g :: l' =>
      if str_leb (name (e_path f)) (name (e_path g)) then f :: l
      else g :: insert_sorted f l'
  end.

Definition sorted (l : list entry) : list entry :=
  fold_right insert_sorted [] l.

(** What a run of [process_all_states] leaves: the collection, every call
    made to [collection.add], and the folders handed to
    [process_state_folder]. *)
Record all_states := AllStates {
  as_store : Store;
  as_calls : list (batch html_metadata);
  as_visited : list entry
}.

(** [for state_folder in sorted(state_folders)], with its
    [try ... except Exception: continue]. *)
Fixpoint for_state_folders (folders : list entry) (r : all_states)
  : option all_states :=
  match folders with
  | [] => Some r
  | state_folder :: rest =>
      match process_state_folder state_folder 50 (as_store r) with
      | Returned st | Raised st =>
          for_state_folders rest
            {| as_store := store st;
               as_calls := as_calls r ++ calls st;
               as_visited := as_visited r ++ [state_folder] |}
      | OutOfFuel => None
      end
  end.

(** [process_all_states(root_dir)], on the listing of the root, which
    [root_path.iterdir()] is taken to give.  As for a folder run, the
    messages printed, the one of the [except] handler among them, and the
    two [collection.count()] are not modelled and are taken to succeed;
    [None] is a run out of fuel. *)
Definition process_all_states (root : list entry) (s : Store)
  : option all_states :=
  let r := {| as_store := s; as_calls := []; as_visited := [] |} in
  if negb (nonempty (state_folders root)) then Some r
  else for_state_folders (sorted (state_folders root)) r.

End HtmlPipeline.

(** ** PDF pipeline *)

Record pdf_metadata := PdfMetadata {
  pm_source : str;
  pm_law_title : str;
  pm_file_name : str;
  pm_file_path : str;
  pm_chunk_index : Z;
  pm_total_chunks : Z
}.

(** A PDF of the listing, with what [extract_text_from_pdf] returns for it
    ([None] when the file cannot be read). *)
Record pdf_file := PdfFile {
  pf_path : path;
  pf_text : option str
}.

Record pdf_dir := PdfDir {
  pd_exists : bool;
  pd_listing : list pdf_file
}.

(** [s.replace(a, b)] on single characters. *)
Definition replace (a b : char) (s : str) : str :=
  map (fun c => if c =? a then b else c) s.

(** [list(pdf_folder.glob('**/*.pdf'))], on the recursive listing. *)
Definition pdf_files (pdf_folder : pdf_dir) : list pdf_file :=
  filter (fun f => endswith (name (pf_path f)) (py ".pdf"))
         (pd_listing pdf_folder).

Section PdfPipeline.

Variable Store : Type.
Variable coll_add :
  Store -> list str -> list pdf_metadata -> list str -> Store * bool.

Definition pdf_loader := loader pdf_metadata Store.

Definition pdf_record (pdf_file : pdf_file) (law_title : str)
    (chunks : list str) (chunk_idx : Z) : option (str * pdf_metadata) :=
  match pdf_chunk_id (name (pf_path pdf_file)) chunk_idx with
  | None => None
  | Some chunk_id =>
      Some (chunk_id,
            {| pm_source := py "federal_law";
               pm_law_title := law_title;
               pm_file_name := name (pf_path pdf_file);
               pm_file_path := path_str (pf_path pdf_file);
               pm_chunk_index := chunk_idx;
               pm_total_chunks := len chunks |})
  end.

(** The body of [for pdf_file in pdf_files]. *)
Definition process_pdf_file (batch_size : Z) (st : pdf_loader)
    (pdf_file : pdf_file) : outcome pdf_loader :=
  match pf_text pdf_file with
  | None => Returned (skip_file st)
  | Some text =>
      if negb (truthy text) || (len text <? 100) then Returned (skip_file st)
      else
        match chunk_text pdf (S (length text)) text 1500 300 with
        | None => OutOfFuel
        | Some chunks =>
            if negb (nonempty chunks) then Returned (skip_file st)
            else
              let law_title :=
                replace 45 32 (replace 95 32 (stem (pf_path pdf_file))) in
              add_chunks coll_add (pdf_record pdf_file law_title chunks)
                batch_size (count_file st) 0 chunks
        end
  end.

(** [process_pdf_folder(pdf_folder, batch_size)], run on the collection
    [s]; [pf_text] is what [extract_text_from_pdf] returned for the file,
    its messages printed.  As in the HTML pipeline, the messages and the
    [collection.count()] of the summary are not modelled and are taken to
    succeed. *)
Definition process_pdf_folder (pdf_folder : pdf_dir) (batch_size : Z)
    (s : Store) : outcome pdf_loader :=
  if negb (pd_exists pdf_folder) then Returned (start_run s)
  else if negb (nonempty (pdf_files pdf_folder)) then Returned (start_run s)
  else
      match for_files (process_pdf_file batch_size) (start_run s)
              (pdf_files pdf_folder) with
      | Returned st => Returned (final_flush coll_add st)
      | Raised st => Raised st
      | OutOfFuel => OutOfFuel
      end.

End PdfPipeline.

(** * Further functions of the two pipelines *)

(** ** PDF extractor *)

(** What the PDF reader hands back for a page: [page.extract_text()] returns
    a string, or raises. *)
Inductive page : Type :=
| PageText (page_text : str)
| PageRaises.

(** [for page_num, page in enumerate(pdf_reader.pages)]: a page whose text
    is not empty adds [f"\n[Page {page_num + 1}]\n{page_text}"]; a page that
    raises is skipped. *)
Fixpoint pages_text (page_num : Z) (pages : list page) (text : str) : str :=
  match pages with
  | [] => text
  | PageText page_text :: rest =>
      pages_text (page_num + 1) rest
        (if truthy page_text
         then text ++ [10] ++ py "[Page " ++ of_int (page_num + 1)
                   ++ py "]" ++ [10] ++ page_text
         else text)
  | PageRaises :: rest => pages_text (page_num + 1) rest text
  end.

(** [re.sub(cls + '+', repl, s)] for a class [cls] of single characters:
    every maximal run of characters of the class becomes [repl]. *)
Fixpoint sub_runs (cls : char -> bool) (repl : char) (in_run : bool)
    (s : str) : str :=
  match s with
  | [] => []
  | c :: s' =>
      if cls c then
        if in_run then sub_runs cls repl true s'
        else repl :: sub_runs cls repl true s'
      else c :: sub_runs cls repl false s'
  end.

Definition re_sub_plus (cls : char -> bool) (repl : char) (s : str) : str :=
  sub_runs cls repl false s.

(** [extract_text_from_pdf(pdf_path)], on the pages of the document ([None]
    when the file cannot be opened or read: the outer [except]).  [\s] is
    the whitespace of [str.isspace]. *)
Definition extract_text_from_pdf (pages : option (list page)) : option str :=
  match pages with
  | None => None
  | Some pages =>
      let text := pages_text 0 pages [] in
      let text := re_sub_plus isspace 32 text in
      let text := re_sub_plus (fun c => c =? 10) 10 text in
      Some (strip text)
  end.

(** ** Search *)

Section Search.

Variable Store : Type.
Variable Results : Type.

(** [collection.query(query_texts, n_results, where)]; a [where] filter is a
    dictionary, here the list of its items. *)
Variable coll_query :
  Store -> list str -> Z -> option (list (str * str)) -> Results.
Variable lower : str -> str.

(** [search_cases(query, n_results, state_filter)] *)
Definition search_cases (s : Store) (query : str) (n_results : Z)
    (state_filter : option str) : Results :=
  let where_filter :=
    match state_filter with
    | Some f => if truthy f then Some [(py "state", lower f)] else None
    | None => None
    end in
  coll_query s [query] n_results where_filter.

End Search.

(** * Statements and example inputs *)

(** The bytes of the two-, three- and four-byte forms of UTF-8, written
    with quotients and remainders. *)
Definition utf8_2 (c : Z) : list Z := [192 + c / 64; 128 + c mod 64].

Definition utf8_3 (c : Z) : list Z :=
  [224 + c / 4096; 128 + (c / 64) mod 64; 128 + c mod 64].

Definition utf8_4 (c : Z) : list Z :=
  [240 + c / 262144; 128 + (c / 4096) mod 64; 128 + (c / 64) mod 64;
   128 + c mod 64].

(** All strings of a given length over an alphabet. *)
Fixpoint words_over (alphabet : list char) (n : nat) : list str :=
  match n with
  | O => [[]]
  | S k => flat_map (fun c => map (cons c) (words_over alphabet k)) alphabet
  end.

(** Exactly one of the three inputs of [generate_chunk_id] differs. *)
Definition one_input_changed (s f : str) (i : Z) (s' f' : str) (i' : Z)
  : Prop :=
  (s <> s' /\ f = f' /\ i = i')
  \/ (s = s' /\ f <> f' /\ i = i')
  \/ (s = s' /\ f = f' /\ i <> i').

(** "Changing any one input yields a different id", for the two pipelines. *)
Definition html_ids_always_differ : Prop :=
  forall s f i s' f' i',
    one_input_changed s f i s' f' i' ->
    generate_chunk_id s f i <> generate_chunk_id s' f' i'.

Definition pdf_ids_always_differ : Prop :=
  forall f i f' i',
    (f <> f' /\ i = i') \/ (f = f' /\ i <> i') ->
    pdf_chunk_id f i <> pdf_chunk_id f' i'.

(** The ids of the files [a....html] (HTML) and [a....pdf] (PDF), chunk 0. *)
Definition html_id_of_length (n : nat) : option str :=
  generate_chunk_id (py "texas") (repeat 97 n ++ py ".html") 0.

Definition pdf_id_of_length (n : nat) : option str :=
  pdf_chunk_id (repeat 97 n ++ py ".pdf") 0.

(** A text with long runs of spaces: 100 letters, 1100 spaces, [hello],
    895 spaces, 100 letters.  It is one line that starts and ends with a
    letter. *)
Definition gap_text : str :=
  repeat 97 100 ++ repeat 32 1100 ++ py "hello" ++ repeat 32 895
    ++ repeat 98 100.

(** The upper bound of [rfind], adjusted. *)
Definition adjust_hi (hi n : Z) : Z :=
  if hi >? n then n else if hi <? 0 then Z.max (hi + n) 0 else hi.

(** "No portion of the text between the first and the last kept character
    falls outside every chunk's span": an offset at or after the start of a
    returned chunk and before the end of a returned chunk lies in the span of
    a returned chunk. *)
Definition kept_spans_cover (V : variant) (cs ov : Z) : Prop :=
  forall (fuel : nat) (text : str) (ws : list window),
    windows V fuel text cs ov 0 = Some ws ->
    forall w1 w2 i,
      In w1 (filter w_kept ws) -> In w2 (filter w_kept ws) ->
      w_start w1 <= i < w_end w2 -> i < len text ->
      exists w, In w (filter w_kept ws) /\ covers w i.

(** The same shape of text for the PDF parameters. *)
Definition pdf_gap_text : str :=
  repeat 97 150 ++ repeat 32 1600 ++ py "hello" ++ repeat 32 1245
    ++ repeat 98 150.

Definition window_summary (w : window) : Z * Z * bool * str :=
  (w_start w, w_end w, w_kept w, w_chunk w).

Definition clause_text : str :=
  py "Clause one ends here. Clause two begins and runs long enough to pass the target size threshold before hitting a period.".

(** The HTML variant with a forward window of 20 characters instead of
    150. *)
Definition html_window_20 : variant :=
  {| puncts := puncts html;
     rfind_bounds := fun end_ text_length =>
                       (end_, Z.min (end_ + 20) text_length);
     min_len := min_len html |}.

(** "The first chunk ends immediately after [Clause one ends here. ]": the
    first window of the loop is that prefix of the text. *)
Definition first_window_snaps_back (V : variant) : Prop :=
  exists overlap,
    slice clause_text 0 (w_end (iteration V clause_text 30 overlap 0))
    = py "Clause one ends here. ".

(** "The returned title is never empty." *)
Definition title_always_populated : Prop :=
  forall (f : html_file) (x : extracted),
    extract_text_from_html f = Some x -> x_title x <> [].

(** A document whose title element is empty, [<title></title>], and one
    whose title element holds a space. *)
Definition empty_title_file : html_file :=
  {| hf_path := Path (py "texas") (py "smith_v_jones.html");
     hf_soup := Some {| soup_text := py "Opinion of the court.";
                        soup_title := Some (Tag []) |} |}.

Definition blank_title_file : html_file :=
  {| hf_path := Path (py "texas") (py "smith_v_jones.html");
     hf_soup := Some {| soup_text := py "Opinion of the court.";
                        soup_title := Some (Tag [py " "]) |} |}.

(** A property of the state a run ends in, however it ends. *)
Definition outcome_holds {A : Type} (P : A -> Prop) (o : outcome A) : Prop :=
  match o with
  | Returned a | Raised a => P a
  | OutOfFuel => True
  end.

(** A call that carries [n] records. *)
Definition batch_of {M : Type} (n : Z) (b : batch M) : Prop :=
  len (b_documents b) = n /\ len (b_metadatas b) = n /\ len (b_ids b) = n.

(** Between two chunks: the buffer holds fewer than [bs] records, every call
    made so far carried [bs] of them, and the records generated are those
    sent and those buffered. *)
Definition batched {M Store : Type} (bs : Z) (st : loader M Store) : Prop :=
  len (documents st) < bs
  /\ len (metadatas st) = len (documents st)
  /\ len (ids st) = len (documents st)
  /\ Forall (batch_of bs) (calls st)
  /\ total_chunks st = bs * len (calls st) + len (documents st).

(** The number of records carried by a list of calls. *)
Fixpoint records_sent {M : Type} (cs : list (batch M)) : Z :=
  match cs with
  | [] => 0
  | b :: cs' => len (b_documents b) + records_sent cs'
  end.


(** A collection that counts its documents and never raises, and one that
    always raises. *)
Definition counting_add {M : Type} (s : Z) (docs : list str) (_ : list M)
    (_ : list str) : Z * bool :=
  (s + len docs, true).

Definition failing_add {M : Type} (s : Z) (_ : list str) (_ : list M)
    (_ : list str) : Z * bool :=
  (s, false).

(** Lower case, on ASCII letters. *)
Definition ascii_lower (s : str) : str :=
  map (fun c => if (65 <=? c) && (c <=? 90) then c + 32 else c) s.

(** A state folder with 51 files, [0.html] to [50.html], of one chunk
    each. *)
Definition texas_51 : entry :=
  {| e_path := Path (py ".") (py "Texas");
     e_is_dir := true;
     e_children :=
       map (fun k =>
              {| hf_path := Path (py "Texas")
                              (of_int (Z.of_nat k) ++ py ".html");
                 hf_soup := Some {| soup_text := repeat 97 60;
                                    soup_title := None |} |})
           (seq 0 51) |}.

(** The same folder with one more file, whose name holds a lone surrogate
    (a file name that is not valid UTF-8, as the interpreter decodes it). *)
Definition texas_51_and_unencodable : entry :=
  {| e_path := Path (py ".") (py "Texas");
     e_is_dir := true;
     e_children :=
       e_children texas_51
       ++ [ {| hf_path := Path (py "Texas") (56575 :: py ".html");
               hf_soup := Some {| soup_text := repeat 97 60;
                                  soup_title := None |} |} ] |}.

(** What a run does besides changing the collection: its buffers, its
    counters and the calls it makes. *)
Definition view {M Store : Type} (st : loader M Store)
  : list str * list M * list str * Z * Z * Z * list (batch M) :=
  (documents st, metadatas st, ids st, total_chunks st, files_processed st,
   files_skipped st, calls st).

(** Two runs end the same way, in states with the same view. *)
Definition same_outcome {M S1 S2 : Type} (o1 : outcome (loader M S1))
    (o2 : outcome (loader M S2)) : Prop :=
  match o1, o2 with
  | Returned a, Returned b | Raised a, Raised b => view a = view b
  | OutOfFuel, OutOfFuel => True
  | _, _ => False
  end.

(** The calls and the folders of a whole run. *)
Definition all_states_view {Store : Type} (r : all_states Store)
  : list (batch html_metadata) * list entry :=
  (as_calls Store r, as_visited Store r).

(** No run ends for want of fuel: [chunk_text] is given enough. *)
Definition fuelled {A : Type} (o : outcome A) : Prop := o <> OutOfFuel.

(** The folders that pass the filter of [process_all_states]. *)
Definition scope_folder (f : entry) : Prop :=
  e_is_dir f = true
  /\ startswith (name (e_path f)) (py ".") = false
  /\ startswith (name (e_path f)) (py "_") = false
  /\ name (e_path f) <> py "legal_cases_chroma_db".

(** The root of the HTML pipeline as [main] leaves it: two state folders, a
    hidden directory, a Python cache, a file, and the directory of the
    vector store. *)
Definition sample_root : list entry :=
  [ {| e_path := Path (py ".") (py "legal_cases_chroma_db");
       e_is_dir := true; e_children := [] |};
    texas_51;
    {| e_path := Path (py ".") (py ".git");
       e_is_dir := true; e_children := [] |};
    {| e_path := Path (py ".") (py "__pycache__");
       e_is_dir := true; e_children := [] |};
    {| e_path := Path (py ".") (py "vectorize.py");
       e_is_dir := false; e_children := [] |};
    {| e_path := Path (py ".") (py "Ohio");
       e_is_dir := true; e_children := [] |} ].

(** ** Statements of the further properties *)

(** A code point that UTF-8 can encode: in range and not a surrogate. *)
Definition encodable (c : char) : bool :=
  (0 <=? c) && (c <? 1114112) && negb ((55296 <=? c) && (c <=? 57343)).

(** [a] occurs in [b] as a contiguous piece. *)
Definition infix (a b : str) : Prop :=
  exists pre post, b = pre ++ a ++ post.

(** No two consecutive characters of [s] are whitespace. *)
Fixpoint single_spaced (s : str) : bool :=
  match s with
  | c :: s' =>
      match s' with
      | d :: _ => negb (isspace c && isspace d) && single_spaced s'
      | [] => true
      end
  | [] => true
  end.

(** A page that raises, seen as a page without text. *)
Definition blank_if_raises (p : page) : page :=
  match p with
  | PageText t => PageText t
  | PageRaises => PageText []
  end.

(** The order of [sorted] on the entries of a directory. *)
Definition name_le (f g : entry) : Prop :=
  str_leb (name (e_path f)) (name (e_path g)) = true.

(** A call that [collection.add] can take: the three lists are not empty,
    have one length, and hold at most [bs] records. *)
Definition well_formed_call {M : Type} (bs : Z) (b : batch M) : Prop :=
  b_documents b <> []
  /\ len (b_documents b) <= bs
  /\ len (b_metadatas b) = len (b_documents b)
  /\ len (b_ids b) = len (b_documents b).

(** The documents sent so far and those waiting in the buffer, in order. *)
Definition sent_or_buffered {M Store : Type} (st : loader M Store)
  : list str :=
  concat (map b_documents (calls st)) ++ documents st.

(** The chunks that a file of the HTML pipeline, of the PDF pipeline,
    contributes. *)
Definition html_file_chunks (f : html_file) : list str :=
  match extract_text_from_html f with
  | Some x =>
      if truthy (x_text x) then
        match chunk_text html (S (length (x_text x))) (x_text x) 1000 200 with
        | Some chunks => chunks
        | None => []
        end
      else []
  | None => []
  end.

Definition pdf_file_chunks (f : pdf_file) : list str :=
  match pf_text f with
  | Some text =>
      if truthy text && negb (len text <? 100) then
        match chunk_text pdf (S (length text)) text 1500 300 with
        | Some chunks => chunks
        | None => []
        end
      else []
  | None => []
  end.

(** Every id of the buffer and of the calls goes with its metadata. *)
Definition paired {M Store : Type} (R : str -> M -> Prop)
    (st : loader M Store) : Prop :=
  Forall2 R (ids st) (metadatas st)
  /\ Forall (fun b => Forall2 R (b_ids b) (b_metadatas b)) (calls st).

(** An id and the metadata stored with it, in a state folder. *)
Definition html_id_of_metadata (state_name : str) (files : list html_file)
    (id : str) (m : html_metadata) : Prop :=
  generate_chunk_id (hm_state m) (hm_file_name m) (hm_chunk_index m) = Some id
  /\ hm_state m = state_name
  /\ 0 <= hm_chunk_index m < hm_total_chunks m
  /\ exists f, In f files
               /\ hm_file_name m = name (hf_path f)
               /\ hm_file_path m = path_str (hf_path f)
               /\ option_map x_title (extract_text_from_html f)
                  = Some (hm_case_title m).

(** The law title of a PDF: its stem, with underscores and hyphens turned
    into spaces. *)
Definition law_title_of (p : path) : str :=
  replace 45 32 (replace 95 32 (stem p)).

Definition pdf_id_of_metadata (files : list pdf_file)
    (id : str) (m : pdf_metadata) : Prop :=
  pdf_chunk_id (pm_file_name m) (pm_chunk_index m) = Some id
  /\ pm_source m = py "federal_law"
  /\ 0 <= pm_chunk_index m < pm_total_chunks m
  /\ exists f, In f files
               /\ pm_file_name m = name (pf_path f)
               /\ pm_file_path m = path_str (pf_path f)
               /\ pm_law_title m = law_title_of (pf_path f).

(** A folder of the PDF pipeline with a document of 120 characters, a file
    that cannot be read, a document of 100 characters and a file that is not
    a PDF. *)
Definition sample_pdf_dir : pdf_dir :=
  {| pd_exists := true;
     pd_listing :=
       [ {| pf_path := Path (py "laws") (py "civil_rights-act.pdf");
            pf_text := Some (repeat 97 120) |};
         {| pf_path := Path (py "laws") (py "scanned.pdf");
            pf_text := None |};
         {| pf_path := Path (py "laws") (py "short.pdf");
            pf_text := Some (repeat 98 100) |};
         {| pf_path := Path (py "laws") (py "notes.txt");
            pf_text := Some (repeat 99 200) |} ] |}.

(** The metadata of every record sent satisfies [P]. *)
Definition every_record {M Store : Type} (P : M -> Prop)
    (st : loader M Store) : Prop :=
  Forall (fun b => Forall P (b_metadatas b)) (calls st).

(** A call of a whole run: well formed for the batch size 50, its ids and
    metadata those of one of the state folders of the root. *)
Definition call_of_root (lower : str -> str) (root : list entry)
    (b : batch html_metadata) : Prop :=
  well_formed_call 50 b
  /\ exists state_folder,
      In state_folder (state_folders root)
      /\ Forall2 (html_id_of_metadata (lower (name (e_path state_folder)))
                    (html_files state_folder))
           (b_ids b) (b_metadatas b).

(** The ids sent so far and those waiting in the buffer, in order. *)
Definition ids_sent_or_buffered {M Store : Type} (st : loader M Store)
  : list str :=
  concat (map b_ids (calls st)) ++ ids st.

(** A folder with two PDFs of one name in two subfolders. *)
Definition same_name_pdf_dir : pdf_dir :=
  {| pd_exists := true;
     pd_listing :=
       [ {| pf_path := Path (py "laws/2019") (py "act.pdf");
            pf_text := Some (repeat 97 120) |};
         {| pf_path := Path (py "laws/2021") (py "act.pdf");
            pf_text := Some (repeat 98 120) |} ] |}.

(** The integers that the interpreter converts to a string: those of at
    most 4300 digits, the default limit of CPython. *)
Definition int_to_str_defined (i : Z) : Prop := Z.abs i < 10 ^ 4300.

(** A folder of the PDF pipeline with 51 documents of one chunk each. *)
Definition pdf_51 : pdf_dir :=
  {| pd_exists := true;
     pd_listing :=
       map (fun k =>
              {| pf_path := Path (py "laws")
                              (of_int (Z.of_nat k) ++ py ".pdf");
                 pf_text := Some (repeat 97 120) |})
           (seq 0 51) |}.

(** The calls made by a folder run, however it ends. *)
Definition outcome_calls {M Store : Type} (o : outcome (loader M Store))
  : list (batch M) :=
  match o with
  | Returned st | Raised st => calls st
  | OutOfFuel => []
  end.

(** A collection of which no call raises, and the calls that the run of a
    state folder makes on it. *)
Definition never_raising_add {M : Type} (s : unit) (_ : list str)
    (_ : list M) (_ : list str) : unit * bool :=
  (s, true).

Definition folder_run_calls (lower : str -> str) (state_folder : entry)
  : list (batch html_metadata) :=
  outcome_calls
    (process_state_folder unit never_raising_add lower state_folder 50 tt).

(** A root with two state folders, of 2 and of 51 files of one chunk each,
    and the directory of the vector store. *)
Definition utah_2 : entry :=
  {| e_path := Path (py ".") (py "Utah");
     e_is_dir := true;
     e_children :=
       map (fun k =>
              {| hf_path := Path (py "Utah")
                              (of_int (Z.of_nat k) ++ py ".htm");
                 hf_soup := Some {| soup_text := repeat 98 60;
                                    soup_title := None |} |})
           (seq 0 2) |}.

Definition two_states_root : list entry :=
  [ utah_2;
    {| e_path := Path (py ".") (py "legal_cases_chroma_db");
       e_is_dir := true; e_children := [] |};
    texas_51 ].

(** * Properties *)

Example md5_empty : MD5.hexdigest [] = py "d41d8cd98f00b204e9800998ecf8427e".
Proof. vm_compute. reflexivity. Qed.

Example generate_chunk_id_texas :
  generate_chunk_id (py "texas") (py "case.html") 0
  = Some (py "f6efa0105039303b415cf20bd992cb69").
Proof. vm_compute. reflexivity. Qed.

Example pdf_chunk_id_law :
  pdf_chunk_id (py "law.pdf") 12 = Some (py "cb9f5c625955fb21704957bc5ad63176").
Proof. vm_compute. reflexivity. Qed.

(** Code points beyond ASCII go through UTF-8: the scope is U+00E9, the
    file name U+4E2D U+1F600. *)
Example generate_chunk_id_utf8 :
  generate_chunk_id [233] [20013; 128512] 1
  = Some (py "f0cdeb69999222b2304d0ddfd43ce618").
Proof. vm_compute. reflexivity. Qed.

Example md5_a64 :
  MD5.hexdigest (repeat 97 64) = py "014842d480b571495a4a0363793f7367".
Proof. vm_compute. reflexivity. Qed.

(** MD5 is not injective, even on short printable text: two 72-character
    alphanumeric strings that differ in one character have one digest. *)
Example md5_text_collision :
  let a := py "TEXTCOLLBYfGiJUETHQ4hAcKSMd5zYpgqf1YRDhkmxHkhPWptrkoyz28wnI9V0aHeAuaKnak" in
  let b := py "TEXTCOLLBYfGiJUETHQ4hEcKSMd5zYpgqf1YRDhkmxHkhPWptrkoyz28wnI9V0aHeAuaKnak" in
  a <> b /\ MD5.hexdigest a = MD5.hexdigest b
  /\ MD5.hexdigest a = py "faad49866e9498fc1719f5289e7a0269".
Proof. vm_compute. repeat split; discriminate. Qed.

(** *** Strings: basic facts *)

Section StrFacts.

Lemma of_string_inj (a b : string) : of_string a = of_string b -> a = b.
Proof.
  unfold of_string. intros H.
  rewrite <- (string_of_list_ascii_of_string a),
          <- (string_of_list_ascii_of_string b).
  f_equal.
  revert H. generalize (list_ascii_of_string a) (list_ascii_of_string b).
  induction l as [|x l IH]; intros [|y l']; simpl; try discriminate; auto.
  intros H. injection H as H1 H2.
  apply N2Z.inj in H1.
  rewrite <- (ascii_N_embedding x), <- (ascii_N_embedding y), H1.
  f_equal. auto.
Qed.

Lemma to_int_not_nil (z : Z) :
  Z.to_int z <> Decimal.Pos Decimal.Nil /\ Z.to_int z <> Decimal.Neg Decimal.Nil.
Proof.
  split; intros H; pose proof (DecimalZ.of_to z) as E; rewrite H in E;
    simpl in E; subst z; discriminate H.
Qed.

Lemma of_int_inj (i j : Z) : of_int i = of_int j -> i = j.
Proof.
  unfold of_int. intros H. apply of_string_inj in H.
  apply DecimalZ.to_int_inj.
  destruct (to_int_not_nil i) as [Hi1 Hi2], (to_int_not_nil j) as [Hj1 Hj2].
  pose proof (NilZero.isi _ Hi1 Hi2) as Ei.
  pose proof (NilZero.isi _ Hj1 Hj2) as Ej.
  rewrite H in Ei. congruence.
Qed.

Lemma encode_app (a b : str) :
  encode (a ++ b)
  = match encode a, encode b with
    | Some x, Some y => Some (x ++ y)
    | _, _ => None
    end.
Proof.
  induction a as [|c a IH]; simpl.
  - destruct (encode b); reflexivity.
  - rewrite IH. destruct (encode_char c), (encode a), (encode b);
      try reflexivity. now rewrite app_assoc.
Qed.

Lemma encode_ascii (s : str) :
  Forall (fun c => 0 <= c < 128) s -> encode s = Some s.
Proof.
  induction 1 as [|c s Hc _ IH]; simpl; [reflexivity|].
  rewrite IH. unfold encode_char.
  destruct (Z.ltb_spec c 0); [lia|].
  destruct (Z.ltb_spec c 128); [reflexivity|lia].
Qed.

(** Setting the bits of [x] below a tag [t] adds it to the tag. *)
Lemma lor_tag (t x k : Z) :
  0 <= k -> 0 <= x < 2 ^ k -> Z.land t (Z.ones k) = 0 -> Z.lor t x = t + x.
Proof.
  intros Hk Hx Ht.
  assert (Hl : Z.land t x = 0).
  { rewrite <- (Z.mod_small x (2 ^ k)) by lia.
    rewrite <- Z.land_ones by lia.
    rewrite (Z.land_comm x), Z.land_assoc, Ht. apply Z.land_0_l. }
  pose proof (Z.add_lor_land t x) as H. lia.
Qed.

Lemma encode_char_arith (c : Z) :
  encode_char c
  = if c <? 0 then None
    else if c <? 128 then Some [c]
    else if c <? 2048 then Some (utf8_2 c)
    else if c <? 65536 then
      if (55296 <=? c) && (c <=? 57343) then None else Some (utf8_3 c)
    else if c <? 1114112 then Some (utf8_4 c)
    else None.
Proof.
  unfold encode_char, utf8_2, utf8_3, utf8_4.
  destruct (Z.ltb_spec c 0); [reflexivity|].
  destruct (Z.ltb_spec c 128); [reflexivity|].
  change 63 with (Z.ones 6).
  rewrite !Z.land_ones, !Z.shiftr_div_pow2 by lia.
  change (2 ^ 6) with 64. change (2 ^ 12) with 4096.
  change (2 ^ 18) with 262144.
  destruct (Z.ltb_spec c 2048).
  { rewrite (lor_tag 192 (c / 64) 5), (lor_tag 128 (c mod 64) 6);
      try reflexivity; try lia; Z.div_mod_to_equations; lia. }
  destruct (Z.ltb_spec c 65536).
  { destruct ((55296 <=? c) && (c <=? 57343)); [reflexivity|].
    rewrite (lor_tag 224 (c / 4096) 4), (lor_tag 128 ((c / 64) mod 64) 6),
      (lor_tag 128 (c mod 64) 6);
      try reflexivity; try lia; Z.div_mod_to_equations; lia. }
  destruct (Z.ltb_spec c 1114112); [|reflexivity].
  rewrite (lor_tag 240 (c / 262144) 3), (lor_tag 128 ((c / 4096) mod 64) 6),
    (lor_tag 128 ((c / 64) mod 64) 6), (lor_tag 128 (c mod 64) 6);
    try reflexivity; try lia; Z.div_mod_to_equations; lia.
Qed.

Lemma encode_char_shape (c : Z) (b : list Z) :
  encode_char c = Some b ->
  (0 <= c < 128 /\ b = [c])
  \/ (128 <= c < 2048 /\ b = utf8_2 c)
  \/ (2048 <= c < 65536 /\ b = utf8_3 c)
  \/ (65536 <= c < 1114112 /\ b = utf8_4 c).
Proof.
  rewrite encode_char_arith.
  destruct (Z.ltb_spec c 0); [discriminate|].
  destruct (Z.ltb_spec c 128); [intros [= <-]; left; split; [lia|reflexivity]|].
  destruct (Z.ltb_spec c 2048);
    [intros [= <-]; right; left; split; [lia|reflexivity]|].
  destruct (Z.ltb_spec c 65536).
  { destruct ((55296 <=? c) && (c <=? 57343)); [discriminate|].
    intros [= <-]. right; right; left. split; [lia|reflexivity]. }
  destruct (Z.ltb_spec c 1114112); [|discriminate].
  intros [= <-]. right; right; right. split; [lia|reflexivity].
Qed.

(** No encoding of a code point is a prefix of the encoding of another. *)
Lemma encode_char_prefix_free (c c' : Z) (b b' r r' : list Z) :
  encode_char c = Some b -> encode_char c' = Some b' ->
  b ++ r = b' ++ r' -> c = c' /\ r = r'.
Proof.
  intros Hc Hc' E.
  apply encode_char_shape in Hc, Hc'.
  assert (Hcons : forall (x y : Z) (l l' : list Z),
             x :: l = y :: l' -> x = y /\ l = l')
    by (intros x y l l' [= -> ->]; split; reflexivity).
  destruct Hc as [[R ->]|[[R ->]|[[R ->]|[R ->]]]],
           Hc' as [[R' ->]|[[R' ->]|[[R' ->]|[R' ->]]]];
    unfold utf8_2, utf8_3, utf8_4 in E; cbn [app] in E;
    repeat match goal with
           | H : _ :: _ = _ :: _ |- _ =>
               apply Hcons in H; destruct H as [? H]
           end;
    try (exfalso; Z.div_mod_to_equations; lia);
    (split; [Z.div_mod_to_equations; lia | assumption]).
Qed.

(** UTF-8 is injective: two strings that encode to the same bytes are the
    same string. *)
Lemma encode_inj (s : str) :
  forall s' bs, encode s = Some bs -> encode s' = Some bs -> s = s'.
Proof.
  induction s as [|c s IH]; intros [|c' s'] bs; cbn [encode].
  - reflexivity.
  - intros [= <-].
    destruct (encode_char c') as [b'|] eqn:Ec'; [|discriminate].
    destruct (encode s') as [bs'|]; [|discriminate].
    intros [= E]. apply encode_char_shape in Ec'.
    destruct Ec' as [[_ ->]|[[_ ->]|[[_ ->]|[_ ->]]]]; discriminate E.
  - destruct (encode_char c) as [b|] eqn:Ec; [|discriminate].
    destruct (encode s) as [bs0|]; [|discriminate].
    intros [= <-] [= E]. apply encode_char_shape in Ec.
    destruct Ec as [[_ ->]|[[_ ->]|[[_ ->]|[_ ->]]]]; discriminate E.
  - destruct (encode_char c) as [b|] eqn:Ec; [|discriminate].
    destruct (encode s) as [bs0|] eqn:Es; [|discriminate].
    destruct (encode_char c') as [b'|] eqn:Ec'; [|discriminate].
    destruct (encode s') as [bs0'|] eqn:Es'; [|discriminate].
    intros [= <-] [= E].
    destruct (encode_char_prefix_free c' c b' b bs0' bs0 Ec' Ec E)
      as [-> ->].
    f_equal. now apply (IH s' bs0).
Qed.

End StrFacts.

(** *** Identity assigner *)

Lemma words_over_complete (alphabet : list char) (s : str) :
  Forall (fun c => In c alphabet) s -> In s (words_over alphabet (length s)).
Proof.
  induction 1 as [|c s Hc _ IH]; simpl; [now left|].
  apply in_flat_map. exists c. split; [exact Hc|].
  now apply in_map.
Qed.

Lemma no_injection_into_list {A : Type} (g : nat -> A) (l : list A) :
  (forall n, In (g n) l) -> ~ (forall m n, g m = g n -> m = n).
Proof.
  intros Hin Hinj.
  assert (Hnd : NoDup (map g (seq 0 (S (length l))))).
  { apply Injective_map_NoDup; [exact Hinj | apply seq_NoDup]. }
  apply NoDup_incl_length with (l' := l) in Hnd.
  - rewrite length_map, length_seq in Hnd. lia.
  - intros x Hx. apply in_map_iff in Hx as (n & <- & _). apply Hin.
Qed.

Lemma le_bytes_length (k : nat) (x : Z) : length (MD5.le_bytes k x) = k.
Proof. revert x. induction k; simpl; intros; [reflexivity | now rewrite IHk]. Qed.

Lemma digest_length (msg : list Z) : length (MD5.digest msg) = 16%nat.
Proof.
  unfold MD5.digest.
  destruct (MD5.blocks _ _ _) as [a b c d].
  now rewrite !length_app, !le_bytes_length.
Qed.

Lemma hex_digit_in (x : Z) :
  In (nth (Z.to_nat (x mod 16)) MD5.hexdigits 0) MD5.hexdigits.
Proof.
  apply nth_In.
  change (length MD5.hexdigits) with 16%nat.
  pose proof (Z.mod_pos_bound x 16). lia.
Qed.

Lemma hex_bytes_shape (bs : list Z) :
  length (flat_map MD5.hex_byte bs) = (2 * length bs)%nat
  /\ Forall (fun c => In c MD5.hexdigits) (flat_map MD5.hex_byte bs).
Proof.
  induction bs as [|b bs [IHl IHf]]; [split; [reflexivity | constructor]|].
  split.
  - cbn [flat_map MD5.hex_byte length app]. rewrite IHl. lia.
  - cbn [flat_map MD5.hex_byte app].
    constructor; [apply hex_digit_in|].
    constructor; [apply hex_digit_in | exact IHf].
Qed.

(** A digest is one of the finitely many strings of 32 hexadecimal digits. *)
Lemma hexdigest_in (msg : list Z) :
  In (MD5.hexdigest msg) (words_over MD5.hexdigits 32).
Proof.
  destruct (hex_bytes_shape (MD5.digest msg)) as [Hl Hf].
  rewrite digest_length in Hl.
  change (2 * 16)%nat with 32%nat in Hl.
  unfold MD5.hexdigest. rewrite <- Hl.
  now apply words_over_complete.
Qed.

Lemma repeat_app_inj (c : char) (m n : nat) (t : str) :
  repeat c m ++ t = repeat c n ++ t -> m = n.
Proof.
  intros H. apply (f_equal (@length _)) in H.
  rewrite !length_app, !repeat_length in H. lia.
Qed.

Lemma ascii_of_int_0 : Forall (fun c => 0 <= c < 128) (of_int 0).
Proof. vm_compute. repeat constructor; discriminate. Qed.

Lemma ascii_repeat_a (n : nat) : Forall (fun c => 0 <= c < 128) (repeat 97 n).
Proof. induction n; simpl; constructor; [lia | assumption]. Qed.

Lemma html_id_of_length_in (n : nat) :
  In (html_id_of_length n) (map Some (words_over MD5.hexdigits 32)).
Proof.
  unfold html_id_of_length, generate_chunk_id.
  rewrite encode_ascii.
  - cbn [option_map]. apply in_map, hexdigest_in.
  - unfold unique_string.
    repeat (apply Forall_app; split);
      try apply ascii_repeat_a; try apply ascii_of_int_0;
      repeat constructor; discriminate.
Qed.

Lemma pdf_id_of_length_in (n : nat) :
  In (pdf_id_of_length n) (map Some (words_over MD5.hexdigits 32)).
Proof.
  unfold pdf_id_of_length, pdf_chunk_id.
  rewrite encode_ascii.
  - cbn [option_map]. apply in_map, hexdigest_in.
  - unfold pdf_unique_string.
    repeat (apply Forall_app; split);
      try apply ascii_repeat_a; try apply ascii_of_int_0;
      repeat constructor; discriminate.
Qed.

(** C1, as stated, fails: an id is one of [16 ^ 32] strings, so among the
    files [a.html], [aa.html], ... of one scope two have the id of their
    first chunk in common, and likewise among [a.pdf], [aa.pdf], ...;
    only the file name differs between them. *)
Lemma chunk_ids_cannot_always_differ :
  ~ html_ids_always_differ /\ ~ pdf_ids_always_differ.
Proof.
  split; intros Hclaim.
  - apply (no_injection_into_list html_id_of_length _ html_id_of_length_in).
    intros m n E.
    destruct (Nat.eq_dec m n) as [|Hmn]; [assumption|exfalso].
    apply (Hclaim (py "texas") (repeat 97 m ++ py ".html") 0
                  (py "texas") (repeat 97 n ++ py ".html") 0); [|exact E].
    right; left. repeat split.
    intros H. now apply repeat_app_inj in H.
  - apply (no_injection_into_list pdf_id_of_length _ pdf_id_of_length_in).
    intros m n E.
    destruct (Nat.eq_dec m n) as [|Hmn]; [assumption|exfalso].
    apply (Hclaim (repeat 97 m ++ py ".pdf") 0 (repeat 97 n ++ py ".pdf") 0);
      [|exact E].
    left. split; [|reflexivity].
    intros H. now apply repeat_app_inj in H.
Qed.

(** Changing exactly one input changes the string that is formatted. *)
Lemma unique_string_one_input (s f : str) (i : Z) (s' f' : str) (i' : Z) :
  one_input_changed s f i s' f' i' ->
  unique_string s f i <> unique_string s' f' i'.
Proof.
  unfold unique_string.
  intros [(Hs & <- & <-)|[(<- & Hf & <-)|(<- & <- & Hi)]] E.
  - apply app_inv_tail in E. contradiction.
  - apply app_inv_head in E. apply app_inv_head in E.
    apply app_inv_tail in E. contradiction.
  - repeat apply app_inv_head in E. apply of_int_inj in E. contradiction.
Qed.

Lemma pdf_unique_string_one_input (f : str) (i : Z) (f' : str) (i' : Z) :
  (f <> f' /\ i = i') \/ (f = f' /\ i <> i') ->
  pdf_unique_string f i <> pdf_unique_string f' i'.
Proof.
  unfold pdf_unique_string. intros [(Hf & <-)|(<- & Hi)] E.
  - apply app_inv_tail in E. contradiction.
  - repeat apply app_inv_head in E. apply of_int_inj in E. contradiction.
Qed.

(** C1, amended: the id is a function of the triple (equal inputs give equal
    ids), and changing exactly one input changes the bytes that are hashed,
    in both pipelines; the ids then differ unless MD5 collides on the two
    byte strings. *)
Theorem chunk_id_deterministic_and_hashed_bytes_injective :
  (forall s f i s' f' i',
      s = s' -> f = f' -> i = i' ->
      generate_chunk_id s f i = generate_chunk_id s' f' i'
      /\ pdf_chunk_id f i = pdf_chunk_id f' i')
  /\ (forall s f i s' f' i' bs bs',
         one_input_changed s f i s' f' i' ->
         encode (unique_string s f i) = Some bs ->
         encode (unique_string s' f' i') = Some bs' ->
         bs <> bs'
         /\ generate_chunk_id s f i = Some (MD5.hexdigest bs)
         /\ generate_chunk_id s' f' i' = Some (MD5.hexdigest bs'))
  /\ (forall f i f' i' bs bs',
         (f <> f' /\ i = i') \/ (f = f' /\ i <> i') ->
         encode (pdf_unique_string f i) = Some bs ->
         encode (pdf_unique_string f' i') = Some bs' ->
         bs <> bs'
         /\ pdf_chunk_id f i = Some (MD5.hexdigest bs)
         /\ pdf_chunk_id f' i' = Some (MD5.hexdigest bs')).
Proof.
  split; [|split].
  - intros; subst; split; reflexivity.
  - intros s f i s' f' i' bs bs' H E E'.
    unfold generate_chunk_id. rewrite E, E'.
    split; [|split; reflexivity].
    intros <-. apply (unique_string_one_input _ _ _ _ _ _ H).
    exact (encode_inj _ _ _ E E').
  - intros f i f' i' bs bs' H E E'.
    unfold pdf_chunk_id. rewrite E, E'.
    split; [|split; reflexivity].
    intros <-. apply (pdf_unique_string_one_input _ _ _ _ H).
    exact (encode_inj _ _ _ E E').
Qed.

Lemma chunk_id_deterministic_and_hashed_bytes_injective_witness :
  (generate_chunk_id (py "texas") (py "case.html") 3
   = generate_chunk_id (py "texas") (py "case.html") 3
   /\ pdf_chunk_id (py "case.html") 3 = pdf_chunk_id (py "case.html") 3)
  /\ py "texas_case.html_3" <> py "texas_case.html_4"
  /\ py "law.pdf_3" <> py "act.pdf_3".
Proof.
  destruct chunk_id_deterministic_and_hashed_bytes_injective as (D & H & P).
  split; [|split].
  - apply D; reflexivity.
  - apply (H (py "texas") (py "case.html") 3 (py "texas") (py "case.html") 4).
    + right; right. repeat split. lia.
    + reflexivity.
    + reflexivity.
  - apply (P (py "law.pdf") 3 (py "act.pdf") 3).
    + left. split; [|reflexivity]. vm_compute. discriminate.
    + reflexivity.
    + reflexivity.
Defined.

(** The PDF id is computed from the name of the file alone: two files of
    the recursive listing that have one name in two folders get the same
    ids. *)
Example pdf_ids_ignore_folder :
  let f1 := {| pf_path := Path (py "laws/title1") (py "act.pdf");
               pf_text := None |} in
  let f2 := {| pf_path := Path (py "laws/title2") (py "act.pdf");
               pf_text := None |} in
  path_str (pf_path f1) <> path_str (pf_path f2)
  /\ pdf_chunk_id (name (pf_path f1)) 0 = pdf_chunk_id (name (pf_path f2)) 0.
Proof. split; [vm_compute; discriminate | reflexivity]. Qed.

(** *** Strings: searching, slicing and stripping *)

Lemma len_nonneg {A : Type} (s : list A) : 0 <= len s.
Proof. unfold len. lia. Qed.

Lemma rfind_scan_range (s sub : str) (lo : Z) (cnt : nat) :
  rfind_scan s sub lo cnt = -1
  \/ lo <= rfind_scan s sub lo cnt < lo + Z.of_nat cnt.
Proof.
  induction cnt as [|k IH]; [now left|].
  cbn [rfind_scan].
  destruct (occurs_at s sub (lo + Z.of_nat k)); [right; lia|].
  destruct IH as [->|IH]; [now left | right; lia].
Qed.

(** A match of [rfind] lies, whole, between the bounds. *)
Lemma rfind_range (s sub : str) (lo hi : Z) :
  0 <= lo -> 0 <= hi ->
  rfind s sub lo hi = -1
  \/ (lo <= rfind s sub lo hi
      /\ rfind s sub lo hi + len sub <= Z.min hi (len s)).
Proof.
  intros Hlo Hhi. unfold rfind.
  destruct (Z.ltb_spec lo 0); [lia|].
  destruct (Z.ltb_spec hi 0); [lia|].
  set (hi' := if hi >? len s then len s else hi).
  assert (Hhi' : hi' = Z.min hi (len s)).
  { unfold hi'. destruct (Z.gtb_spec hi (len s)); lia. }
  destruct (rfind_scan_range s sub lo (Z.to_nat (hi' - len sub - lo + 1)))
    as [E|R]; [now left | right].
  lia.
Qed.

Lemma slice_length (s : str) (i j : Z) :
  0 <= i -> 0 <= j -> len (slice s i j) <= Z.max 0 (j - i).
Proof.
  intros Hi Hj. unfold slice, adjust, len.
  rewrite length_firstn, length_skipn.
  destruct (Z.ltb_spec i 0); [lia|].
  destruct (Z.ltb_spec j 0); lia.
Qed.

Lemma lstrip_length (s : str) : (length (lstrip s) <= length s)%nat.
Proof.
  induction s as [|c s IH]; simpl; [lia|].
  destruct (isspace c); simpl; lia.
Qed.

Lemma strip_length (s : str) : len (strip s) <= len s.
Proof.
  unfold strip, rstrip, len. rewrite length_rev.
  pose proof (lstrip_length (rev (lstrip s))) as H1.
  rewrite length_rev in H1.
  pose proof (lstrip_length s). lia.
Qed.

Lemma lstrip_idem (s : str) : lstrip (lstrip s) = lstrip s.
Proof.
  induction s as [|c s IH]; simpl; [reflexivity|].
  destruct (isspace c) eqn:E; [exact IH|].
  simpl. now rewrite E.
Qed.

(** [lstrip] removes a prefix. *)
Lemma lstrip_split (s : str) : exists sp, s = sp ++ lstrip s.
Proof.
  induction s as [|c s [sp IH]]; [now exists []|].
  simpl. destruct (isspace c).
  - exists (c :: sp). simpl. now f_equal.
  - now exists [].
Qed.

Lemma lstrip_fixed (s : str) :
  match s with [] => True | c :: _ => isspace c = false end ->
  lstrip s = s.
Proof. destruct s as [|c s]; simpl; [reflexivity|]. now intros ->. Qed.

Lemma lstrip_head (s : str) :
  match lstrip s with [] => True | c :: _ => isspace c = false end.
Proof.
  induction s as [|c s IH]; simpl; [exact I|].
  destruct (isspace c) eqn:E; [exact IH | exact E].
Qed.

(** Stripping a stripped string changes nothing: the length of a chunk is
    its trimmed length. *)
Lemma strip_idem (s : str) : strip (strip s) = strip s.
Proof.
  unfold strip, rstrip.
  set (t := lstrip s).
  set (v := lstrip (rev t)).
  assert (Hl : lstrip (rev v) = rev v).
  { apply lstrip_fixed.
    destruct (lstrip_split (rev t)) as [sp Hsp]. fold v in Hsp.
    apply (f_equal (@rev _)) in Hsp.
    rewrite rev_involutive, rev_app_distr in Hsp.
    pose proof (lstrip_head s) as Ht. fold t in Ht.
    destruct (rev v) as [|c u]; [exact I|].
    rewrite Hsp in Ht. exact Ht. }
  rewrite Hl, rev_involutive. unfold v. now rewrite lstrip_idem.
Qed.

(** *** Chunker: the loop and its trace *)

(** The chunks returned are the chunks of the kept iterations, in order. *)
Lemma chunk_loop_windows (V : variant) (text : str) (cs ov : Z) (fuel : nat) :
  forall start acc,
    chunk_loop V fuel text cs ov start acc
    = option_map (fun ws => acc ++ map w_chunk (filter w_kept ws))
        (windows V fuel text cs ov start).
Proof.
  induction fuel as [|fuel IH]; intros start acc; [reflexivity|].
  cbn [chunk_loop windows].
  destruct (start <? len text); [|cbn; now rewrite app_nil_r].
  rewrite IH.
  destruct (windows V fuel text cs ov _) as [ws|]; [|reflexivity].
  cbn [option_map filter].
  destruct (w_kept (iteration V text cs ov start)); [|reflexivity].
  cbn [map]. now rewrite <- app_assoc.
Qed.

(** Every recorded window is an iteration entered below the end of the
    text. *)
Lemma windows_iterations (V : variant) (text : str) (cs ov : Z) (fuel : nat) :
  forall start ws,
    windows V fuel text cs ov start = Some ws ->
    Forall (fun w => w = iteration V text cs ov (w_start w)
                     /\ w_start w < len text) ws.
Proof.
  induction fuel as [|fuel IH]; intros start ws; [discriminate|].
  cbn [windows].
  destruct (Z.ltb_spec start (len text)) as [Hlt|_];
    [|intros [= <-]; constructor].
  destruct (windows V fuel text cs ov _) as [ws'|] eqn:E; [|discriminate].
  intros [= <-]. constructor; [|now apply (IH _ _ E)].
  split; [reflexivity | exact Hlt].
Qed.

(** A kept chunk is stripped, not empty, and longer than the minimum. *)
Lemma iteration_kept (V : variant) (text : str) (cs ov start : Z) :
  let w := iteration V text cs ov start in
  w_kept w = true ->
  w_chunk w <> [] /\ min_len V < len (w_chunk w)
  /\ strip (w_chunk w) = w_chunk w.
Proof.
  cbn [iteration w_kept w_chunk]. intros H.
  apply andb_prop in H as [Ht Hl].
  split; [|split].
  - intros E. rewrite E in Ht. discriminate.
  - destruct (Z.gtb_spec (len (strip (slice text start
        (if start + cs <? len text
         then snap V text (start + cs) (puncts V) else start + cs))))
      (min_len V)); [lia | discriminate].
  - apply strip_idem.
Qed.

(** Where the [for punct] loop leaves [end]: untouched, or inside the window
    handed to [rfind]. *)
Lemma snap_range (V : variant) (text : str) (e lo hi : Z) (ps : list str) :
  rfind_bounds V e (len text) = (lo, hi) ->
  0 <= lo -> 0 <= hi ->
  snap V text e ps = e
  \/ (lo <= snap V text e ps /\ snap V text e ps <= Z.min hi (len text)).
Proof.
  intros Hb Hlo Hhi.
  induction ps as [|punct ps IH]; [now left|].
  cbn [snap]. rewrite Hb.
  destruct (Z.eqb_spec (rfind text punct lo hi) (-1)) as [|Hne];
    cbn [negb]; [exact IH|].
  right.
  destruct (rfind_range text punct lo hi Hlo Hhi) as [|[H1 H2]];
    [contradiction|].
  pose proof (len_nonneg punct). lia.
Qed.

Lemma html_snap_bounds (text : str) (e : Z) :
  0 <= e < len text ->
  e - 0 <= snap html text e (puncts html) <= Z.min (e + 150) (len text).
Proof.
  intros He.
  destruct (snap_range html text e e (Z.min (e + 150) (len text))
              (puncts html) eq_refl) as [->|H]; lia.
Qed.

Lemma pdf_snap_bounds (text : str) (e : Z) :
  200 <= e < len text ->
  e - 200 <= snap pdf text e (puncts pdf) <= Z.min (e + 200) (len text).
Proof.
  intros He.
  destruct (snap_range pdf text e (e - 200) (e + 200)
              (puncts pdf) eq_refl) as [->|H]; lia.
Qed.

Section Progress.

(** A variant whose snapping moves the tentative end back by at most [back]
    and forward by at most [fwd], run with a chunk size that exceeds the
    overlap by more than [back]. *)
Variable V : variant.
Variables back fwd : Z.
Hypothesis snap_bounds :
  forall text e,
    back <= e < len text ->
    e - back <= snap V text e (puncts V) <= Z.min (e + fwd) (len text).
Variable text : str.
Variables cs ov : Z.
Hypothesis back_nonneg : 0 <= back.
Hypothesis fwd_nonneg : 0 <= fwd.
Hypothesis ov_nonneg : 0 <= ov.
Hypothesis cs_large : back + ov < cs.

Lemma iteration_progress (start : Z) :
  0 <= start < len text ->
  let w := iteration V text cs ov start in
  start < w_next w <= len text
  /\ w_next w <= w_end w
  /\ start < w_end w <= start + cs + fwd
  /\ (w_end w < len text -> w_next w = w_end w - ov)
  /\ (len text <= w_end w -> w_next w = len text).
Proof.
  intros Hs. cbn [iteration w_next w_end].
  destruct (Z.ltb_spec (start + cs) (len text)) as [Hlt|Hge].
  - assert (Hb : back <= start + cs < len text) by lia.
    pose proof (snap_bounds text (start + cs) Hb) as Hsnap.
    destruct (Z.ltb_spec (snap V text (start + cs) (puncts V)) (len text));
      repeat split; lia.
  - destruct (Z.ltb_spec (start + cs) (len text)); [lia|].
    repeat split; lia.
Qed.

(** The loop returns once the fuel exceeds the distance to the end. *)
Lemma windows_total (fuel : nat) :
  forall start,
    0 <= start -> (Z.to_nat (len text - start) < fuel)%nat ->
    exists ws, windows V fuel text cs ov start = Some ws.
Proof.
  induction fuel as [|fuel IH]; intros start H0 Hf; [lia|].
  cbn [windows].
  destruct (Z.ltb_spec start (len text)) as [Hlt|_]; [|now eexists].
  destruct (iteration_progress start (conj H0 Hlt)) as (Hn & _).
  destruct (IH (w_next (iteration V text cs ov start))) as [ws E];
    [lia | lia |].
  rewrite E. now eexists.
Qed.

(** The trace: cursors are not negative, each iteration leaves the cursor
    strictly further, and the windows cover the text from the first
    cursor on. *)
Lemma windows_trace (fuel : nat) :
  forall start ws,
    0 <= start ->
    windows V fuel text cs ov start = Some ws ->
    Forall (fun w => start <= w_start w /\ w_start w < w_next w
                     /\ w_start w < w_end w <= w_start w + cs + fwd) ws
    /\ (forall i, start <= i < len text -> Exists (fun w => covers w i) ws).
Proof.
  induction fuel as [|fuel IH]; intros start ws H0; [discriminate|].
  cbn [windows].
  destruct (Z.ltb_spec start (len text)) as [Hlt|Hge].
  - destruct (windows V fuel text cs ov _) as [ws'|] eqn:E; [|discriminate].
    intros [= <-].
    destruct (iteration_progress start (conj H0 Hlt))
      as (Hn & Hne & He & Hlt' & Hge').
    set (w := iteration V text cs ov start) in *.
    assert (Hws : w_start w = start) by reflexivity.
    assert (Hnn : 0 <= w_next w) by lia.
    destruct (IH _ _ Hnn E) as [Hall Hcov].
    split.
    + constructor; [rewrite Hws; lia|].
      eapply Forall_impl; [|exact Hall].
      cbn beta. intros w' (H1 & H2 & H3). repeat split; lia.
    + intros i Hi.
      destruct (Z.lt_ge_cases i (w_end w)) as [Hin|Hout].
      * apply Exists_cons_hd. unfold covers. rewrite Hws. lia.
      * apply Exists_cons_tl. apply Hcov. lia.
  - intros [= <-]. split; [constructor|]. intros i Hi. lia.
Qed.

End Progress.

(** [chunk_text] in terms of the trace of its loop. *)
Lemma chunk_text_windows (V : variant) (fuel : nat) (text : str) (cs ov : Z) :
  chunk_text V (S fuel) text cs ov
  = option_map (fun ws => map w_chunk (filter w_kept ws))
      (windows V (S fuel) text cs ov 0).
Proof.
  unfold chunk_text. destruct text as [|c text]; [reflexivity|].
  cbn [truthy negb orb]. unfold len at 1. cbn [length].
  destruct (Z.eqb_spec (Z.of_nat (S (length text))) 0); [lia|].
  apply chunk_loop_windows.
Qed.

Lemma chunk_text_kept (V : variant) (fuel : nat) (text : str) (cs ov : Z)
    (chunks : list str) :
  chunk_text V fuel text cs ov = Some chunks ->
  chunks = []
  \/ exists ws, windows V fuel text cs ov 0 = Some ws
                /\ chunks = map w_chunk (filter w_kept ws).
Proof.
  destruct fuel as [|fuel].
  - unfold chunk_text. destruct (_ || _); [intros [= <-]; now left|].
    discriminate.
  - rewrite chunk_text_windows.
    destruct (windows V (S fuel) text cs ov 0) as [ws|]; [|discriminate].
    intros [= <-]. right. now exists ws.
Qed.

Lemma Forall_kept_chunks (P : str -> Prop) (ws : list window) :
  Forall (fun w => w_kept w = true -> P (w_chunk w)) ws ->
  Forall P (map w_chunk (filter w_kept ws)).
Proof.
  induction 1 as [|w ws Hw _ IH]; [constructor|].
  cbn [filter]. destruct (w_kept w); [|exact IH].
  constructor; [now apply Hw | exact IH].
Qed.

(** The minimum-length invariant, for any variant and any parameters. *)
Lemma chunk_text_min_len (V : variant) (fuel : nat) (text : str) (cs ov : Z)
    (chunks : list str) :
  chunk_text V fuel text cs ov = Some chunks ->
  Forall (fun c => c <> [] /\ min_len V < len (strip c)) chunks.
Proof.
  intros H. apply chunk_text_kept in H as [->|(ws & Hws & ->)]; [constructor|].
  apply Forall_kept_chunks.
  apply windows_iterations in Hws.
  eapply Forall_impl; [|exact Hws].
  cbn beta. intros w [Hw _] Hk. rewrite Hw in Hk |- *.
  destruct (iteration_kept V text cs ov (w_start w) Hk) as (H1 & H2 & H3).
  rewrite H3. now split.
Qed.

(** C5: no returned chunk is empty, and none has trimmed length at most the
    threshold of its variant: 50 for HTML, 100 for PDF. *)
Theorem chunk_text_minimum_length :
  forall (fuel : nat) (text : str) (chunk_size overlap : Z)
         (chunks : list str),
    (chunk_text html fuel text chunk_size overlap = Some chunks ->
     Forall (fun c => c <> [] /\ 50 < len (strip c)) chunks)
    /\ (chunk_text pdf fuel text chunk_size overlap = Some chunks ->
        Forall (fun c => c <> [] /\ 100 < len (strip c)) chunks).
Proof.
  intros. split; intros H.
  - exact (chunk_text_min_len html _ _ _ _ _ H).
  - exact (chunk_text_min_len pdf _ _ _ _ _ H).
Qed.

Lemma chunk_text_minimum_length_witness :
  chunk_text html 4 gap_text 1000 200 = Some [repeat 97 100; repeat 98 100]
  /\ Forall (fun c => c <> [] /\ 50 < len (strip c))
       [repeat 97 100; repeat 98 100].
Proof.
  assert (H : chunk_text html 4 gap_text 1000 200
              = Some [repeat 97 100; repeat 98 100])
    by (vm_compute; reflexivity).
  split; [exact H|].
  exact (proj1 (chunk_text_minimum_length 4 gap_text 1000 200 _) H).
Defined.

(** A match of [rfind] ends at or before the adjusted upper bound, whatever
    the bounds. *)
Lemma rfind_upper (s sub : str) (lo hi : Z) :
  rfind s sub lo hi = -1
  \/ (0 <= rfind s sub lo hi
      /\ rfind s sub lo hi + len sub <= adjust_hi hi (len s)).
Proof.
  unfold rfind. fold (adjust_hi hi (len s)).
  set (lo' := if lo <? 0 then Z.max (lo + len s) 0 else lo).
  assert (Hlo : 0 <= lo') by (unfold lo'; destruct (Z.ltb_spec lo 0); lia).
  destruct (rfind_scan_range s sub lo'
              (Z.to_nat (adjust_hi hi (len s) - len sub - lo' + 1)))
    as [E|R]; [now left | right]. lia.
Qed.

Lemma snap_upper (V : variant) (text : str) (e : Z) (ps : list str) :
  snap V text e ps = e
  \/ (0 <= snap V text e ps
      /\ snap V text e ps
         <= adjust_hi (snd (rfind_bounds V e (len text))) (len text)).
Proof.
  induction ps as [|punct ps IH]; [now left|].
  cbn [snap]. destruct (rfind_bounds V e (len text)) as [lo hi] eqn:Eb.
  cbn [snd] in *.
  destruct (Z.eqb_spec (rfind text punct lo hi) (-1)) as [|Hne];
    cbn [negb]; [exact IH|].
  right. destruct (rfind_upper text punct lo hi) as [|[H1 H2]];
    [contradiction|].
  pose proof (len_nonneg punct). lia.
Qed.

Lemma slice_length_adjust (s : str) (i j : Z) :
  len (slice s i j) <= Z.max 0 (adjust j (len s) - adjust i (len s)).
Proof.
  unfold slice, len. rewrite length_firstn, length_skipn. lia.
Qed.

(** The chunk of an iteration entered below the end of the text, for a
    variant whose upper search bound lies between the tentative end and [w]
    characters after it. *)
Lemma iteration_chunk_length (V : variant) (w : Z) (text : str)
    (cs ov start : Z) :
  (forall e n, e < n -> e <= snd (rfind_bounds V e n) <= e + w) ->
  0 <= cs -> start < len text ->
  len (w_chunk (iteration V text cs ov start)) <= cs + w.
Proof.
  intros Hb Hcs Hs. cbn [iteration w_chunk].
  assert (Hw : 0 <= w) by (specialize (Hb (-1) 0 ltac:(lia)); lia).
  set (end_ := if start + cs <? len text
               then snap V text (start + cs) (puncts V) else start + cs).
  pose proof (strip_length (slice text start end_)) as H1.
  pose proof (slice_length_adjust text start end_) as H2.
  pose proof (len_nonneg text) as Hn.
  assert (Hend : adjust end_ (len text) - adjust start (len text) <= cs + w).
  { unfold end_.
    destruct (Z.ltb_spec (start + cs) (len text)) as [Hlt|Hge].
    - specialize (Hb (start + cs) (len text) Hlt).
      destruct (snap_upper V text (start + cs) (puncts V)) as [->|[H3 H4]].
      + unfold adjust.
        destruct (Z.ltb_spec (start + cs) 0), (Z.ltb_spec start 0); lia.
      + revert H4. unfold adjust, adjust_hi.
        destruct (Z.ltb_spec (snap V text (start + cs) (puncts V)) 0);
          [lia|].
        destruct (Z.gtb_spec (snd (rfind_bounds V (start + cs) (len text)))
                    (len text)),
                 (Z.ltb_spec (snd (rfind_bounds V (start + cs) (len text))) 0),
                 (Z.ltb_spec start 0); lia.
    - unfold adjust.
      destruct (Z.ltb_spec (start + cs) 0), (Z.ltb_spec start 0); lia. }
  lia.
Qed.

(** The length bound for such a variant, with any overlap. *)
Lemma chunk_text_max_len (V : variant) (w : Z) :
  (forall e n, e < n -> e <= snd (rfind_bounds V e n) <= e + w) ->
  forall (fuel : nat) (text : str) (cs ov : Z) (chunks : list str),
    0 <= cs ->
    chunk_text V fuel text cs ov = Some chunks ->
    Forall (fun c => len c <= cs + w) chunks.
Proof.
  intros Hb fuel text cs ov chunks Hcs H.
  apply chunk_text_kept in H as [->|(ws & Hws & ->)]; [constructor|].
  apply Forall_kept_chunks.
  apply windows_iterations in Hws.
  eapply Forall_impl; [|exact Hws].
  cbn beta. intros x [Hx Hlt] _. rewrite Hx.
  now apply iteration_chunk_length.
Qed.

(** C9: for a chunk size that is not negative and any overlap, no returned
    chunk is longer than the chunk size plus the forward search window: 150
    characters for HTML, 200 for PDF. *)
Theorem chunk_text_maximum_length :
  forall (fuel : nat) (text : str) (chunk_size overlap : Z)
         (chunks : list str),
    0 <= chunk_size ->
    (chunk_text html fuel text chunk_size overlap = Some chunks ->
     Forall (fun c => len c <= chunk_size + 150) chunks)
    /\ (chunk_text pdf fuel text chunk_size overlap = Some chunks ->
        Forall (fun c => len c <= chunk_size + 200) chunks).
Proof.
  intros fuel text cs ov chunks Hcs. split; intros H.
  - apply (chunk_text_max_len html 150) with (fuel := fuel) (text := text)
      (ov := ov); [|assumption|assumption].
    intros e n He. cbn. lia.
  - apply (chunk_text_max_len pdf 200) with (fuel := fuel) (text := text)
      (ov := ov); [|assumption|assumption].
    intros e n He. cbn. lia.
Qed.

Lemma chunk_text_maximum_length_witness :
  0 <= 1000
  /\ chunk_text html 4 gap_text 1000 200 = Some [repeat 97 100; repeat 98 100]
  /\ Forall (fun c => len c <= 1000 + 150) [repeat 97 100; repeat 98 100].
Proof.
  assert (H : chunk_text html 4 gap_text 1000 200
              = Some [repeat 97 100; repeat 98 100])
    by (vm_compute; reflexivity).
  assert (H0 : 0 <= 1000) by lia.
  split; [exact H0|]. split; [exact H|].
  exact (proj1 (chunk_text_maximum_length 4 gap_text 1000 200 _ H0) H).
Defined.

(** Termination and trace of the loop under the progress conditions. *)
Lemma chunk_text_trace (V : variant) (back fwd : Z) :
  (forall text e,
      back <= e < len text ->
      e - back <= snap V text e (puncts V) <= Z.min (e + fwd) (len text)) ->
  forall (text : str) (cs ov : Z) (extra : nat),
    0 <= back -> 0 <= fwd -> 0 <= ov -> back + ov < cs ->
    exists ws,
      windows V (S (length text + extra)) text cs ov 0 = Some ws
      /\ chunk_text V (S (length text + extra)) text cs ov
         = Some (map w_chunk (filter w_kept ws))
      /\ Forall (fun w => w_start w < w_next w) ws
      /\ (forall i, 0 <= i < len text -> Exists (fun w => covers w i) ws).
Proof.
  intros Hsnap text cs ov extra Hb Hf Ho Hc.
  destruct (windows_total V back fwd Hsnap text cs ov Hb Hf Ho Hc
              (S (length text + extra)) 0) as [ws Hws];
    [lia | unfold len; lia |].
  exists ws. split; [exact Hws|].
  split; [rewrite chunk_text_windows, Hws; reflexivity|].
  destruct (windows_trace V back fwd Hsnap text cs ov Hb Hf Ho Hc
              _ 0 ws (Z.le_refl 0) Hws) as [Htr Hcov].
  split; [|exact Hcov].
  eapply Forall_impl; [|exact Htr]. cbn beta. intros w H. apply H.
Qed.

(** C6: with the parameters of the two pipelines, [chunk_text] returns for
    every text once the fuel exceeds the length of the text, and every
    iteration of its loop leaves the cursor strictly beyond where it found
    it, snapped or not. *)
Theorem chunk_text_terminates :
  forall (text : str) (extra : nat),
    (exists ws,
        windows html (S (length text + extra)) text 1000 200 0 = Some ws
        /\ html_chunk_text (S (length text + extra)) text
           = Some (map w_chunk (filter w_kept ws))
        /\ Forall (fun w => w_start w < w_next w) ws)
    /\ (exists ws,
           windows pdf (S (length text + extra)) text 1500 300 0 = Some ws
           /\ pdf_chunk_text (S (length text + extra)) text
              = Some (map w_chunk (filter w_kept ws))
           /\ Forall (fun w => w_start w < w_next w) ws).
Proof.
  intros text extra. split.
  - destruct (chunk_text_trace html 0 150 html_snap_bounds text 1000 200 extra)
      as (ws & H1 & H2 & H3 & _); try lia.
    exists ws. auto.
  - destruct (chunk_text_trace pdf 200 200 pdf_snap_bounds text 1500 300 extra)
      as (ws & H1 & H2 & H3 & _); try lia.
    exists ws. auto.
Qed.

Example gap_text_windows :
  option_map (map window_summary) (windows html 4 gap_text 1000 200 0)
  = Some [(0, 1000, true, repeat 97 100);
          (800, 1800, false, py "hello");
          (1600, 2600, true, repeat 98 100)].
Proof. vm_compute. reflexivity. Qed.

Example pdf_gap_text_windows :
  option_map (map window_summary) (windows pdf 4 pdf_gap_text 1500 300 0)
  = Some [(0, 1500, true, repeat 97 150);
          (1200, 2700, false, py "hello");
          (2400, 3900, true, repeat 98 150)].
Proof. vm_compute. reflexivity. Qed.

Example gap_text_hello :
  slice gap_text 1200 1205 = py "hello"
  /\ slice pdf_gap_text 1750 1755 = py "hello".
Proof. vm_compute. split; reflexivity. Qed.

(** Three windows, the middle one dropped, and an offset between the spans
    of the other two. *)
Lemma dropped_window_gap (V : variant) (cs ov : Z) (fuel : nat) (text : str)
    (w1 w2 w3 : window) (i : Z) :
  windows V fuel text cs ov 0 = Some [w1; w2; w3] ->
  w_kept w1 = true -> w_kept w2 = false -> w_kept w3 = true ->
  w_start w1 <= i -> w_end w1 <= i -> i < w_start w3 -> i < w_end w3 ->
  i < len text ->
  ~ kept_spans_cover V cs ov.
Proof.
  intros E K1 K2 K3 H1 H2 H3 H4 H5 H.
  specialize (H fuel text _ E w1 w3 i).
  cbn [filter] in H. rewrite K1, K2, K3 in H.
  destruct H as (w & [<-|[<-|[]]] & Hc);
    try (now left); try (now right; left); unfold covers in *; lia.
Qed.

(** C4, as stated, fails: the second of the three windows of [gap_text],
    which holds [hello] between two runs of spaces, is dropped for being
    short, and the [h] at offset 1200 lies in neither of the two returned
    chunks' spans, [0, 1000) and [1600, 2600); likewise for the PDF
    parameters at offset 1750. *)
Lemma kept_spans_leave_gap :
  ~ kept_spans_cover html 1000 200 /\ ~ kept_spans_cover pdf 1500 300.
Proof.
  split.
  - apply (dropped_window_gap html 1000 200 4 gap_text
             (iteration html gap_text 1000 200 0)
             (iteration html gap_text 1000 200 800)
             (iteration html gap_text 1000 200 1600) 1200);
      vm_compute; first [reflexivity | discriminate].
  - apply (dropped_window_gap pdf 1500 300 4 pdf_gap_text
             (iteration pdf pdf_gap_text 1500 300 0)
             (iteration pdf pdf_gap_text 1500 300 1200)
             (iteration pdf pdf_gap_text 1500 300 2400) 1750);
      vm_compute; first [reflexivity | discriminate].
Qed.

Lemma filter_all {A : Type} (f : A -> bool) (l : list A) :
  forallb f l = true -> filter f l = l.
Proof.
  induction l as [|x l IH]; [reflexivity|].
  cbn [forallb filter]. intros H. apply andb_prop in H as [Hx Hl].
  rewrite Hx. f_equal. auto.
Qed.

(** C4, amended: with the parameters of the two pipelines, the windows
    extracted by the loop, kept or dropped, cover every offset of the text;
    the returned chunks are those of the kept windows, so their spans cover
    the text when no window is dropped. *)
Theorem windows_cover_text :
  forall (text : str) (extra : nat),
    (exists ws,
        windows html (S (length text + extra)) text 1000 200 0 = Some ws
        /\ html_chunk_text (S (length text + extra)) text
           = Some (map w_chunk (filter w_kept ws))
        /\ (forall i, 0 <= i < len text -> Exists (fun w => covers w i) ws)
        /\ (forallb w_kept ws = true -> filter w_kept ws = ws))
    /\ (exists ws,
           windows pdf (S (length text + extra)) text 1500 300 0 = Some ws
           /\ pdf_chunk_text (S (length text + extra)) text
              = Some (map w_chunk (filter w_kept ws))
           /\ (forall i, 0 <= i < len text -> Exists (fun w => covers w i) ws)
           /\ (forallb w_kept ws = true -> filter w_kept ws = ws)).
Proof.
  intros text extra. split.
  - destruct (chunk_text_trace html 0 150 html_snap_bounds text 1000 200 extra)
      as (ws & H1 & H2 & _ & H4); try lia.
    exists ws. repeat split; auto using filter_all.
  - destruct (chunk_text_trace pdf 200 200 pdf_snap_bounds text 1500 300 extra)
      as (ws & H1 & H2 & _ & H4); try lia.
    exists ws. repeat split; auto using filter_all.
Qed.

(** *** The boundary-snapping example *)

(** C2, as stated, fails: the only period followed by a space is at offset
    20, before the tentative end 30, and the search runs forward from the
    tentative end, so the first window is cut at offset 30, with the window
    of 150 characters of the code and with one of 20. *)
Lemma first_window_not_snapped :
  ~ first_window_snaps_back html /\ ~ first_window_snaps_back html_window_20.
Proof.
  split; intros [overlap H]; vm_compute in H; discriminate H.
Qed.

(** C2, amended: on the example text with chunk size 30, the first window of
    the HTML chunker ends at the raw offset 30, it is
    [Clause one ends here. Clause t], and it is dropped for not exceeding 50
    characters; the PDF chunker, which also searches backwards, ends its
    first window after [Clause one ends here. ], and drops it too. *)
Theorem clause_example_first_window :
  forall overlap : Z,
    (let w := iteration html clause_text 30 overlap 0 in
     w_end w = 30
     /\ slice clause_text 0 (w_end w) = py "Clause one ends here. Clause t"
     /\ w_kept w = false)
    /\ w_end (iteration html_window_20 clause_text 30 overlap 0) = 30
    /\ (let w := iteration pdf clause_text 30 overlap 0 in
        slice clause_text 0 (w_end w) = py "Clause one ends here. "
        /\ w_kept w = false).
Proof.
  intros overlap. vm_compute. repeat split; reflexivity.
Qed.

(** With chunk size 30 no window of the example exceeds 50 characters, and
    nothing is returned. *)
Example clause_example_no_chunk :
  chunk_text html 30 clause_text 30 5 = Some [].
Proof. vm_compute. reflexivity. Qed.

(** The example again, with the default overlap of 200 characters, which
    exceeds the chunk size 30: the cursor becomes negative after the first
    iteration and decreases from then on, so the loop never ends. *)
Lemma chunk_loop_unroll (V : variant) (fuel : nat) (text : str)
    (cs ov start : Z) (acc : list str) :
  start < len text ->
  chunk_loop V (S fuel) text cs ov start acc
  = chunk_loop V fuel text cs ov (w_next (iteration V text cs ov start))
      (if w_kept (iteration V text cs ov start)
       then acc ++ [w_chunk (iteration V text cs ov start)] else acc).
Proof.
  intros H. cbn [chunk_loop].
  destruct (Z.ltb_spec start (len text)); [reflexivity | lia].
Qed.

Lemma clause_snap_far_left (e : Z) :
  e <= -310 -> snap html clause_text e (puncts html) = e.
Proof.
  intros He.
  assert (Hnone : forall punct,
             len punct = 2 ->
             rfind clause_text punct e (Z.min (e + 150) 119) = -1).
  { intros punct Hp.
    destruct (rfind_upper clause_text punct e (Z.min (e + 150) 119))
      as [E|[H1 H2]]; [exact E|exfalso].
    revert H2. change (len clause_text) with 119. unfold adjust_hi.
    destruct (Z.gtb_spec (Z.min (e + 150) 119) 119); [lia|].
    destruct (Z.ltb_spec (Z.min (e + 150) 119) 0); lia. }
  cbn [snap puncts html rfind_bounds].
  change (len clause_text) with 119.
  rewrite !Hnone by reflexivity. reflexivity.
Qed.

Lemma clause_loop_far_left (fuel : nat) :
  forall start acc,
    start <= -340 -> chunk_loop html fuel clause_text 30 200 start acc = None.
Proof.
  induction fuel as [|fuel IH]; intros start acc Hs; [reflexivity|].
  rewrite chunk_loop_unroll by (change (len clause_text) with 119; lia).
  apply IH. cbn [iteration w_next].
  change (len clause_text) with 119.
  destruct (Z.ltb_spec (start + 30) 119); [|lia].
  rewrite clause_snap_far_left by lia.
  destruct (Z.ltb_spec (start + 30) 119); lia.
Qed.

Lemma clause_example_default_overlap_diverges :
  forall fuel, chunk_text html fuel clause_text 30 200 = None.
Proof.
  intros fuel.
  assert (E1 : w_next (iteration html clause_text 30 200 0) = -170)
    by (vm_compute; reflexivity).
  assert (E2 : w_next (iteration html clause_text 30 200 (-170)) = -340)
    by (vm_compute; reflexivity).
  destruct fuel as [|[|fuel]];
    [vm_compute; reflexivity | vm_compute; reflexivity |].
  unfold chunk_text.
  change (negb (truthy clause_text) || (len clause_text =? 0)) with false.
  cbv iota.
  rewrite chunk_loop_unroll by (change (len clause_text) with 119; lia).
  rewrite E1.
  rewrite chunk_loop_unroll by (change (len clause_text) with 119; lia).
  rewrite E2.
  apply clause_loop_far_left. lia.
Qed.

(** *** HTML extractor: the title *)

Lemma slice_prefix_length (s : str) (j : Z) :
  0 <= j <= len s -> len (slice s 0 j) = j.
Proof.
  intros Hj. unfold slice, adjust, len in *.
  rewrite length_firstn, length_skipn.
  destruct (Z.ltb_spec 0 0); [lia|].
  destruct (Z.ltb_spec j 0); lia.
Qed.

(** The stem of a name that is not empty is not empty. *)
Lemma stem_nonempty (p : path) : name p <> [] -> stem p <> [].
Proof.
  intros Hn. unfold stem.
  destruct (Z.ltb_spec 0 (rfind (name p) (py ".") 0 (len (name p))));
    cbn [andb]; [|exact Hn].
  destruct (Z.ltb_spec (rfind (name p) (py ".") 0 (len (name p)))
              (len (name p) - 1)); [|exact Hn].
  intros E.
  pose proof (slice_prefix_length (name p)
                (rfind (name p) (py ".") 0 (len (name p)))
                ltac:(lia)) as Hl.
  rewrite E in Hl. unfold len at 1 in Hl. cbn [length] in Hl. lia.
Qed.

(** C3, as stated, fails: when the title element is there and has no text,
    the title returned is the empty string, not the stem of the file
    name. *)
Lemma empty_title_element_gives_empty_title :
  ~ title_always_populated
  /\ option_map x_title (extract_text_from_html empty_title_file) = Some []
  /\ option_map x_title (extract_text_from_html blank_title_file) = Some []
  /\ stem (hf_path empty_title_file) = py "smith_v_jones".
Proof.
  split; [|vm_compute; repeat split; reflexivity].
  intros H.
  apply (H empty_title_file
           {| x_text := py "Opinion of the court.";
              x_title := [];
              x_file_path := py "texas/smith_v_jones.html";
              x_file_name := py "smith_v_jones.html" |});
    vm_compute; reflexivity.
Qed.

(** C3, amended: for a file that can be read, the title returned is the
    stripped text of the title element when there is one, which is empty
    when that element has no text, and the stem of the file name when there
    is none; the stem is never empty, so the title is populated when the
    document has no title element or one with text. *)
Theorem extract_title_resolution :
  forall (f : html_file) (sp : soup),
    hf_soup f = Some sp ->
    exists x,
      extract_text_from_html f = Some x
      /\ x_title x = match soup_title sp with
                     | Some title => get_text_strip title
                     | None => stem (hf_path f)
                     end
      /\ (name (hf_path f) <> [] ->
          match soup_title sp with
          | Some title => get_text_strip title <> []
          | None => True
          end ->
          x_title x <> []).
Proof.
  intros f sp Hsp. unfold extract_text_from_html. rewrite Hsp.
  eexists. split; [reflexivity|]. cbn [x_title].
  split; [reflexivity|].
  intros Hn Ht. destruct (soup_title sp) as [title|]; [exact Ht|].
  now apply stem_nonempty.
Qed.

Lemma extract_title_resolution_witness :
  hf_soup blank_title_file
  = Some {| soup_text := py "Opinion of the court.";
            soup_title := Some (Tag [py " "]) |}
  /\ exists x,
      extract_text_from_html blank_title_file = Some x /\ x_title x = [].
Proof.
  split; [reflexivity|].
  destruct (extract_title_resolution blank_title_file _ eq_refl)
    as (x & Hx & Ht & _).
  exists x. split; [exact Hx | exact Ht].
Defined.

(** *** Batch loader *)

Lemma len_snoc {A : Type} (l : list A) (x : A) : len (l ++ [x]) = len l + 1.
Proof. unfold len. rewrite length_app. cbn [length]. lia. Qed.

Lemma for_files_holds {F A : Type} (P : A -> Prop)
    (body : A -> F -> outcome A) (files : list F) :
  (forall st f, P st -> outcome_holds P (body st f)) ->
  forall st, P st -> outcome_holds P (for_files body st files).
Proof.
  intros Hbody. induction files as [|f files IH]; intros st Hst; [exact Hst|].
  cbn [for_files]. specialize (Hbody st f Hst).
  destruct (body st f) as [st'|st'|]; cbn in *; auto.
Qed.

Section LoaderFacts.

Variable M : Type.
Variable Store : Type.
Variable coll_add : Store -> list str -> list M -> list str -> Store * bool.
Variable bs : Z.
Hypothesis bs_pos : 1 <= bs.

(** Whatever [collection.add] does, the flush in the loop leaves empty
    lists and one more call. *)
Lemma flush_clears (st : loader M Store) :
  flush coll_add st
  = {| documents := []; metadatas := []; ids := [];
       total_chunks := total_chunks st;
       files_processed := files_processed st;
       files_skipped := files_skipped st;
       store := fst (coll_add (store st) (documents st) (metadatas st)
                       (ids st));
       calls := calls st
                ++ [Batch (documents st) (metadatas st) (ids st)] |}.
Proof.
  unfold flush.
  destruct (coll_add (store st) (documents st) (metadatas st) (ids st))
    as [s' []]; reflexivity.
Qed.

Lemma batched_start (s : Store) : batched bs (@start_run M Store s).
Proof.
  unfold batched, start_run, len. cbn. repeat split; try lia. constructor.
Qed.

Lemma batched_skip (st : loader M Store) :
  batched bs st -> batched bs (skip_file st).
Proof. exact (fun H => H). Qed.

Lemma batched_count (st : loader M Store) :
  batched bs st -> batched bs (count_file st).
Proof. exact (fun H => H). Qed.

Lemma batched_add_record (st : loader M Store) (chunk : str) (meta : M)
    (id : str) :
  batched bs st -> batched bs (add_record coll_add bs st chunk meta id).
Proof.
  intros (Hd & Hm & Hi & Hc & Ht). unfold add_record.
  assert (Hlen : len (documents (append_record st chunk meta id))
                 = len (documents st) + 1) by apply len_snoc.
  rewrite Hlen.
  destruct (Z.geb_spec (len (documents st) + 1) bs) as [Hge|Hlt].
  - rewrite flush_clears. unfold batched.
    cbn [documents metadatas ids calls total_chunks append_record].
    rewrite len_snoc.
    assert (Hnil : forall A : Type, len (@nil A) = 0) by reflexivity.
    rewrite !Hnil.
    repeat split; try lia.
    apply Forall_app. split; [exact Hc|].
    constructor; [|constructor].
    unfold batch_of. cbn [b_documents b_metadatas b_ids].
    rewrite !len_snoc. lia.
  - unfold batched.
    cbn [documents metadatas ids calls total_chunks append_record].
    rewrite !len_snoc. repeat split; try lia. exact Hc.
Qed.

Lemma batched_add_chunks (mk : Z -> option (str * M)) (chunks : list str) :
  forall (st : loader M Store) (chunk_idx : Z),
    batched bs st ->
    outcome_holds (batched bs) (add_chunks coll_add mk bs st chunk_idx chunks).
Proof.
  induction chunks as [|chunk rest IH]; intros st idx Hst; [exact Hst|].
  cbn [add_chunks]. destruct (mk idx) as [[id meta]|]; [|exact Hst].
  apply IH. now apply batched_add_record.
Qed.

Lemma records_sent_app (cs cs' : list (batch M)) :
  records_sent (cs ++ cs') = records_sent cs + records_sent cs'.
Proof.
  induction cs as [|b cs IH]; cbn [records_sent app]; [reflexivity|].
  rewrite IH. lia.
Qed.

Lemma records_sent_full (cs : list (batch M)) :
  Forall (batch_of bs) cs -> records_sent cs = bs * len cs.
Proof.
  induction 1 as [|b cs [Hb _] _ IH]; [unfold len; cbn; lia|].
  cbn [records_sent]. rewrite IH, Hb. unfold len. cbn [length]. lia.
Qed.

(** After the final flush every record generated has been sent once. *)
Lemma final_flush_sends_all (st : loader M Store) :
  batched bs st ->
  records_sent (calls (final_flush coll_add st))
  = total_chunks (final_flush coll_add st).
Proof.
  intros (Hd & Hm & Hi & Hc & Ht). unfold final_flush.
  destruct (documents st) as [|d ds] eqn:E; cbn [nonempty].
  - rewrite Ht, (records_sent_full _ Hc). unfold len. cbn [length]. lia.
  - destruct (coll_add (store st) (d :: ds) (metadatas st) (ids st))
      as [s' ok]. cbn [calls total_chunks].
    rewrite records_sent_app, (records_sent_full _ Hc), Ht.
    cbn [records_sent b_documents]. lia.
Qed.

End LoaderFacts.


Lemma process_html_file_batched (Store : Type)
    (coll_add :
       Store -> list str -> list html_metadata -> list str -> Store * bool)
    (bs : Z) (state_name : str) (st : html_loader Store) (f : html_file) :
  1 <= bs ->
  batched bs st ->
  outcome_holds (batched bs)
    (process_html_file Store coll_add bs state_name st f).
Proof.
  intros Hbs Hst. unfold process_html_file.
  destruct (extract_text_from_html f) as [x|]; [|exact Hst].
  destruct (negb (truthy (x_text x))); [exact Hst|].
  destruct (chunk_text html _ _ _ _) as [chunks|]; [|exact I].
  destruct (negb (nonempty chunks)); [exact Hst|].
  now apply batched_add_chunks.
Qed.

Lemma process_pdf_file_batched (Store : Type)
    (coll_add :
       Store -> list str -> list pdf_metadata -> list str -> Store * bool)
    (bs : Z) (st : pdf_loader Store) (f : pdf_file) :
  1 <= bs ->
  batched bs st ->
  outcome_holds (batched bs)
    (process_pdf_file Store coll_add bs st f).
Proof.
  intros Hbs Hst. unfold process_pdf_file.
  destruct (pf_text f) as [text|]; [|exact Hst].
  destruct (negb (truthy text) || (len text <? 100)); [exact Hst|].
  destruct (chunk_text pdf _ _ _ _) as [chunks|]; [|exact I].
  destruct (negb (nonempty chunks)); [exact Hst|].
  now apply batched_add_chunks.
Qed.

(** A run that an exception leaves does not reach the final flush.  When
    computing an id raises, here on a file name that cannot be encoded, the
    exception leaves [process_state_folder] before it: the 51 records
    generated so far have led to one call, and the record left in the lists
    is not sent. *)
Example raised_run_skips_final_flush :
  match process_state_folder Z counting_add ascii_lower
          texas_51_and_unencodable 50 0 with
  | Raised st =>
      total_chunks st = 51
      /\ map (fun b => len (b_ids b)) (calls st) = [50]
      /\ len (documents st) = 1
  | _ => False
  end.
Proof. vm_compute. repeat split; reflexivity. Qed.

(** *** Failure isolation *)

Section Isolation.

Variable M : Type.
Variables S1 S2 : Type.
Variable add1 : S1 -> list str -> list M -> list str -> S1 * bool.
Variable add2 : S2 -> list str -> list M -> list str -> S2 * bool.

Lemma view_inv (a : loader M S1) (b : loader M S2) :
  view a = view b ->
  documents a = documents b /\ metadatas a = metadatas b /\ ids a = ids b
  /\ total_chunks a = total_chunks b
  /\ files_processed a = files_processed b
  /\ files_skipped a = files_skipped b /\ calls a = calls b.
Proof. unfold view. intros [= -> -> -> -> -> -> ->]. repeat split. Qed.

Lemma view_start (s1 : S1) (s2 : S2) :
  view (@start_run M S1 s1) = view (@start_run M S2 s2).
Proof. reflexivity. Qed.

Lemma view_skip (a : loader M S1) (b : loader M S2) :
  view a = view b -> view (skip_file a) = view (skip_file b).
Proof.
  intros H. apply view_inv in H as (H1 & H2 & H3 & H4 & H5 & H6 & H7).
  unfold view, skip_file. cbn. congruence.
Qed.

Lemma view_count (a : loader M S1) (b : loader M S2) :
  view a = view b -> view (count_file a) = view (count_file b).
Proof.
  intros H. apply view_inv in H as (H1 & H2 & H3 & H4 & H5 & H6 & H7).
  unfold view, count_file. cbn. congruence.
Qed.

Lemma view_add_record (bs : Z) (a : loader M S1) (b : loader M S2)
    (chunk : str) (meta : M) (id : str) :
  view a = view b ->
  view (add_record add1 bs a chunk meta id)
  = view (add_record add2 bs b chunk meta id).
Proof.
  intros H. apply view_inv in H as (H1 & H2 & H3 & H4 & H5 & H6 & H7).
  unfold add_record.
  cbn [append_record documents]. rewrite H1.
  destruct (len (documents b ++ [chunk]) >=? bs).
  - rewrite !flush_clears. unfold view. cbn. congruence.
  - unfold view. cbn. congruence.
Qed.

Lemma view_add_chunks (mk : Z -> option (str * M)) (bs : Z)
    (chunks : list str) :
  forall (a : loader M S1) (b : loader M S2) (chunk_idx : Z),
    view a = view b ->
    same_outcome (add_chunks add1 mk bs a chunk_idx chunks)
                 (add_chunks add2 mk bs b chunk_idx chunks).
Proof.
  induction chunks as [|chunk rest IH]; intros a b idx H; [exact H|].
  cbn [add_chunks]. destruct (mk idx) as [[id meta]|]; [|exact H].
  apply IH. now apply view_add_record.
Qed.

Lemma view_final_flush (a : loader M S1) (b : loader M S2) :
  view a = view b ->
  view (final_flush add1 a) = view (final_flush add2 b).
Proof.
  intros H. pose proof H as H'.
  apply view_inv in H' as (H1 & H2 & H3 & H4 & H5 & H6 & H7).
  unfold final_flush. rewrite H1.
  destruct (nonempty (documents b)); [|exact H].
  destruct (add1 _ _ _ _) as [s1 ok1], (add2 _ _ _ _) as [s2 ok2].
  unfold view. cbn. congruence.
Qed.

Lemma view_for_files {F : Type}
    (body1 : loader M S1 -> F -> outcome (loader M S1))
    (body2 : loader M S2 -> F -> outcome (loader M S2)) (files : list F) :
  (forall a b f, view a = view b -> same_outcome (body1 a f) (body2 b f)) ->
  forall a b,
    view a = view b ->
    same_outcome (for_files body1 a files) (for_files body2 b files).
Proof.
  intros Hbody. induction files as [|f files IH]; intros a b H; [exact H|].
  cbn [for_files]. specialize (Hbody a b f H).
  destruct (body1 a f) as [a'|a'|], (body2 b f) as [b'|b'|];
    cbn in Hbody; try contradiction; auto.
Qed.

End Isolation.

Lemma process_html_file_isolated (S1 S2 : Type)
    (add1 : S1 -> list str -> list html_metadata -> list str -> S1 * bool)
    (add2 : S2 -> list str -> list html_metadata -> list str -> S2 * bool)
    (bs : Z) (state_name : str) (a : html_loader S1) (b : html_loader S2)
    (f : html_file) :
  view a = view b ->
  same_outcome (process_html_file S1 add1 bs state_name a f)
               (process_html_file S2 add2 bs state_name b f).
Proof.
  intros H. unfold process_html_file.
  destruct (extract_text_from_html f) as [x|]; [|now apply view_skip].
  destruct (negb (truthy (x_text x))); [now apply view_skip|].
  destruct (chunk_text html _ _ _ _) as [chunks|]; [|exact I].
  destruct (negb (nonempty chunks)); [now apply view_skip|].
  apply view_add_chunks. now apply view_count.
Qed.

Lemma process_state_folder_isolated (S1 S2 : Type)
    (add1 : S1 -> list str -> list html_metadata -> list str -> S1 * bool)
    (add2 : S2 -> list str -> list html_metadata -> list str -> S2 * bool)
    (lower : str -> str) (state_path : entry) (bs : Z) (s1 : S1) (s2 : S2) :
  same_outcome (process_state_folder S1 add1 lower state_path bs s1)
               (process_state_folder S2 add2 lower state_path bs s2).
Proof.
  unfold process_state_folder.
  destruct (negb (nonempty (html_files state_path))); [reflexivity|].
  match goal with
  | |- same_outcome (match ?x with _ => _ end) (match ?y with _ => _ end) =>
      assert (H : same_outcome x y);
      [ apply view_for_files; [|reflexivity];
        intros a b f; apply process_html_file_isolated
      | destruct x as [a|a|], y as [b|b|];
        cbn in H; try contradiction; try exact H; try exact I ]
  end.
  now apply view_final_flush.
Qed.

Lemma process_pdf_file_isolated (S1 S2 : Type)
    (add1 : S1 -> list str -> list pdf_metadata -> list str -> S1 * bool)
    (add2 : S2 -> list str -> list pdf_metadata -> list str -> S2 * bool)
    (bs : Z) (a : pdf_loader S1) (b : pdf_loader S2) (f : pdf_file) :
  view a = view b ->
  same_outcome (process_pdf_file S1 add1 bs a f)
               (process_pdf_file S2 add2 bs b f).
Proof.
  intros H. unfold process_pdf_file.
  destruct (pf_text f) as [text|]; [|now apply view_skip].
  destruct (negb (truthy text) || (len text <? 100)); [now apply view_skip|].
  destruct (chunk_text pdf _ _ _ _) as [chunks|]; [|exact I].
  destruct (negb (nonempty chunks)); [now apply view_skip|].
  apply view_add_chunks. now apply view_count.
Qed.

Lemma process_pdf_folder_isolated (S1 S2 : Type)
    (add1 : S1 -> list str -> list pdf_metadata -> list str -> S1 * bool)
    (add2 : S2 -> list str -> list pdf_metadata -> list str -> S2 * bool)
    (pdf_folder : pdf_dir) (bs : Z) (s1 : S1) (s2 : S2) :
  same_outcome (process_pdf_folder S1 add1 pdf_folder bs s1)
               (process_pdf_folder S2 add2 pdf_folder bs s2).
Proof.
  unfold process_pdf_folder.
  destruct (negb (pd_exists pdf_folder)); [reflexivity|].
  destruct (negb (nonempty (pdf_files pdf_folder))); [reflexivity|].
  match goal with
  | |- same_outcome (match ?x with _ => _ end) (match ?y with _ => _ end) =>
      assert (H : same_outcome x y);
      [ apply view_for_files; [|reflexivity];
        intros a b f; apply process_pdf_file_isolated
      | destruct x as [a|a|], y as [b|b|];
        cbn in H; try contradiction; try exact H; try exact I ]
  end.
  now apply view_final_flush.
Qed.

Lemma for_state_folders_isolated (S1 S2 : Type)
    (add1 : S1 -> list str -> list html_metadata -> list str -> S1 * bool)
    (add2 : S2 -> list str -> list html_metadata -> list str -> S2 * bool)
    (lower : str -> str) (folders : list entry) :
  forall (r1 : all_states S1) (r2 : all_states S2),
    all_states_view r1 = all_states_view r2 ->
    option_map all_states_view (for_state_folders S1 add1 lower folders r1)
    = option_map all_states_view (for_state_folders S2 add2 lower folders r2).
Proof.
  induction folders as [|f folders IH]; intros r1 r2 H.
  - cbn. now rewrite H.
  - cbn [for_state_folders].
    pose proof (process_state_folder_isolated S1 S2 add1 add2 lower f 50
                  (as_store S1 r1) (as_store S2 r2)) as Hf.
    injection H as Hc Hv.
    destruct (process_state_folder S1 add1 lower f 50 (as_store S1 r1))
      as [a|a|],
      (process_state_folder S2 add2 lower f 50 (as_store S2 r2)) as [b|b|];
      cbn in Hf; try contradiction; try reflexivity;
      apply IH; unfold all_states_view; cbn;
      apply view_inv in Hf as (_ & _ & _ & _ & _ & _ & Hcalls);
      now rewrite Hc, Hv, Hcalls.
Qed.

Lemma process_all_states_isolated (S1 S2 : Type)
    (add1 : S1 -> list str -> list html_metadata -> list str -> S1 * bool)
    (add2 : S2 -> list str -> list html_metadata -> list str -> S2 * bool)
    (lower : str -> str) (root : list entry) (s1 : S1) (s2 : S2) :
  option_map all_states_view (process_all_states S1 add1 lower root s1)
  = option_map all_states_view (process_all_states S2 add2 lower root s2).
Proof.
  unfold process_all_states.
  destruct (negb (nonempty (state_folders root))); [reflexivity|].
  now apply for_state_folders_isolated.
Qed.

Lemma process_state_folder_sends_all (Store : Type)
    (coll_add :
       Store -> list str -> list html_metadata -> list str -> Store * bool)
    (lower : str -> str) (state_path : entry) (bs : Z) (s : Store)
    (st : html_loader Store) :
  1 <= bs ->
  process_state_folder Store coll_add lower state_path bs s = Returned st ->
  records_sent (calls st) = total_chunks st.
Proof.
  intros Hbs Hrun. unfold process_state_folder in Hrun.
  destruct (negb (nonempty (html_files state_path))).
  { injection Hrun as <-. reflexivity. }
  pose proof (for_files_holds (batched bs)
                (process_html_file Store coll_add bs
                   (lower (name (e_path state_path))))
                (html_files state_path)
                (fun st f => process_html_file_batched Store coll_add bs
                               _ st f Hbs)
                (start_run s) (batched_start _ _ bs Hbs s)) as Hb.
  destruct (for_files _ _ _) as [st0| |]; try discriminate Hrun.
  injection Hrun as <-. now apply final_flush_sends_all with (bs := bs).
Qed.

Lemma process_pdf_folder_sends_all (Store : Type)
    (coll_add :
       Store -> list str -> list pdf_metadata -> list str -> Store * bool)
    (pdf_folder : pdf_dir) (bs : Z) (s : Store) (st : pdf_loader Store) :
  1 <= bs ->
  process_pdf_folder Store coll_add pdf_folder bs s = Returned st ->
  records_sent (calls st) = total_chunks st.
Proof.
  intros Hbs Hrun. unfold process_pdf_folder in Hrun.
  destruct (negb (pd_exists pdf_folder)).
  { injection Hrun as <-. reflexivity. }
  destruct (negb (nonempty (pdf_files pdf_folder))).
  { injection Hrun as <-. reflexivity. }
  pose proof (for_files_holds (batched bs)
                (process_pdf_file Store coll_add bs)
                (pdf_files pdf_folder)
                (fun st f => process_pdf_file_batched Store coll_add bs
                               st f Hbs)
                (start_run s) (batched_start _ _ bs Hbs s)) as Hb.
  destruct (for_files _ _ _) as [st0| |]; try discriminate Hrun.
  injection Hrun as <-. now apply final_flush_sends_all with (bs := bs).
Qed.

(** *** Orchestrator: the state folders *)

Lemma eqb_eq (a b : str) : eqb a b = true -> a = b.
Proof.
  revert b. induction a as [|x a IH]; intros [|y b]; cbn;
    try discriminate; [reflexivity|].
  intros H. apply andb_prop in H as [Hx Hab].
  apply Z.eqb_eq in Hx. subst. f_equal. auto.
Qed.

Lemma in_insert_sorted (f g : entry) (l : list entry) :
  In g (insert_sorted f l) <-> g = f \/ In g l.
Proof.
  induction l as [|h l IH]; cbn; [intuition congruence|].
  destruct (str_leb (name (e_path f)) (name (e_path h))); cbn;
    [intuition congruence|].
  rewrite IH. intuition congruence.
Qed.

Lemma in_sorted (g : entry) (l : list entry) : In g (sorted l) <-> In g l.
Proof.
  induction l as [|f l IH]; cbn; [reflexivity|].
  rewrite in_insert_sorted, IH. intuition congruence.
Qed.

Lemma add_chunks_fuelled {M Store : Type}
    (coll_add : Store -> list str -> list M -> list str -> Store * bool)
    (mk : Z -> option (str * M)) (bs : Z) (chunks : list str) :
  forall st idx, fuelled (add_chunks coll_add mk bs st idx chunks).
Proof.
  induction chunks as [|chunk rest IH]; intros st idx; cbn [add_chunks];
    [discriminate|].
  destruct (mk idx) as [[id meta]|]; [apply IH | discriminate].
Qed.

Lemma for_files_fuelled {F A : Type} (body : A -> F -> outcome A)
    (files : list F) :
  (forall st f, fuelled (body st f)) ->
  forall st, fuelled (for_files body st files).
Proof.
  intros Hbody. induction files as [|f files IH]; intros st;
    cbn [for_files]; [discriminate|].
  specialize (Hbody st f).
  destruct (body st f) as [st'|st'|]; [apply IH | discriminate | exact Hbody].
Qed.

Lemma html_chunk_text_fuelled (text : str) :
  chunk_text html (S (length text)) text 1000 200 <> None.
Proof.
  destruct (chunk_text_trace html 0 150 html_snap_bounds text 1000 200 0)
    as (ws & _ & H & _); try lia.
  rewrite Nat.add_0_r in H. rewrite H. discriminate.
Qed.

Lemma pdf_chunk_text_fuelled (text : str) :
  chunk_text pdf (S (length text)) text 1500 300 <> None.
Proof.
  destruct (chunk_text_trace pdf 200 200 pdf_snap_bounds text 1500 300 0)
    as (ws & _ & H & _); try lia.
  rewrite Nat.add_0_r in H. rewrite H. discriminate.
Qed.

Lemma process_state_folder_fuelled (Store : Type)
    (coll_add :
       Store -> list str -> list html_metadata -> list str -> Store * bool)
    (lower : str -> str) (state_path : entry) (bs : Z) (s : Store) :
  fuelled (process_state_folder Store coll_add lower state_path bs s).
Proof.
  unfold process_state_folder.
  destruct (negb (nonempty (html_files state_path))); [discriminate|].
  match goal with
  | |- fuelled (match ?x with _ => _ end) =>
      assert (H : fuelled x); [|destruct x; (discriminate || exact H)]
  end.
  apply for_files_fuelled. intros st f. unfold process_html_file.
  destruct (extract_text_from_html f) as [x|]; [|discriminate].
  destruct (negb (truthy (x_text x))); [discriminate|].
  pose proof (html_chunk_text_fuelled (x_text x)) as Hc.
  destruct (chunk_text html _ _ _ _) as [chunks|]; [|contradiction].
  destruct (negb (nonempty chunks)); [discriminate|].
  apply add_chunks_fuelled.
Qed.

Lemma process_pdf_folder_fuelled (Store : Type)
    (coll_add :
       Store -> list str -> list pdf_metadata -> list str -> Store * bool)
    (pdf_folder : pdf_dir) (bs : Z) (s : Store) :
  fuelled (process_pdf_folder Store coll_add pdf_folder bs s).
Proof.
  unfold process_pdf_folder.
  destruct (negb (pd_exists pdf_folder)); [discriminate|].
  destruct (negb (nonempty (pdf_files pdf_folder))); [discriminate|].
  match goal with
  | |- fuelled (match ?x with _ => _ end) =>
      assert (H : fuelled x); [|destruct x; (discriminate || exact H)]
  end.
  apply for_files_fuelled. intros st f. unfold process_pdf_file.
  destruct (pf_text f) as [text|]; [|discriminate].
  destruct (negb (truthy text) || (len text <? 100)); [discriminate|].
  pose proof (pdf_chunk_text_fuelled text) as Hc.
  destruct (chunk_text pdf _ _ _ _) as [chunks|]; [|contradiction].
  destruct (negb (nonempty chunks)); [discriminate|].
  apply add_chunks_fuelled.
Qed.

(** The loop over the folders hands each of them, in order, to
    [process_state_folder]. *)
Lemma for_state_folders_visits (Store : Type)
    (coll_add :
       Store -> list str -> list html_metadata -> list str -> Store * bool)
    (lower : str -> str) (folders : list entry) :
  forall r,
    exists r',
      for_state_folders Store coll_add lower folders r = Some r'
      /\ as_visited Store r' = as_visited Store r ++ folders.
Proof.
  induction folders as [|f folders IH]; intros r; cbn [for_state_folders].
  - exists r. now rewrite app_nil_r.
  - pose proof (process_state_folder_fuelled Store coll_add lower f 50
                  (as_store Store r)) as Hf.
    destruct (process_state_folder Store coll_add lower f 50 _)
      as [st|st|]; [| |contradiction];
      match goal with
      | |- exists r', for_state_folders _ _ _ _ ?r0 = _ /\ _ =>
          destruct (IH r0) as (r' & E & Hv); exists r'; split; [exact E|];
          rewrite Hv; cbn [as_visited]; now rewrite <- app_assoc
      end.
Qed.

Lemma is_state_folder_scope (f : entry) :
  is_state_folder f = true -> scope_folder f.
Proof.
  unfold is_state_folder, scope_folder. intros H.
  apply andb_prop in H as [H H4]. apply andb_prop in H as [H H3].
  apply andb_prop in H as [H1 H2].
  apply negb_true_iff in H2, H3, H4.
  repeat split; try assumption.
  intros E. rewrite E in H4. discriminate H4.
Qed.

(** C10: every folder that [process_all_states] hands to
    [process_state_folder] is a directory of the root whose name starts with
    neither a dot nor an underscore and is not [legal_cases_chroma_db]; the
    run always comes to its end, and an entry of the root with such a name,
    the directory of the vector store among them, is not visited. *)
Theorem process_all_states_skips_excluded :
  forall (Store : Type)
         (coll_add : Store -> list str -> list html_metadata -> list str
                     -> Store * bool)
         (lower : str -> str) (root : list entry) (s : Store),
    Forall scope_folder (state_folders root)
    /\ exists r,
        process_all_states Store coll_add lower root s = Some r
        /\ Forall (fun f => In f root /\ scope_folder f)
             (as_visited Store r)
        /\ (forall f,
               startswith (name (e_path f)) (py ".") = true
               \/ startswith (name (e_path f)) (py "_") = true
               \/ name (e_path f) = py "legal_cases_chroma_db" ->
               ~ In f (as_visited Store r)).
Proof.
  intros Store coll_add lower root s.
  assert (Hsf : Forall (fun f => In f root /\ scope_folder f)
                  (state_folders root)).
  { apply Forall_forall. intros f Hin.
    apply filter_In in Hin as [Hin Hf].
    split; [exact Hin | now apply is_state_folder_scope]. }
  split; [eapply Forall_impl; [|exact Hsf]; now intros f [_ H]|].
  assert (Hr : exists r,
             process_all_states Store coll_add lower root s = Some r
             /\ Forall (fun f => In f root /\ scope_folder f)
                  (as_visited Store r)).
  { unfold process_all_states.
    destruct (negb (nonempty (state_folders root))).
    - eexists. split; [reflexivity | constructor].
    - destruct (for_state_folders_visits Store coll_add lower
                  (sorted (state_folders root))
                  {| as_store := s; as_calls := []; as_visited := [] |})
        as (r & E & Hv).
      exists r. split; [exact E|]. rewrite Hv. cbn [as_visited app].
      apply Forall_forall. intros f Hin.
      apply (proj1 (in_sorted f (state_folders root))) in Hin.
      rewrite Forall_forall in Hsf. exact (Hsf f Hin). }
  destruct Hr as (r & E & Hv). exists r. split; [exact E|].
  split; [exact Hv|].
  intros f Hname Hin. rewrite Forall_forall in Hv.
  destruct (Hv f Hin) as (_ & _ & H1 & H2 & H3).
  destruct Hname as [H|[H|H]]; congruence.
Qed.

Example sample_root_visited :
  option_map (fun r => map (fun f => name (e_path f)) (as_visited Z r))
    (process_all_states Z counting_add ascii_lower sample_root 0)
  = Some [py "Ohio"; py "Texas"].
Proof. vm_compute. reflexivity. Qed.

(** * Further properties of the code *)

(** *** Identity assigner: format and failure *)

Lemma hexdigest_format (msg : list Z) :
  length (MD5.hexdigest msg) = 32%nat
  /\ Forall (fun c => In c MD5.hexdigits) (MD5.hexdigest msg).
Proof.
  destruct (hex_bytes_shape (MD5.digest msg)) as [Hl Hf].
  rewrite digest_length in Hl. split; assumption.
Qed.

(** X1: an id, of either pipeline, is a string of 32 characters, each one of
    [0123456789abcdef]. *)
Theorem chunk_id_format :
  forall (s f : str) (i : Z) (id : str),
    generate_chunk_id s f i = Some id \/ pdf_chunk_id f i = Some id ->
    len id = 32 /\ Forall (fun c => In c (py "0123456789abcdef")) id.
Proof.
  intros s f i id [H|H];
    [unfold generate_chunk_id in H | unfold pdf_chunk_id in H];
    destruct (encode _) as [bs|]; try discriminate H;
    injection H as <-;
    destruct (hexdigest_format bs) as [Hl Hf];
    (split; [unfold len; rewrite Hl; reflexivity | exact Hf]).
Qed.

Lemma chunk_id_format_witness :
  generate_chunk_id (py "texas") (py "case.html") 0
  = Some (py "f6efa0105039303b415cf20bd992cb69")
  /\ len (py "f6efa0105039303b415cf20bd992cb69") = 32.
Proof.
  assert (H : generate_chunk_id (py "texas") (py "case.html") 0
              = Some (py "f6efa0105039303b415cf20bd992cb69"))
    by (vm_compute; reflexivity).
  split; [exact H|].
  exact (proj1 (chunk_id_format _ _ _ _ (or_introl H))).
Defined.

Lemma encode_char_none (c : char) :
  encode_char c = None <-> encodable c = false.
Proof.
  unfold encode_char, encodable.
  destruct (Z.ltb_spec c 0), (Z.leb_spec 0 c); try lia;
    [cbn; split; reflexivity|].
  destruct (Z.ltb_spec c 128), (Z.ltb_spec c 1114112); try lia;
    destruct (Z.leb_spec 55296 c), (Z.leb_spec c 57343); try lia;
    cbn; try (split; [discriminate | discriminate]);
    try (split; reflexivity);
    destruct (Z.ltb_spec c 2048); try lia;
    try (split; [discriminate | discriminate]);
    destruct (Z.ltb_spec c 65536); try lia;
    try (split; [discriminate | discriminate]);
    try (split; reflexivity).
Qed.

Lemma encode_none (s : str) :
  encode s = None <-> exists c, In c s /\ encodable c = false.
Proof.
  induction s as [|c s IH]; cbn [encode].
  - split; [discriminate | intros (c & [] & _)].
  - destruct (encode_char c) as [b|] eqn:Ec.
    + assert (Hc : encodable c = true).
      { destruct (encodable c) eqn:E; [reflexivity|].
        apply encode_char_none in E. congruence. }
      destruct (encode s) as [bs|].
      * split; [discriminate|].
        intros (d & [<-|Hd] & Hn); [congruence|].
        assert (Some bs = None) by (apply IH; eauto). discriminate.
      * split; [|reflexivity]. intros _.
        destruct (proj1 IH eq_refl) as (d & Hd & Hn).
        exists d. split; [now right | exact Hn].
    + split; [|reflexivity]. intros _. exists c.
      split; [now left | now apply encode_char_none].
Qed.

Lemma uint_chars_encodable (d : Decimal.uint) :
  Forall (fun c => encodable c = true)
    (of_string (NilEmpty.string_of_uint d)).
Proof.
  induction d; cbn [NilEmpty.string_of_uint]; try constructor;
    try reflexivity; exact IHd.
Qed.

Lemma of_int_encodable (i : Z) :
  Forall (fun c => encodable c = true) (of_int i).
Proof.
  unfold of_int. destruct (Z.to_int i) as [d|d];
    cbn [NilZero.string_of_int].
  - destruct d; try apply uint_chars_encodable.
    repeat constructor.
  - change (of_string (String "-" (NilZero.string_of_uint d)))
      with (45 :: of_string (NilZero.string_of_uint d)).
    constructor; [reflexivity|].
    destruct d; try apply uint_chars_encodable.
    repeat constructor.
Qed.

Lemma not_encodable_app (a b : str) :
  (exists c, In c (a ++ b) /\ encodable c = false)
  <-> (exists c, In c a /\ encodable c = false)
      \/ (exists c, In c b /\ encodable c = false).
Proof.
  split.
  - intros (c & Hc & Hn). apply in_app_or in Hc as [Hc|Hc]; eauto.
  - intros [(c & Hc & Hn)|(c & Hc & Hn)]; exists c;
      (split; [apply in_or_app; auto | exact Hn]).
Qed.

Lemma all_encodable (s : str) :
  Forall (fun c => encodable c = true) s ->
  ~ exists c, In c s /\ encodable c = false.
Proof.
  intros H (c & Hc & Hn). rewrite Forall_forall in H.
  specialize (H c Hc). congruence.
Qed.

(** X2: for a chunk index of at most 4300 digits, the integers that the
    interpreter converts to a string, computing an id raises exactly when
    the scope or the file name holds a code point that UTF-8 cannot encode
    (a lone surrogate).  For the PDF pipeline, the file name. *)
Theorem chunk_id_raises_iff :
  forall (s f : str) (i : Z),
    int_to_str_defined i ->
    (generate_chunk_id s f i = None
     <-> exists c, (In c s \/ In c f) /\ encodable c = false)
    /\ (pdf_chunk_id f i = None
        <-> exists c, In c f /\ encodable c = false).
Proof.
  intros s f i _.
  assert (Hsep : ~ exists c, In c (py "_") /\ encodable c = false)
    by (apply all_encodable; repeat constructor).
  pose proof (all_encodable _ (of_int_encodable i)) as Hi.
  split.
  - unfold generate_chunk_id, unique_string.
    destruct (encode _) as [bs|] eqn:E; cbn [option_map].
    + split; [discriminate|]. intros (c & Hc & Hn).
      assert (Some bs = None); [|discriminate].
      rewrite <- E. apply encode_none.
      rewrite !not_encodable_app. destruct Hc; eauto 6.
    + split; [|reflexivity]. intros _.
      apply encode_none in E. rewrite !not_encodable_app in E.
      destruct E as [(c & ? & ?)|[?|[(c & ? & ?)|[?|?]]]];
        try contradiction; eauto.
  - unfold pdf_chunk_id, pdf_unique_string.
    destruct (encode _) as [bs|] eqn:E; cbn [option_map].
    + split; [discriminate|]. intros (c & Hc & Hn).
      assert (Some bs = None); [|discriminate].
      rewrite <- E. apply encode_none.
      rewrite !not_encodable_app. eauto.
    + split; [|reflexivity]. intros _.
      apply encode_none in E. rewrite !not_encodable_app in E.
      destruct E as [?|[?|?]]; try contradiction; assumption.
Qed.

Lemma chunk_id_raises_iff_witness :
  int_to_str_defined 50
  /\ generate_chunk_id (py "texas") (56575 :: py ".html") 50 = None
  /\ generate_chunk_id (py "texas") (py "50.html") 50 <> None.
Proof.
  assert (H : int_to_str_defined 50) by (vm_compute; reflexivity).
  split; [exact H|]. split.
  - apply (proj1 (chunk_id_raises_iff (py "texas") (56575 :: py ".html") 50
                    H)).
    exists 56575. split; [right; now left | reflexivity].
  - intros E.
    apply (proj1 (chunk_id_raises_iff (py "texas") (py "50.html") 50 H))
      in E as (c & Hc & Hn).
    cbn in Hc.
    repeat (destruct Hc as [Hc|Hc]; try (subst c; discriminate Hn));
      try contradiction.
Defined.

(** *** Chunker: what the chunks are *)

Lemma infix_refl (a : str) : infix a a.
Proof. exists [], []. now rewrite app_nil_r. Qed.

Lemma infix_trans (a b c : str) : infix a b -> infix b c -> infix a c.
Proof.
  intros (p & q & ->) (p' & q' & ->).
  exists (p' ++ p), (q ++ q'). now rewrite <- !app_assoc.
Qed.

Lemma infix_len (a b : str) : infix a b -> len a <= len b.
Proof.
  intros (p & q & ->). unfold len. rewrite !length_app. lia.
Qed.

Lemma slice_infix (s : str) (i j : Z) : infix (slice s i j) s.
Proof.
  unfold slice.
  set (a := Z.to_nat (adjust i (len s))).
  set (k := Z.to_nat (adjust j (len s) - adjust i (len s))).
  exists (firstn a s), (skipn k (skipn a s)).
  now rewrite firstn_skipn, firstn_skipn.
Qed.

Lemma lstrip_infix (s : str) : infix (lstrip s) s.
Proof.
  destruct (lstrip_split s) as [sp H].
  exists sp, []. now rewrite app_nil_r.
Qed.

Lemma strip_infix (s : str) : infix (strip s) s.
Proof.
  unfold strip, rstrip.
  apply infix_trans with (b := lstrip s); [|apply lstrip_infix].
  destruct (lstrip_split (rev (lstrip s))) as [sp H].
  apply (f_equal (@rev _)) in H.
  rewrite rev_involutive, rev_app_distr in H.
  exists [], (rev sp). exact H.
Qed.

Lemma chunk_text_infix (V : variant) (fuel : nat) (text : str) (cs ov : Z)
    (chunks : list str) :
  chunk_text V fuel text cs ov = Some chunks ->
  Forall (fun c => infix c text) chunks.
Proof.
  intros H.
  apply chunk_text_kept in H as [->|(ws & Hws & ->)]; [constructor|].
  apply Forall_kept_chunks.
  apply windows_iterations in Hws.
  eapply Forall_impl; [|exact Hws].
  cbn beta. intros w [Hw _] _. rewrite Hw. cbn [iteration w_chunk].
  eapply infix_trans; [apply strip_infix | apply slice_infix].
Qed.

(** X3: every chunk returned, by either variant and with any parameters, is
    a contiguous piece of the text: chunking neither alters nor invents
    characters. *)
Theorem chunk_text_pieces_of_text :
  forall (V : variant) (fuel : nat) (text : str) (chunk_size overlap : Z)
         (chunks : list str),
    chunk_text V fuel text chunk_size overlap = Some chunks ->
    Forall (fun c => infix c text) chunks.
Proof.
  intros V fuel text cs ov chunks H. exact (chunk_text_infix _ _ _ _ _ _ H).
Qed.

Lemma chunk_text_pieces_of_text_witness :
  chunk_text html 4 gap_text 1000 200 = Some [repeat 97 100; repeat 98 100]
  /\ Forall (fun c => infix c gap_text) [repeat 97 100; repeat 98 100].
Proof.
  assert (H : chunk_text html 4 gap_text 1000 200
              = Some [repeat 97 100; repeat 98 100])
    by (vm_compute; reflexivity).
  split; [exact H|].
  exact (chunk_text_pieces_of_text html 4 gap_text 1000 200 _ H).
Defined.

(** A text that is not longer than the minimum yields no chunk. *)
Lemma chunk_text_short (V : variant) (fuel : nat) (text : str) (cs ov : Z)
    (chunks : list str) :
  len text <= min_len V ->
  chunk_text V fuel text cs ov = Some chunks -> chunks = [].
Proof.
  intros Hlen H.
  pose proof (chunk_text_min_len V fuel text cs ov chunks H) as Hmin.
  pose proof (chunk_text_infix V fuel text cs ov chunks H) as Hin.
  destruct chunks as [|c chunks]; [reflexivity|exfalso].
  apply Forall_inv in Hmin, Hin. destruct Hmin as [_ Hmin].
  pose proof (strip_length c). apply infix_len in Hin. lia.
Qed.

Lemma html_chunk_text_returns (text : str) :
  exists chunks, html_chunk_text (S (length text)) text = Some chunks.
Proof.
  destruct (chunk_text html (S (length text)) text 1000 200) as [chunks|] eqn:E.
  - exists chunks. exact E.
  - now apply html_chunk_text_fuelled in E.
Qed.

Lemma pdf_chunk_text_returns (text : str) :
  exists chunks, pdf_chunk_text (S (length text)) text = Some chunks.
Proof.
  destruct (chunk_text pdf (S (length text)) text 1500 300) as [chunks|] eqn:E.
  - exists chunks. exact E.
  - now apply pdf_chunk_text_fuelled in E.
Qed.

(** X4: with the parameters of the pipelines, a text of at most 50
    characters (HTML), of at most 100 characters (PDF), the empty text among
    them, is chunked into the empty list. *)
Theorem chunk_text_of_short_text :
  forall text : str,
    (len text <= 50 -> html_chunk_text (S (length text)) text = Some [])
    /\ (len text <= 100 -> pdf_chunk_text (S (length text)) text = Some []).
Proof.
  intros text. split; intros Hlen.
  - destruct (html_chunk_text_returns text) as [chunks E].
    rewrite E. f_equal.
    exact (chunk_text_short html _ _ _ _ _ Hlen E).
  - destruct (pdf_chunk_text_returns text) as [chunks E].
    rewrite E. f_equal.
    exact (chunk_text_short pdf _ _ _ _ _ Hlen E).
Qed.

Lemma chunk_text_of_short_text_witness :
  len (repeat 97 50) <= 50
  /\ html_chunk_text (S (length (repeat 97 50))) (repeat 97 50) = Some [].
Proof.
  assert (H : len (repeat 97 50) <= 50) by (vm_compute; discriminate).
  split; [exact H|].
  exact (proj1 (chunk_text_of_short_text (repeat 97 50)) H).
Defined.

Lemma slice_whole (s : str) (j : Z) : len s <= j -> slice s 0 j = s.
Proof.
  intros Hj. unfold slice, adjust.
  pose proof (len_nonneg s) as Hn.
  destruct (Z.ltb_spec 0 0); [lia|].
  destruct (Z.ltb_spec j 0); [lia|].
  rewrite (Z.min_l 0) by lia. rewrite (Z.min_r j) by lia.
  cbn [Z.to_nat skipn]. rewrite Z.sub_0_r.
  unfold len. rewrite Nat2Z.id. apply firstn_all.
Qed.

(** One iteration over a text that fits in the chunk size. *)
Lemma chunk_text_fits (V : variant) (text : str) (cs ov : Z) (fuel : nat) :
  0 <= min_len V -> len text <= cs -> min_len V < len (strip text) ->
  chunk_text V (S (S fuel)) text cs ov = Some [strip text].
Proof.
  intros Hml Hfit Hmin. unfold chunk_text.
  pose proof (strip_length text) as Hs.
  assert (Hpos : 0 < len text) by lia.
  replace (negb (truthy text) || (len text =? 0)) with false.
  2:{ destruct text as [|c0 text0]; [unfold len in Hpos; cbn in Hpos; lia|].
      cbn [truthy negb orb]. symmetry. apply Z.eqb_neq. lia. }
  rewrite chunk_loop_unroll by lia.
  cbn [iteration w_next w_kept w_chunk].
  destruct (Z.ltb_spec (0 + cs) (len text)); [lia|].
  rewrite (slice_whole text (0 + cs)) by lia.
  destruct (Z.ltb_spec (0 + cs) (len text)); [lia|].
  assert (Ht : truthy (strip text) = true).
  { destruct (strip text); [unfold len in Hmin; cbn in Hmin; lia|reflexivity]. }
  rewrite Ht. destruct (Z.gtb_spec (len (strip text)) (min_len V)); [|lia].
  cbn [andb app chunk_loop].
  destruct (Z.ltb_spec (len text) (len text)); [lia | reflexivity].
Qed.

(** X5: with the parameters of the pipelines, a text that fits in one chunk
    (at most 1000 characters for HTML, 1500 for PDF) and whose trimmed
    length exceeds the minimum is returned as one chunk, the trimmed
    text. *)
Theorem chunk_text_of_text_that_fits :
  forall text : str,
    (len text <= 1000 -> 50 < len (strip text) ->
     html_chunk_text (S (length text)) text = Some [strip text])
    /\ (len text <= 1500 -> 100 < len (strip text) ->
        pdf_chunk_text (S (length text)) text = Some [strip text]).
Proof.
  intros text.
  assert (Hfuel : forall m, m < len (strip text) -> 0 <= m ->
                    exists fuel, S (length text) = S (S fuel)).
  { intros m Hm H0. pose proof (strip_length text) as Hs.
    destruct text as [|c t]; [unfold len in *; cbn in *; lia|].
    exists (length t). reflexivity. }
  split; intros Hfit Hmin.
  - destruct (Hfuel 50 Hmin) as [fuel ->]; [lia|].
    now apply (chunk_text_fits html).
  - destruct (Hfuel 100 Hmin) as [fuel ->]; [lia|].
    now apply (chunk_text_fits pdf).
Qed.

Lemma chunk_text_of_text_that_fits_witness :
  len (32 :: repeat 97 60) <= 1000
  /\ 50 < len (strip (32 :: repeat 97 60))
  /\ html_chunk_text (S (length (32 :: repeat 97 60))) (32 :: repeat 97 60)
     = Some [repeat 97 60].
Proof.
  assert (H1 : len (32 :: repeat 97 60) <= 1000) by (vm_compute; discriminate).
  assert (H2 : 50 < len (strip (32 :: repeat 97 60)))
    by (vm_compute; reflexivity).
  split; [exact H1|]. split; [exact H2|].
  exact (proj1 (chunk_text_of_text_that_fits (32 :: repeat 97 60)) H1 H2).
Defined.

(** *** Chunker: how far each iteration moves *)

Section Steps.

Variable V : variant.
Variables back fwd : Z.
Hypothesis snap_bounds :
  forall text e,
    back <= e < len text ->
    e - back <= snap V text e (puncts V) <= Z.min (e + fwd) (len text).
Variable text : str.
Variables cs ov : Z.
Hypothesis back_nonneg : 0 <= back.
Hypothesis fwd_nonneg : 0 <= fwd.
Hypothesis ov_nonneg : 0 <= ov.
Hypothesis cs_large : back + ov < cs.

Lemma iteration_end_lower (start : Z) :
  0 <= start < len text ->
  start + cs - back <= w_end (iteration V text cs ov start).
Proof.
  intros Hs. cbn [iteration w_end].
  destruct (Z.ltb_spec (start + cs) (len text)) as [Hlt|Hge]; [|lia].
  assert (Hb : back <= start + cs < len text) by lia.
  pose proof (snap_bounds text (start + cs) Hb). lia.
Qed.

(** Every window starts at the first cursor or more than the overlap before
    the end of the text, and ends at least [cs - back] after its start; the
    number of windows is bounded by the distance to the end of the text. *)
Lemma windows_steps (fuel : nat) :
  forall start ws,
    0 <= start ->
    windows V fuel text cs ov start = Some ws ->
    Forall (fun w => 0 <= w_start w < len text
                     /\ (w_start w = start \/ w_start w + ov < len text)
                     /\ w_start w + cs - back <= w_end w
                     /\ w = iteration V text cs ov (w_start w)) ws
    /\ len ws * (cs - back - ov)
       <= Z.max 0 (len text - start + (cs - back - ov) - 1).
Proof.
  induction fuel as [|fuel IH]; intros start ws H0; [discriminate|].
  cbn [windows].
  destruct (Z.ltb_spec start (len text)) as [Hlt|Hge].
  - destruct (windows V fuel text cs ov _) as [ws'|] eqn:E; [|discriminate].
    intros [= <-].
    destruct (iteration_progress V back fwd snap_bounds text cs ov
                back_nonneg fwd_nonneg ov_nonneg cs_large start
                (conj H0 Hlt)) as (Hn & Hne & He & Hlt' & Hge').
    pose proof (iteration_end_lower start (conj H0 Hlt)) as Hlow.
    set (w := iteration V text cs ov start) in *.
    assert (Hws : w_start w = start) by reflexivity.
    assert (Hnn : 0 <= w_next w) by lia.
    destruct (IH _ _ Hnn E) as [Hall Hcount].
    split.
    + constructor.
      * rewrite Hws. split; [lia|]. split; [now left|].
        split; [exact Hlow | reflexivity].
      * eapply Forall_impl; [|exact Hall].
        cbn beta. intros w' (H1 & H2 & H3 & H4).
        repeat split; try lia; try assumption.
    + assert (Hsucc : len (w :: ws') * (cs - back - ov)
                      = len ws' * (cs - back - ov) + (cs - back - ov)).
      { unfold len. cbn [length]. rewrite Nat2Z.inj_succ. lia. }
      rewrite Hsucc.
      destruct (Z.lt_ge_cases (w_end w) (len text)) as [Hin|Hout].
      * specialize (Hlt' Hin). lia.
      * specialize (Hge' Hout). rewrite Hge' in E.
        destruct fuel as [|fuel']; [discriminate E|].
        cbn [windows] in E.
        destruct (Z.ltb_spec (len text) (len text)); [lia|].
        injection E as <-. unfold len at 1. cbn [length]. lia.
  - intros [= <-]. split; [constructor|]. unfold len. cbn [length]. lia.
Qed.

End Steps.

Lemma kept_length (ws : list window) :
  (length (map w_chunk (filter w_kept ws)) <= length ws)%nat.
Proof. rewrite length_map. apply filter_length_le. Qed.

(** X6: with the parameters of the pipelines, every iteration of
    [chunk_text] whose window ends before the end of the text moves the
    cursor by at least 800 characters (HTML), 1000 (PDF); the iteration
    that reaches the end of the text may move it by less.  The number of
    chunks is at most the length of the text divided by that step, rounded
    up. *)
Theorem chunk_text_count_bound :
  forall (fuel : nat) (text : str),
    (forall ws,
        windows html fuel text 1000 200 0 = Some ws ->
        Forall (fun w => w_end w < len text -> w_start w + 800 <= w_next w)
          ws)
    /\ (forall chunks,
           html_chunk_text fuel text = Some chunks ->
           800 * len chunks <= len text + 799)
    /\ (forall ws,
           windows pdf fuel text 1500 300 0 = Some ws ->
           Forall (fun w => w_end w < len text -> w_start w + 1000 <= w_next w)
             ws)
    /\ (forall chunks,
           pdf_chunk_text fuel text = Some chunks ->
           1000 * len chunks <= len text + 999).
Proof.
  intros fuel text.
  pose proof (len_nonneg text) as Hn.
  split; [|split; [|split]].
  - intros ws Hws.
    destruct (windows_steps html 0 150 html_snap_bounds text 1000 200
                ltac:(lia) ltac:(lia) ltac:(lia) ltac:(lia)
                fuel 0 ws (Z.le_refl 0) Hws) as [Hall _].
    eapply Forall_impl; [|exact Hall].
    cbn beta. intros w (H1 & _ & H3 & H4) Hend.
    pose proof (iteration_progress html 0 150 html_snap_bounds text 1000 200
                  ltac:(lia) ltac:(lia) ltac:(lia) ltac:(lia)
                  (w_start w) H1) as P.
    cbv zeta in P. rewrite <- H4 in P.
    destruct P as (_ & _ & _ & Hnext & _). rewrite (Hnext Hend). lia.
  - intros chunks H.
    apply chunk_text_kept in H as [->|(ws & Hws & ->)];
      [unfold len; cbn; lia|].
    destruct (windows_steps html 0 150 html_snap_bounds text 1000 200
                ltac:(lia) ltac:(lia) ltac:(lia) ltac:(lia)
                fuel 0 ws (Z.le_refl 0) Hws) as [_ Hc].
    pose proof (kept_length ws). unfold len in *. lia.
  - intros ws Hws.
    destruct (windows_steps pdf 200 200 pdf_snap_bounds text 1500 300
                ltac:(lia) ltac:(lia) ltac:(lia) ltac:(lia)
                fuel 0 ws (Z.le_refl 0) Hws) as [Hall _].
    eapply Forall_impl; [|exact Hall].
    cbn beta. intros w (H1 & _ & H3 & H4) Hend.
    pose proof (iteration_progress pdf 200 200 pdf_snap_bounds text 1500 300
                  ltac:(lia) ltac:(lia) ltac:(lia) ltac:(lia)
                  (w_start w) H1) as P.
    cbv zeta in P. rewrite <- H4 in P.
    destruct P as (_ & _ & _ & Hnext & _). rewrite (Hnext Hend). lia.
  - intros chunks H.
    apply chunk_text_kept in H as [->|(ws & Hws & ->)];
      [unfold len; cbn; lia|].
    destruct (windows_steps pdf 200 200 pdf_snap_bounds text 1500 300
                ltac:(lia) ltac:(lia) ltac:(lia) ltac:(lia)
                fuel 0 ws (Z.le_refl 0) Hws) as [_ Hc].
    pose proof (kept_length ws). unfold len in *. lia.
Qed.

Lemma chunk_text_count_bound_witness :
  html_chunk_text 4 gap_text = Some [repeat 97 100; repeat 98 100]
  /\ 800 * len [repeat 97 100; repeat 98 100] <= len gap_text + 799.
Proof.
  assert (H : html_chunk_text 4 gap_text
              = Some [repeat 97 100; repeat 98 100])
    by (vm_compute; reflexivity).
  split; [exact H|].
  exact (proj1 (proj2 (chunk_text_count_bound 4 gap_text)) _ H).
Defined.

(** *** PDF extractor: the text it returns *)

Lemma sub_runs_class (cls : char -> bool) (repl : char) (s : str) :
  forall b,
    Forall (fun c => cls c = true -> c = repl) (sub_runs cls repl b s).
Proof.
  induction s as [|c s IH]; intros b; cbn [sub_runs]; [constructor|].
  destruct (cls c) eqn:E.
  - destruct b; [apply IH|]. constructor; [reflexivity | apply IH].
  - constructor; [congruence | apply IH].
Qed.

Lemma sub_runs_unchanged (cls : char -> bool) (repl : char) (s : str) :
  forall b, Forall (fun c => cls c = false) s -> sub_runs cls repl b s = s.
Proof.
  induction s as [|c s IH]; intros b H; cbn [sub_runs]; [reflexivity|].
  inversion H as [|? ? Hc Hs]; subst. rewrite Hc. f_equal. now apply IH.
Qed.

Lemma sub_runs_single_spaced (s : str) :
  forall b,
    single_spaced (sub_runs isspace 32 b s) = true
    /\ (b = true ->
        match sub_runs isspace 32 b s with
        | [] => True
        | c :: _ => isspace c = false
        end).
Proof.
  induction s as [|c s IH]; intros b; cbn [sub_runs]; [now split|].
  destruct (isspace c) eqn:E.
  - destruct b; [apply IH|].
    split; [|discriminate].
    destruct (IH true) as [H1 H2]. specialize (H2 eq_refl).
    cbn [single_spaced].
    destruct (sub_runs isspace 32 true s) as [|d o]; [reflexivity|].
    rewrite H2, andb_false_r. exact H1.
  - destruct (IH false) as [H1 _]. split; [|intros _; exact E].
    cbn [single_spaced].
    destruct (sub_runs isspace 32 false s) as [|d o]; [reflexivity|].
    rewrite E. exact H1.
Qed.

Lemma single_spaced_tail (c : char) (s : str) :
  single_spaced (c :: s) = true -> single_spaced s = true.
Proof.
  cbn [single_spaced]. destruct s as [|d s]; [reflexivity|].
  intros H. now apply andb_prop in H.
Qed.

Lemma single_spaced_skipn (k : nat) :
  forall s, single_spaced s = true -> single_spaced (skipn k s) = true.
Proof.
  induction k as [|k IH]; intros [|c s] H; cbn [skipn]; try assumption.
  apply IH. now apply single_spaced_tail in H.
Qed.

Lemma single_spaced_firstn (k : nat) :
  forall s, single_spaced s = true -> single_spaced (firstn k s) = true.
Proof.
  induction k as [|k IH]; intros [|c s] H; cbn [firstn]; try reflexivity.
  pose proof (IH s (single_spaced_tail _ _ H)) as Ht.
  destruct k as [|k']; [reflexivity|].
  destruct s as [|d s']; [reflexivity|].
  cbn [firstn] in *. cbn [single_spaced] in H |- *.
  apply andb_prop in H as [H1 _]. now rewrite H1.
Qed.

Lemma single_spaced_lstrip (s : str) :
  single_spaced s = true -> single_spaced (lstrip s) = true.
Proof.
  induction s as [|c s IH]; intros H; cbn [lstrip]; [reflexivity|].
  destruct (isspace c); [|exact H].
  apply IH. now apply single_spaced_tail in H.
Qed.

Lemma single_spaced_snoc (l : str) (x : char) :
  single_spaced l = true ->
  match rev l with
  | [] => True
  | y :: _ => isspace y && isspace x = false
  end ->
  single_spaced (l ++ [x]) = true.
Proof.
  induction l as [|c l IH]; intros Hl Hx; [reflexivity|].
  destruct l as [|d l'].
  - cbn in *. now rewrite Hx.
  - change ((c :: d :: l') ++ [x]) with (c :: ((d :: l') ++ [x])).
    cbn [single_spaced] in Hl. apply andb_prop in Hl as [H1 H2].
    assert (Ht : single_spaced ((d :: l') ++ [x]) = true).
    { apply IH; [exact H2|].
      change (rev (c :: d :: l')) with (rev (d :: l') ++ [c]) in Hx.
      destruct (rev (d :: l')) as [|y r] eqn:Er; [|exact Hx].
      apply (f_equal (@length _)) in Er. rewrite length_rev in Er.
      discriminate Er. }
    change ((d :: l') ++ [x]) with (d :: (l' ++ [x])) in *.
    cbn [single_spaced]. cbn [single_spaced] in Ht.
    now rewrite H1.
Qed.

Lemma single_spaced_rev (s : str) :
  single_spaced s = true -> single_spaced (rev s) = true.
Proof.
  induction s as [|c s IH]; intros H; [reflexivity|].
  cbn [rev]. apply single_spaced_snoc.
  - apply IH. now apply single_spaced_tail in H.
  - rewrite rev_involutive. destruct s as [|d s']; [exact I|].
    cbn [single_spaced] in H. apply andb_prop in H as [H1 _].
    apply negb_true_iff in H1. now rewrite andb_comm.
Qed.

Lemma single_spaced_strip (s : str) :
  single_spaced s = true -> single_spaced (strip s) = true.
Proof.
  intros H. unfold strip, rstrip.
  now apply single_spaced_rev, single_spaced_lstrip, single_spaced_rev,
    single_spaced_lstrip.
Qed.

Lemma infix_in (a b : str) (c : char) : infix a b -> In c a -> In c b.
Proof.
  intros (p & q & ->) H. apply in_or_app. right. apply in_or_app. now left.
Qed.

Lemma pages_text_blank (pages : list page) :
  forall page_num text,
    pages_text page_num (map blank_if_raises pages) text
    = pages_text page_num pages text.
Proof.
  induction pages as [|p pages IH]; intros n text; [reflexivity|].
  destruct p as [t|]; cbn [map blank_if_raises pages_text]; apply IH.
Qed.

Lemma pdf_raw_class (pages : list page) :
  Forall (fun c => isspace c = true -> c = 32)
    (re_sub_plus isspace 32 (pages_text 0 pages [])).
Proof. apply sub_runs_class. Qed.

Lemma pdf_newlines_unchanged (pages : list page) :
  re_sub_plus (fun c => c =? 10) 10
    (re_sub_plus isspace 32 (pages_text 0 pages []))
  = re_sub_plus isspace 32 (pages_text 0 pages []).
Proof.
  apply sub_runs_unchanged.
  eapply Forall_impl; [|apply pdf_raw_class].
  cbn beta. intros c Hc. destruct (Z.eqb_spec c 10) as [->|]; [|reflexivity].
  specialize (Hc eq_refl). discriminate Hc.
Qed.

(** The shape of an extracted text. *)
Lemma pdf_text_shape (pages : option (list page)) (text : str) :
  extract_text_from_pdf pages = Some text ->
  Forall (fun c => isspace c = true -> c = 32) text
  /\ single_spaced text = true
  /\ strip text = text.
Proof.
  destruct pages as [pages|]; [|discriminate].
  unfold extract_text_from_pdf. rewrite pdf_newlines_unchanged.
  intros [= <-]. split; [|split].
  - pose proof (pdf_raw_class pages) as Hclass.
    rewrite Forall_forall in *. intros c Hc.
    apply Hclass. eapply infix_in; [apply strip_infix | exact Hc].
  - apply single_spaced_strip. apply (sub_runs_single_spaced _ false).
  - apply strip_idem.
Qed.

(** X7: the text that [extract_text_from_pdf] returns has no whitespace but
    single spaces between other characters: every whitespace character of it
    is a space, no two are consecutive, and none is at either end.  It holds
    no newline, and the second substitution, of runs of newlines, changes
    nothing. *)
Theorem extract_text_from_pdf_normalised :
  forall (pages : list page),
    let raw := re_sub_plus isspace 32 (pages_text 0 pages []) in
    re_sub_plus (fun c => c =? 10) 10 raw = raw
    /\ exists text,
        extract_text_from_pdf (Some pages) = Some text
        /\ text = strip raw
        /\ Forall (fun c => isspace c = true -> c = 32) text
        /\ ~ In 10 text
        /\ single_spaced text = true
        /\ strip text = text.
Proof.
  intros pages raw.
  split; [apply pdf_newlines_unchanged|].
  assert (E : extract_text_from_pdf (Some pages) = Some (strip raw)).
  { unfold extract_text_from_pdf. now rewrite pdf_newlines_unchanged. }
  destruct (pdf_text_shape _ _ E) as (Hc & Hs & Hi).
  exists (strip raw). repeat split; try assumption.
  intros H. rewrite Forall_forall in Hc.
  specialize (Hc 10 H eq_refl). discriminate Hc.
Qed.

(** X8: a page whose extraction raises is treated as a page without text:
    the document is extracted all the same, with the same result, and the
    pages after it keep their numbers. *)
Theorem extract_text_from_pdf_failing_page :
  forall (pages : list page),
    extract_text_from_pdf (Some (map blank_if_raises pages))
    = extract_text_from_pdf (Some pages)
    /\ extract_text_from_pdf (Some pages) <> None.
Proof.
  intros pages. unfold extract_text_from_pdf.
  rewrite pages_text_blank. split; [reflexivity | discriminate].
Qed.

Example extract_text_from_pdf_sample :
  extract_text_from_pdf
    (Some [PageText (py "Section 1.  Short   title."); PageRaises;
           PageText []; PageText [83; 101; 99; 46; 10; 10; 50; 46]])
  = Some (py "[Page 1] Section 1. Short title. [Page 4] Sec. 2.").
Proof. vm_compute. reflexivity. Qed.


(** *** PDF pipeline: extraction, then chunking *)

Lemma lstrip_single_spaced_length (s : str) :
  single_spaced s = true -> len s - 1 <= len (lstrip s).
Proof.
  destruct s as [|c s]; intros H; cbn [lstrip]; [unfold len; cbn; lia|].
  destruct (isspace c) eqn:Ec; [|lia].
  destruct s as [|d s']; [unfold len; cbn; lia|].
  cbn [single_spaced] in H. apply andb_prop in H as [H _].
  rewrite Ec in H. cbn [andb] in H. apply negb_true_iff in H.
  cbn [lstrip]. rewrite H. unfold len. cbn [length]. lia.
Qed.

(** Stripping a text without runs of whitespace removes at most one
    character at each end. *)
Lemma strip_single_spaced_length (s : str) :
  single_spaced s = true -> len s - 2 <= len (strip s).
Proof.
  intros H. unfold strip, rstrip.
  pose proof (lstrip_single_spaced_length s H) as H1.
  pose proof (lstrip_single_spaced_length (rev (lstrip s))
                (single_spaced_rev _ (single_spaced_lstrip _ H))) as H2.
  unfold len in *. rewrite !length_rev in *. lia.
Qed.

Lemma slice_length_exact (s : str) (a b : Z) :
  0 <= a <= len s -> 0 <= b ->
  len (slice s a b) = Z.max 0 (Z.min b (len s) - a).
Proof.
  intros Ha Hb. unfold slice, adjust, len in *.
  rewrite length_firstn, length_skipn.
  destruct (Z.ltb_spec a 0); [lia|].
  destruct (Z.ltb_spec b 0); lia.
Qed.

Lemma single_spaced_slice (s : str) (a b : Z) :
  single_spaced s = true -> single_spaced (slice s a b) = true.
Proof.
  intros H. unfold slice.
  now apply single_spaced_firstn, single_spaced_skipn.
Qed.

Lemma iteration_kept_eq (V : variant) (text : str) (cs ov start : Z) :
  let w := iteration V text cs ov start in
  w_kept w
  = truthy (strip (slice text start (w_end w)))
    && (len (strip (slice text start (w_end w))) >? min_len V).
Proof. reflexivity. Qed.

(** A window of the PDF loop over an extracted text of more than 100
    characters is kept. *)
Lemma pdf_window_kept (text : str) (w : window) :
  single_spaced text = true -> strip text = text -> 100 < len text ->
  0 <= w_start w < len text ->
  w_start w = 0 \/ w_start w + 300 < len text ->
  w_start w + 1500 - 200 <= w_end w ->
  w = iteration pdf text 1500 300 (w_start w) ->
  w_kept w = true.
Proof.
  intros Hss Hst Hlen Hs Hq He Hw.
  rewrite Hw, iteration_kept_eq. rewrite <- Hw.
  set (c := strip (slice text (w_start w) (w_end w))).
  assert (Hc : 100 < len c).
  { unfold c.
    destruct (Z.lt_ge_cases (Z.min (w_end w) (len text) - w_start w) 103)
      as [Hsmall|Hbig].
    - assert (H0 : w_start w = 0) by lia.
      rewrite H0, slice_whole by lia. now rewrite Hst.
    - pose proof (strip_single_spaced_length _
                    (single_spaced_slice text (w_start w) (w_end w) Hss)).
      rewrite slice_length_exact in H by lia. lia. }
  destruct c as [|x c']; [unfold len in Hc; cbn in Hc; lia|].
  cbn [truthy andb min_len pdf].
  destruct (Z.gtb_spec (len (x :: c')) 100); [reflexivity | lia].
Qed.

(** X9: in the PDF pipeline no window is dropped: for a text returned by
    [extract_text_from_pdf] that has more than 100 characters, every
    iteration of [chunk_text] yields a chunk, there is at least one, and the
    spans of the chunks cover every offset of the text. *)
Theorem pdf_pipeline_keeps_every_window :
  forall (pages : option (list page)) (text : str),
    extract_text_from_pdf pages = Some text ->
    100 < len text ->
    exists ws,
      windows pdf (S (length text)) text 1500 300 0 = Some ws
      /\ ws <> []
      /\ pdf_chunk_text (S (length text)) text = Some (map w_chunk ws)
      /\ (forall i, 0 <= i < len text -> Exists (fun w => covers w i) ws).
Proof.
  intros pages text Hx Hlen.
  destruct (pdf_text_shape _ _ Hx) as (_ & Hss & Hst).
  destruct (chunk_text_trace pdf 200 200 pdf_snap_bounds text 1500 300 0)
    as (ws & Hws & Hct & _ & Hcov); try lia.
  rewrite Nat.add_0_r in Hws, Hct.
  exists ws. split; [exact Hws|].
  split.
  { intros ->. specialize (Hcov 0 ltac:(lia)). inversion Hcov. }
  split; [|exact Hcov].
  unfold pdf_chunk_text. rewrite Hct. do 2 f_equal.
  apply filter_all. apply forallb_forall. intros w Hin.
  destruct (windows_steps pdf 200 200 pdf_snap_bounds text 1500 300
              ltac:(lia) ltac:(lia) ltac:(lia) ltac:(lia)
              _ 0 ws (Z.le_refl 0) Hws) as [Hall _].
  rewrite Forall_forall in Hall.
  destruct (Hall w Hin) as (H1 & H2 & H3 & H4).
  now apply (pdf_window_kept text w).
Qed.

Lemma pdf_pipeline_keeps_every_window_witness :
  extract_text_from_pdf (Some [PageText (repeat 97 120)])
  = Some (py "[Page 1] " ++ repeat 97 120)
  /\ 100 < len (py "[Page 1] " ++ repeat 97 120)
  /\ pdf_chunk_text (S (length (py "[Page 1] " ++ repeat 97 120)))
       (py "[Page 1] " ++ repeat 97 120)
     <> Some [].
Proof.
  assert (H1 : extract_text_from_pdf (Some [PageText (repeat 97 120)])
               = Some (py "[Page 1] " ++ repeat 97 120))
    by (vm_compute; reflexivity).
  assert (H2 : 100 < len (py "[Page 1] " ++ repeat 97 120))
    by (vm_compute; reflexivity).
  split; [exact H1|]. split; [exact H2|].
  destruct (pdf_pipeline_keeps_every_window _ _ H1 H2)
    as (ws & _ & Hne & Hc & _).
  rewrite Hc. destruct ws; [contradiction | discriminate].
Defined.

(** *** HTML extractor: the text it returns *)

Lemma split_nonempty (sep : char) (s : str) : split sep s <> [].
Proof.
  induction s as [|c s IH]; cbn [split]; [discriminate|].
  destruct (c =? sep); [discriminate|].
  destruct (split sep s); discriminate.
Qed.

Lemma split_no_sep (sep : char) (s : str) :
  Forall (fun l => ~ In sep l) (split sep s).
Proof.
  induction s as [|c s IH]; cbn [split].
  - constructor; [intros [] | constructor].
  - destruct (Z.eqb_spec c sep) as [->|Hne].
    + constructor; [intros [] | exact IH].
    + destruct (split sep s) as [|l ls]; [repeat constructor; intros [H|[]]; auto|].
      inversion IH as [|? ? Hl Hls]; subst.
      constructor; [|exact Hls]. intros [H|H]; [auto | now apply Hl].
Qed.

Lemma split_line (sep : char) (x : str) :
  ~ In sep x -> split sep x = [x].
Proof.
  induction x as [|c x IH]; intros H; cbn [split]; [reflexivity|].
  destruct (Z.eqb_spec c sep) as [->|Hne]; [exfalso; apply H; now left|].
  rewrite IH; [reflexivity|]. intros Hin. apply H. now right.
Qed.

Lemma split_line_sep (sep : char) (x rest : str) :
  ~ In sep x -> split sep (x ++ sep :: rest) = x :: split sep rest.
Proof.
  induction x as [|c x IH]; intros H; cbn [split app].
  - now rewrite Z.eqb_refl.
  - destruct (Z.eqb_spec c sep) as [->|Hne]; [exfalso; apply H; now left|].
    rewrite IH; [reflexivity|]. intros Hin. apply H. now right.
Qed.

(** Splitting the joined lines gives the lines back. *)
Lemma split_join (sep : char) (ls : list str) :
  ls <> [] -> Forall (fun l => ~ In sep l) ls ->
  split sep (join [sep] ls) = ls.
Proof.
  induction ls as [|x ls IH]; intros Hne H; [contradiction|].
  inversion H as [|? ? Hx Hls]; subst.
  destruct ls as [|y ls'].
  - cbn [join]. now apply split_line.
  - change (join [sep] (x :: y :: ls'))
      with (x ++ sep :: join [sep] (y :: ls')).
    rewrite split_line_sep by exact Hx.
    f_equal. apply IH; [discriminate | exact Hls].
Qed.

Lemma clean_lines_shape (text : str) :
  Forall (fun l => l <> [] /\ strip l = l /\ ~ In 10 l)
    (filter truthy (map strip (split 10 text))).
Proof.
  apply Forall_forall. intros l Hl.
  apply filter_In in Hl as [Hin Ht].
  apply in_map_iff in Hin as (l0 & <- & Hl0).
  split; [intros E; rewrite E in Ht; discriminate Ht|].
  split; [apply strip_idem|].
  intros H10. pose proof (split_no_sep 10 text) as Hns.
  rewrite Forall_forall in Hns. apply (Hns l0 Hl0).
  eapply infix_in; [apply strip_infix | exact H10].
Qed.

Lemma clean_lines_fixed (ls : list str) :
  Forall (fun l => l <> [] /\ strip l = l /\ ~ In 10 l) ls ->
  filter truthy (map strip ls) = ls.
Proof.
  induction 1 as [|l ls (Hne & Hs & _) _ IH]; [reflexivity|].
  cbn [map filter]. rewrite Hs.
  destruct l; [contradiction|]. cbn [truthy]. now rewrite IH.
Qed.

(** X10: the text that [extract_text_from_html] returns has no blank line and
    no line that starts or ends with whitespace, and cleaning it again, by
    splitting it into lines, stripping them, dropping the empty ones and
    joining them, gives it back. *)
Theorem extract_text_lines :
  forall (f : html_file) (x : extracted),
    extract_text_from_html f = Some x ->
    (x_text x <> [] ->
     Forall (fun line => line <> [] /\ strip line = line)
       (split 10 (x_text x)))
    /\ join [10] (filter truthy (map strip (split 10 (x_text x))))
       = x_text x.
Proof.
  intros f x H. unfold extract_text_from_html in H.
  destruct (hf_soup f) as [sp|]; [|discriminate].
  injection H as <-. cbn [x_text].
  pose proof (clean_lines_shape (soup_text sp)) as Hshape.
  set (ls := filter truthy (map strip (split 10 (soup_text sp)))) in *.
  destruct ls as [|l ls'] eqn:E.
  - split; [intros Hne; now contradiction Hne | reflexivity].
  - rewrite <- E in *.
    assert (Hsplit : split 10 (join [10] ls) = ls).
    { apply split_join; [rewrite E; discriminate|].
      eapply Forall_impl; [|exact Hshape]. cbn beta. now intros a (_ & _ & Ha). }
    rewrite Hsplit. split.
    + intros _. eapply Forall_impl; [|exact Hshape].
      cbn beta. now intros a (H1 & H2 & _).
    + now rewrite clean_lines_fixed.
Qed.

Lemma extract_text_lines_witness :
  exists x,
    extract_text_from_html
      {| hf_path := Path (py "texas") (py "a.html");
         hf_soup := Some {| soup_text := [32; 97; 32; 10; 10; 9; 10; 98; 32];
                            soup_title := None |} |} = Some x
    /\ x_text x = [97; 10; 98]
    /\ join [10] (filter truthy (map strip (split 10 (x_text x)))) = x_text x.
Proof.
  eexists. split; [reflexivity|]. split; [reflexivity|].
  match goal with
  | |- join _ (filter _ (map _ (split _ (x_text ?x)))) = _ =>
      exact (proj2 (extract_text_lines
                      {| hf_path := Path (py "texas") (py "a.html");
                         hf_soup := Some {| soup_text :=
                                              [32; 97; 32; 10; 10; 9; 10; 98; 32];
                                            soup_title := None |} |}
                      x eq_refl))
  end.
Defined.

(** *** Listings *)

Lemma endswith_html_not_htm (s : str) :
  endswith s (py ".html") = true -> endswith s (py ".htm") = false.
Proof.
  unfold endswith. change (rev (py ".html")) with [108; 109; 116; 104; 46].
  change (rev (py ".htm")) with [109; 116; 104; 46].
  destruct (rev s) as [|c r]; [discriminate|].
  cbn [startswith].
  destruct (Z.eqb_spec c 108) as [->|]; [|discriminate].
  reflexivity.
Qed.

(** X11: a file name matches at most one of the two patterns, [*.html] and
    [*.htm]: when the listing of a state folder has no entry twice, neither
    has the list of files to process. *)
Theorem html_files_no_duplicate :
  forall state_path : entry,
    NoDup (e_children state_path) -> NoDup (html_files state_path).
Proof.
  intros state_path Hnd. unfold html_files, glob.
  induction (e_children state_path) as [|f fs IH]; [constructor|].
  inversion Hnd as [|? ? Hf Hfs]; subst. specialize (IH Hfs).
  cbn [filter].
  destruct (endswith (name (hf_path f)) (py ".html")) eqn:E1.
  - rewrite (endswith_html_not_htm _ E1).
    cbn [app]. constructor; [|exact IH].
    intros Hin. apply in_app_or in Hin as [Hin|Hin];
      apply filter_In in Hin as [Hin _]; contradiction.
  - destruct (endswith (name (hf_path f)) (py ".htm")) eqn:E2; [|exact IH].
    apply NoDup_Add with (a := f)
      (l := filter (fun f => endswith (name (hf_path f)) (py ".html")) fs
            ++ filter (fun f => endswith (name (hf_path f)) (py ".htm")) fs).
    + apply Add_app.
    + split; [exact IH|].
      intros Hin. apply in_app_or in Hin as [Hin|Hin];
        apply filter_In in Hin as [Hin _]; contradiction.
Qed.

Lemma html_files_no_duplicate_witness :
  NoDup (e_children texas_51) /\ NoDup (html_files texas_51).
Proof.
  assert (H : NoDup (e_children texas_51)).
  { unfold texas_51. cbn [e_children].
    apply Injective_map_NoDup; [|apply seq_NoDup].
    intros a b E. injection E as E. apply app_inv_tail in E.
    apply of_int_inj in E. lia. }
  split; [exact H | exact (html_files_no_duplicate texas_51 H)].
Defined.

(** *** Orchestrator: the order of the folders *)

Lemma str_leb_total (a b : str) : str_leb a b = false -> str_leb b a = true.
Proof.
  revert b. induction a as [|x a IH]; intros [|y b]; cbn [str_leb];
    try discriminate; try reflexivity.
  intros H. apply orb_false_iff in H as [H1 H2].
  apply Z.ltb_ge in H1.
  destruct (Z.ltb_spec y x) as [|Hge]; [reflexivity|].
  assert (x = y) by lia. subst y.
  rewrite Z.eqb_refl in *. cbn [andb orb] in *. now apply IH.
Qed.

Lemma insert_sorted_HdRel (g f : entry) (l : list entry) :
  HdRel name_le g l -> name_le g f -> HdRel name_le g (insert_sorted f l).
Proof.
  intros Hl Hf. destruct l as [|h l]; cbn [insert_sorted].
  - now constructor.
  - destruct (str_leb (name (e_path f)) (name (e_path h))).
    + now constructor.
    + constructor. now inversion Hl.
Qed.

Lemma insert_sorted_Sorted (f : entry) (l : list entry) :
  Sorted name_le l -> Sorted name_le (insert_sorted f l).
Proof.
  induction 1 as [|g l Hs IH Hh]; cbn [insert_sorted].
  - repeat constructor.
  - destruct (str_leb (name (e_path f)) (name (e_path g))) eqn:E.
    + constructor; [now constructor | now constructor].
    + constructor; [exact IH|].
      apply insert_sorted_HdRel; [exact Hh|].
      now apply str_leb_total.
Qed.

Lemma sorted_Sorted (l : list entry) : Sorted name_le (sorted l).
Proof.
  induction l as [|f l IH]; cbn; [constructor|].
  now apply insert_sorted_Sorted.
Qed.

Lemma insert_sorted_Permutation (f : entry) (l : list entry) :
  Permutation (insert_sorted f l) (f :: l).
Proof.
  induction l as [|g l IH]; cbn [insert_sorted]; [reflexivity|].
  destruct (str_leb (name (e_path f)) (name (e_path g))); [reflexivity|].
  rewrite IH. apply perm_swap.
Qed.

Lemma sorted_Permutation (l : list entry) : Permutation (sorted l) l.
Proof.
  induction l as [|f l IH]; cbn; [reflexivity|].
  rewrite insert_sorted_Permutation. now constructor.
Qed.

(** X12: when a run of [process_all_states] completes, it has handed to
    [process_state_folder] each entry that passes its filter exactly once,
    in the order of the code points of the names, which is the order of
    [sorted] on POSIX paths, whether the runs of the folders before
    returned or were left by an exception. *)
Theorem process_all_states_order :
  forall (Store : Type)
         (coll_add : Store -> list str -> list html_metadata -> list str
                     -> Store * bool)
         (lower : str -> str) (root : list entry) (s : Store)
         (r : all_states Store),
    process_all_states Store coll_add lower root s = Some r ->
    as_visited Store r = sorted (state_folders root)
    /\ Sorted name_le (as_visited Store r)
    /\ Permutation (as_visited Store r) (state_folders root).
Proof.
  intros Store coll_add lower root s r Hr.
  assert (Hv : as_visited Store r = sorted (state_folders root)).
  { unfold process_all_states in Hr.
    destruct (state_folders root) as [|f fs] eqn:E; cbn [nonempty negb] in Hr.
    - now injection Hr as <-.
    - destruct (for_state_folders_visits Store coll_add lower
                  (sorted (f :: fs))
                  {| as_store := s; as_calls := []; as_visited := [] |})
        as (r' & Hr' & Hv).
      rewrite Hr' in Hr. injection Hr as <-. exact Hv. }
  split; [exact Hv|]. rewrite Hv.
  split; [apply sorted_Sorted | apply sorted_Permutation].
Qed.

Lemma process_all_states_order_witness :
  exists r,
    process_all_states Z failing_add ascii_lower two_states_root 0 = Some r
    /\ map (fun f => name (e_path f)) (as_visited Z r)
       = [py "Texas"; py "Utah"]
    /\ Sorted name_le (as_visited Z r)
    /\ Permutation (as_visited Z r) (state_folders two_states_root).
Proof.
  eexists. split; [vm_compute; reflexivity|].
  split; [reflexivity|].
  apply (process_all_states_order Z failing_add ascii_lower two_states_root
           0).
  vm_compute. reflexivity.
Defined.

(** *** Batch loader: calls, counters and contents *)

Section LoaderMore.

Variable M : Type.
Variable Store : Type.
Variable coll_add : Store -> list str -> list M -> list str -> Store * bool.
Variable bs : Z.

Lemma final_flush_fields (st : loader M Store) :
  total_chunks (final_flush coll_add st) = total_chunks st
  /\ files_processed (final_flush coll_add st) = files_processed st
  /\ files_skipped (final_flush coll_add st) = files_skipped st
  /\ calls (final_flush coll_add st)
     = calls st
       ++ (if nonempty (documents st)
           then [Batch (documents st) (metadatas st) (ids st)] else []).
Proof.
  unfold final_flush. destruct (nonempty (documents st)).
  - destruct (coll_add _ _ _ _) as [s' ok]. cbn. repeat split.
  - cbn. now rewrite app_nil_r.
Qed.

Lemma add_record_fields (st : loader M Store) (chunk : str) (meta : M)
    (id : str) :
  let st' := add_record coll_add bs st chunk meta id in
  files_processed st' = files_processed st
  /\ files_skipped st' = files_skipped st
  /\ total_chunks st' = total_chunks st + 1
  /\ sent_or_buffered st' = sent_or_buffered st ++ [chunk].
Proof.
  unfold add_record.
  destruct (len (documents (append_record st chunk meta id)) >=? bs).
  - rewrite flush_clears. unfold sent_or_buffered. cbn.
    rewrite map_app, concat_app. cbn.
    rewrite !app_nil_r. repeat split. now rewrite app_assoc.
  - unfold sent_or_buffered. cbn. repeat split. now rewrite app_assoc.
Qed.

Lemma add_chunks_returned (mk : Z -> option (str * M)) (chunks : list str) :
  forall (st st' : loader M Store) (idx : Z),
    add_chunks coll_add mk bs st idx chunks = Returned st' ->
    files_processed st' = files_processed st
    /\ files_skipped st' = files_skipped st
    /\ total_chunks st' = total_chunks st + len chunks
    /\ sent_or_buffered st' = sent_or_buffered st ++ chunks.
Proof.
  induction chunks as [|chunk rest IH]; intros st st' idx H;
    cbn [add_chunks] in H.
  - injection H as <-. unfold len. cbn. rewrite app_nil_r.
    repeat split; lia.
  - destruct (mk idx) as [[id meta]|]; [|discriminate].
    apply IH in H as (H1 & H2 & H3 & H4).
    destruct (add_record_fields st chunk meta id) as (R1 & R2 & R3 & R4).
    rewrite H1, H2, H3, H4, R1, R2, R3, R4.
    repeat split.
    + unfold len. cbn [length]. lia.
    + now rewrite <- app_assoc.
Qed.

Lemma final_flush_sent (st : loader M Store) :
  concat (map b_documents (calls (final_flush coll_add st)))
  = sent_or_buffered st.
Proof.
  destruct (final_flush_fields st) as (_ & _ & _ & ->).
  unfold sent_or_buffered. rewrite map_app, concat_app.
  destruct (documents st); cbn; now rewrite ?app_nil_r.
Qed.

(** The loop over the files, when every file adds its chunks. *)
Lemma for_files_returned {F : Type}
    (body : loader M Store -> F -> outcome (loader M Store))
    (chunks_of : F -> list str) (files : list F) :
  (forall st f st',
      body st f = Returned st' ->
      files_processed st' + files_skipped st'
      = files_processed st + files_skipped st + 1
      /\ total_chunks st' = total_chunks st + len (chunks_of f)
      /\ sent_or_buffered st' = sent_or_buffered st ++ chunks_of f) ->
  forall st st',
    for_files body st files = Returned st' ->
    files_processed st' + files_skipped st'
    = files_processed st + files_skipped st + len files
    /\ total_chunks st' = total_chunks st + len (flat_map chunks_of files)
    /\ sent_or_buffered st'
       = sent_or_buffered st ++ flat_map chunks_of files.
Proof.
  intros Hbody. induction files as [|f files IH]; intros st st' H;
    cbn [for_files] in H.
  - injection H as <-. unfold len. cbn. rewrite app_nil_r.
    repeat split; lia.
  - destruct (body st f) as [st1|st1|] eqn:E; try discriminate.
    apply Hbody in E as (E1 & E2 & E3).
    apply IH in H as (H1 & H2 & H3).
    cbn [flat_map]. rewrite H1, H2, H3, E1, E2, E3.
    unfold len. rewrite !length_app. cbn [length].
    repeat split; try lia. now rewrite app_assoc.
Qed.

(** Calls made so far, and the call of the final flush. *)
Lemma batched_calls (st : loader M Store) :
  1 <= bs -> batched bs st -> Forall (well_formed_call bs) (calls st).
Proof.
  intros Hbs (_ & _ & _ & Hc & _).
  eapply Forall_impl; [|exact Hc].
  cbn beta. intros b (H1 & H2 & H3). unfold well_formed_call.
  repeat split; try lia.
  intros E. rewrite E in H1. unfold len in H1. cbn in H1. lia.
Qed.

Lemma final_flush_calls (st : loader M Store) :
  1 <= bs -> batched bs st ->
  Forall (well_formed_call bs) (calls (final_flush coll_add st)).
Proof.
  intros Hbs Hb. pose proof (batched_calls st Hbs Hb) as Hc.
  destruct Hb as (Hd & Hm & Hi & _ & _).
  destruct (final_flush_fields st) as (_ & _ & _ & ->).
  apply Forall_app. split; [exact Hc|].
  destruct (documents st) as [|d ds] eqn:E; cbn [nonempty]; [constructor|].
  constructor; [|constructor].
  unfold well_formed_call. cbn [b_documents b_metadatas b_ids].
  repeat split; try lia. discriminate.
Qed.

(** Ids and metadata stay paired. *)
Variable R : str -> M -> Prop.

Lemma paired_add_record (st : loader M Store) (chunk : str) (meta : M)
    (id : str) :
  R id meta -> paired R st ->
  paired R (add_record coll_add bs st chunk meta id).
Proof.
  intros Hr [Hb Hc]. unfold add_record.
  assert (Hnew : Forall2 R (ids st ++ [id]) (metadatas st ++ [meta])).
  { apply Forall2_app; [exact Hb | now repeat constructor]. }
  destruct (len (documents (append_record st chunk meta id)) >=? bs).
  - rewrite flush_clears. split; cbn; [constructor|].
    apply Forall_app. split; [exact Hc|]. now repeat constructor.
  - split; cbn; assumption.
Qed.

Lemma paired_add_chunks (mk : Z -> option (str * M)) (chunks : list str) :
  forall (st : loader M Store) (idx : Z),
    (forall k id meta,
        idx <= k < idx + len chunks -> mk k = Some (id, meta) -> R id meta) ->
    paired R st ->
    outcome_holds (paired R) (add_chunks coll_add mk bs st idx chunks).
Proof.
  induction chunks as [|chunk rest IH]; intros st idx Hmk Hst;
    cbn [add_chunks]; [exact Hst|].
  assert (Hlen : len (chunk :: rest) = len rest + 1)
    by (unfold len; cbn [length]; lia).
  pose proof (len_nonneg rest) as Hn.
  destruct (mk idx) as [[id meta]|] eqn:E; [|exact Hst].
  apply IH.
  - intros k id' meta' Hk. apply Hmk. lia.
  - apply paired_add_record; [|exact Hst].
    apply (Hmk idx); [lia | exact E].
Qed.

Lemma paired_final_flush (st : loader M Store) :
  paired R st -> paired R (final_flush coll_add st).
Proof.
  intros [Hb Hc]. split.
  - unfold final_flush. destruct (nonempty (documents st)); [|exact Hb].
    now destruct (coll_add _ _ _ _).
  - destruct (final_flush_fields st) as (_ & _ & _ & ->).
    apply Forall_app. split; [exact Hc|].
    destruct (nonempty (documents st)); now repeat constructor.
Qed.

End LoaderMore.

Lemma for_files_holds_in {F A : Type} (P : A -> Prop)
    (body : A -> F -> outcome A) (files : list F) :
  (forall st f, In f files -> P st -> outcome_holds P (body st f)) ->
  forall st, P st -> outcome_holds P (for_files body st files).
Proof.
  induction files as [|f files IH]; intros Hbody st Hst; [exact Hst|].
  cbn [for_files].
  pose proof (Hbody st f (or_introl eq_refl) Hst) as Hf.
  destruct (body st f) as [st'|st'|]; cbn in *; [|exact Hf|exact I].
  apply IH; [|exact Hf]. intros st0 g Hg. apply Hbody. now right.
Qed.

Lemma extract_file_fields (f : html_file) (x : extracted) :
  extract_text_from_html f = Some x ->
  x_file_name x = name (hf_path f) /\ x_file_path x = path_str (hf_path f).
Proof.
  unfold extract_text_from_html. destruct (hf_soup f); [|discriminate].
  intros [= <-]. split; reflexivity.
Qed.

Section HtmlRuns.

Variable Store : Type.
Variable coll_add :
  Store -> list str -> list html_metadata -> list str -> Store * bool.
Variable lower : str -> str.

Lemma process_html_file_returned (bs : Z) (state_name : str)
    (st st' : html_loader Store) (f : html_file) :
  process_html_file Store coll_add bs state_name st f = Returned st' ->
  files_processed st' + files_skipped st'
  = files_processed st + files_skipped st + 1
  /\ total_chunks st' = total_chunks st + len (html_file_chunks f)
  /\ sent_or_buffered st' = sent_or_buffered st ++ html_file_chunks f.
Proof.
  unfold process_html_file, html_file_chunks.
  assert (Hskip : forall l : list str,
             l = [] ->
             Returned (skip_file st) = Returned st' ->
             files_processed st' + files_skipped st'
             = files_processed st + files_skipped st + 1
             /\ total_chunks st' = total_chunks st + len l
             /\ sent_or_buffered st' = sent_or_buffered st ++ l).
  { intros l -> [= <-]. unfold sent_or_buffered, len. cbn.
    rewrite app_nil_r. repeat split; lia. }
  destruct (extract_text_from_html f) as [x|]; [|now apply Hskip].
  destruct (truthy (x_text x)); cbn [negb]; [|now apply Hskip].
  destruct (chunk_text html _ _ _ _) as [chunks|]; [|discriminate].
  destruct chunks as [|c chunks]; cbn [nonempty negb]; [now apply Hskip|].
  intros H. apply add_chunks_returned in H as (H1 & H2 & H3 & H4).
  rewrite H1, H2, H3, H4. unfold sent_or_buffered. cbn.
  repeat split; lia.
Qed.

Lemma process_state_folder_returned (state_path : entry) (bs : Z)
    (s : Store) (st : html_loader Store) :
  process_state_folder Store coll_add lower state_path bs s = Returned st ->
  files_processed st + files_skipped st = len (html_files state_path)
  /\ total_chunks st
     = len (flat_map html_file_chunks (html_files state_path))
  /\ concat (map b_documents (calls st))
     = flat_map html_file_chunks (html_files state_path).
Proof.
  unfold process_state_folder.
  destruct (html_files state_path) as [|f fs] eqn:E; cbn [nonempty negb].
  - intros [= <-]. repeat split.
  - destruct (for_files _ _ _) as [st0| |] eqn:Ef; try discriminate.
    intros [= <-].
    apply (for_files_returned html_metadata Store _ html_file_chunks)
      in Ef as (H1 & H2 & H3).
    2:{ intros a g a'. apply process_html_file_returned. }
    destruct (final_flush_fields html_metadata Store coll_add st0)
      as (F1 & F2 & F3 & _).
    rewrite F1, F2, F3, final_flush_sent, H1, H2, H3.
    unfold sent_or_buffered. cbn. repeat split; lia.
Qed.

Lemma process_state_folder_calls (bs : Z) (state_path : entry) (s : Store) :
  1 <= bs ->
  outcome_holds (fun st => Forall (well_formed_call bs) (calls st))
    (process_state_folder Store coll_add lower state_path bs s).
Proof.
  intros Hbs. unfold process_state_folder.
  destruct (negb (nonempty (html_files state_path))); [constructor|].
  pose proof (for_files_holds (batched bs)
                (process_html_file Store coll_add bs
                   (lower (name (e_path state_path))))
                (html_files state_path)
                (fun st f => process_html_file_batched Store coll_add bs
                               _ st f Hbs)
                (start_run s) (batched_start _ _ bs Hbs s)) as Hb.
  destruct (for_files _ _ _) as [st0|st0|]; cbn in *.
  - now apply final_flush_calls.
  - now apply batched_calls.
  - exact I.
Qed.

Lemma html_record_pairs (state_name : str) (files : list html_file)
    (f : html_file) (x : extracted) (chunks : list str) (k : Z)
    (id : str) (meta : html_metadata) :
  In f files -> extract_text_from_html f = Some x ->
  0 <= k < 0 + len chunks ->
  html_record state_name f x chunks k = Some (id, meta) ->
  html_id_of_metadata state_name files id meta.
Proof.
  intros Hin Hx Hk H. unfold html_record in H.
  destruct (generate_chunk_id _ _ _) as [cid|] eqn:E; [|discriminate].
  injection H as <- <-.
  destruct (extract_file_fields f x Hx) as [Hn Hp].
  unfold html_id_of_metadata. cbn. rewrite Hn.
  repeat split; try lia; try assumption.
  exists f. rewrite Hx. repeat split; assumption.
Qed.

Lemma process_state_folder_paired (state_path : entry) (bs : Z) (s : Store) :
  outcome_holds
    (paired (html_id_of_metadata (lower (name (e_path state_path)))
               (html_files state_path)))
    (process_state_folder Store coll_add lower state_path bs s).
Proof.
  unfold process_state_folder.
  set (R := html_id_of_metadata (lower (name (e_path state_path)))
              (html_files state_path)).
  assert (H0 : paired R (@start_run html_metadata Store s))
    by (split; constructor).
  destruct (negb (nonempty (html_files state_path))); [exact H0|].
  assert (Hb : outcome_holds (paired R)
                 (for_files
                    (process_html_file Store coll_add bs
                       (lower (name (e_path state_path))))
                    (start_run s) (html_files state_path))).
  { apply for_files_holds_in; [|exact H0].
    intros st f Hin Hst. unfold process_html_file.
    destruct (extract_text_from_html f) as [x|] eqn:Ex; [|exact Hst].
    destruct (negb (truthy (x_text x))); [exact Hst|].
    destruct (chunk_text html _ _ _ _) as [chunks|]; [|exact I].
    destruct (negb (nonempty chunks)); [exact Hst|].
    apply paired_add_chunks; [|exact Hst].
    intros k id meta Hk Hmk.
    now apply (html_record_pairs _ _ f x chunks k). }
  destruct (for_files _ _ _) as [st0|st0|]; cbn in *;
    [now apply paired_final_flush | exact Hb | exact I].
Qed.

End HtmlRuns.

Lemma replace_removes (a b : char) (s : str) :
  a <> b -> ~ In a (replace a b s).
Proof.
  intros Hab Hin. unfold replace in Hin. apply in_map_iff in Hin
    as (c & Hc & _).
  destruct (Z.eqb_spec c a); congruence.
Qed.

Lemma replace_keeps_out (a b d : char) (s : str) :
  d <> b -> ~ In d s -> ~ In d (replace a b s).
Proof.
  intros Hdb Hs Hin. unfold replace in Hin. apply in_map_iff in Hin
    as (c & Hc & Hi).
  destruct (Z.eqb_spec c a); [congruence|]. subst c. contradiction.
Qed.

Section PdfRuns.

Variable Store : Type.
Variable coll_add :
  Store -> list str -> list pdf_metadata -> list str -> Store * bool.

Lemma process_pdf_file_returned (bs : Z) (st st' : pdf_loader Store)
    (f : pdf_file) :
  process_pdf_file Store coll_add bs st f = Returned st' ->
  files_processed st' + files_skipped st'
  = files_processed st + files_skipped st + 1
  /\ total_chunks st' = total_chunks st + len (pdf_file_chunks f)
  /\ sent_or_buffered st' = sent_or_buffered st ++ pdf_file_chunks f.
Proof.
  unfold process_pdf_file, pdf_file_chunks.
  assert (Hskip : forall l : list str,
             l = [] ->
             Returned (skip_file st) = Returned st' ->
             files_processed st' + files_skipped st'
             = files_processed st + files_skipped st + 1
             /\ total_chunks st' = total_chunks st + len l
             /\ sent_or_buffered st' = sent_or_buffered st ++ l).
  { intros l -> [= <-]. unfold sent_or_buffered, len. cbn.
    rewrite app_nil_r. repeat split; lia. }
  destruct (pf_text f) as [text|]; [|now apply Hskip].
  destruct (truthy text); cbn [negb orb andb]; [|now apply Hskip].
  destruct (len text <? 100); cbn [negb]; [now apply Hskip|].
  destruct (chunk_text pdf _ _ _ _) as [chunks|]; [|discriminate].
  destruct chunks as [|c chunks]; cbn [nonempty negb]; [now apply Hskip|].
  intros H. apply add_chunks_returned in H as (H1 & H2 & H3 & H4).
  rewrite H1, H2, H3, H4. unfold sent_or_buffered. cbn.
  repeat split; lia.
Qed.

Lemma process_pdf_folder_returned (pdf_folder : pdf_dir) (bs : Z)
    (s : Store) (st : pdf_loader Store) :
  pd_exists pdf_folder = true ->
  process_pdf_folder Store coll_add pdf_folder bs s = Returned st ->
  files_processed st + files_skipped st = len (pdf_files pdf_folder)
  /\ total_chunks st
     = len (flat_map pdf_file_chunks (pdf_files pdf_folder))
  /\ concat (map b_documents (calls st))
     = flat_map pdf_file_chunks (pdf_files pdf_folder).
Proof.
  unfold process_pdf_folder. intros ->. cbn [negb].
  destruct (pdf_files pdf_folder) as [|f fs] eqn:E; cbn [nonempty negb].
  - intros [= <-]. repeat split.
  - destruct (for_files _ _ _) as [st0| |] eqn:Ef; try discriminate.
    intros [= <-].
    apply (for_files_returned pdf_metadata Store _ pdf_file_chunks)
      in Ef as (H1 & H2 & H3).
    2:{ intros a g a'. apply process_pdf_file_returned. }
    destruct (final_flush_fields pdf_metadata Store coll_add st0)
      as (F1 & F2 & F3 & _).
    rewrite F1, F2, F3, final_flush_sent, H1, H2, H3.
    unfold sent_or_buffered. cbn. repeat split; lia.
Qed.

Lemma process_pdf_folder_calls (bs : Z) (pdf_folder : pdf_dir) (s : Store) :
  1 <= bs ->
  outcome_holds (fun st => Forall (well_formed_call bs) (calls st))
    (process_pdf_folder Store coll_add pdf_folder bs s).
Proof.
  intros Hbs. unfold process_pdf_folder.
  destruct (negb (pd_exists pdf_folder)); [constructor|].
  destruct (negb (nonempty (pdf_files pdf_folder))); [constructor|].
  pose proof (for_files_holds (batched bs)
                (process_pdf_file Store coll_add bs)
                (pdf_files pdf_folder)
                (fun st f => process_pdf_file_batched Store coll_add bs
                               st f Hbs)
                (start_run s) (batched_start _ _ bs Hbs s)) as Hb.
  destruct (for_files _ _ _) as [st0|st0|]; cbn in *.
  - now apply final_flush_calls.
  - now apply batched_calls.
  - exact I.
Qed.

Lemma pdf_record_pairs (files : list pdf_file) (f : pdf_file)
    (chunks : list str) (k : Z) (id : str) (meta : pdf_metadata) :
  In f files -> 0 <= k < 0 + len chunks ->
  pdf_record f (replace 45 32 (replace 95 32 (stem (pf_path f)))) chunks k
  = Some (id, meta) ->
  pdf_id_of_metadata files id meta.
Proof.
  intros Hin Hk H. unfold pdf_record in H.
  destruct (pdf_chunk_id _ _) as [cid|] eqn:E; [|discriminate].
  injection H as <- <-.
  unfold pdf_id_of_metadata. cbn.
  repeat split; try lia; try assumption.
  exists f. repeat split; assumption.
Qed.

Lemma process_pdf_folder_paired (pdf_folder : pdf_dir) (bs : Z) (s : Store) :
  outcome_holds (paired (pdf_id_of_metadata (pdf_files pdf_folder)))
    (process_pdf_folder Store coll_add pdf_folder bs s).
Proof.
  unfold process_pdf_folder.
  set (R := pdf_id_of_metadata (pdf_files pdf_folder)).
  assert (H0 : paired R (@start_run pdf_metadata Store s))
    by (split; constructor).
  destruct (negb (pd_exists pdf_folder)); [exact H0|].
  destruct (negb (nonempty (pdf_files pdf_folder))); [exact H0|].
  assert (Hb : outcome_holds (paired R)
                 (for_files (process_pdf_file Store coll_add bs)
                    (start_run s) (pdf_files pdf_folder))).
  { apply for_files_holds_in; [|exact H0].
    intros st f Hin Hst. unfold process_pdf_file.
    destruct (pf_text f) as [text|]; [|exact Hst].
    destruct (negb (truthy text) || (len text <? 100)); [exact Hst|].
    destruct (chunk_text pdf _ _ _ _) as [chunks|]; [|exact I].
    destruct (negb (nonempty chunks)); [exact Hst|].
    apply paired_add_chunks; [|exact Hst].
    intros k id meta Hk Hmk.
    now apply (pdf_record_pairs _ f chunks k). }
  destruct (for_files _ _ _) as [st0|st0|]; cbn in *;
    [now apply paired_final_flush | exact Hb | exact I].
Qed.

End PdfRuns.

(** *** Folder runs *)

(** X13: when a folder run returns, every file of the listing has been
    counted once, as processed or as skipped, and the chunk counter is the
    number of chunks that [chunk_text] gives for the texts of the files; for
    the PDF pipeline, when the folder exists. *)
Theorem folder_run_counters :
  forall (Store : Type)
         (add_h : Store -> list str -> list html_metadata -> list str
                  -> Store * bool)
         (add_p : Store -> list str -> list pdf_metadata -> list str
                  -> Store * bool)
         (lower : str -> str) (state_path : entry) (pdf_folder : pdf_dir)
         (batch_size : Z) (s : Store),
    (forall st,
        process_state_folder Store add_h lower state_path batch_size s
        = Returned st ->
        files_processed st + files_skipped st = len (html_files state_path)
        /\ total_chunks st
           = len (flat_map html_file_chunks (html_files state_path)))
    /\ (forall st,
           pd_exists pdf_folder = true ->
           process_pdf_folder Store add_p pdf_folder batch_size s
           = Returned st ->
           files_processed st + files_skipped st
           = len (pdf_files pdf_folder)
           /\ total_chunks st
              = len (flat_map pdf_file_chunks (pdf_files pdf_folder))).
Proof.
  intros Store add_h add_p lower state_path pdf_folder bs s. split.
  - intros st H.
    destruct (process_state_folder_returned _ _ _ _ _ _ _ H) as (H1 & H2 & _).
    now split.
  - intros st He H.
    destruct (process_pdf_folder_returned _ _ _ _ _ _ He H) as (H1 & H2 & _).
    now split.
Qed.

Lemma folder_run_counters_witness :
  exists st,
    process_pdf_folder Z counting_add sample_pdf_dir 50 0 = Returned st
    /\ files_processed st = 1 /\ files_skipped st = 2
    /\ files_processed st + files_skipped st
       = len (pdf_files sample_pdf_dir)
    /\ total_chunks st
       = len (flat_map pdf_file_chunks (pdf_files sample_pdf_dir)).
Proof.
  eexists. split; [vm_compute; reflexivity|].
  split; [reflexivity|]. split; [reflexivity|].
  apply (proj2 (folder_run_counters Z counting_add counting_add ascii_lower
                  texas_51 sample_pdf_dir 50 0));
    [reflexivity | vm_compute; reflexivity].
Defined.



(** X15: with a batch size of at least 1, every call of [collection.add]
    made by a folder run, whether the run returns or is left by an
    exception, carries at least one and at most [batch_size] documents, and
    as many metadata and ids as documents. *)
Theorem folder_run_calls_well_formed :
  forall (Store : Type)
         (add_h : Store -> list str -> list html_metadata -> list str
                  -> Store * bool)
         (add_p : Store -> list str -> list pdf_metadata -> list str
                  -> Store * bool)
         (lower : str -> str) (state_path : entry) (pdf_folder : pdf_dir)
         (batch_size : Z) (s : Store),
    1 <= batch_size ->
    outcome_holds
      (fun st => Forall (well_formed_call batch_size) (calls st))
      (process_state_folder Store add_h lower state_path batch_size s)
    /\ outcome_holds
         (fun st => Forall (well_formed_call batch_size) (calls st))
         (process_pdf_folder Store add_p pdf_folder batch_size s).
Proof.
  intros Store add_h add_p lower state_path pdf_folder bs s Hbs. split.
  - now apply process_state_folder_calls.
  - now apply process_pdf_folder_calls.
Qed.

Lemma folder_run_calls_well_formed_witness :
  1 <= 7
  /\ outcome_holds (fun st => Forall (well_formed_call 7) (calls st))
       (process_state_folder Z counting_add ascii_lower
          texas_51_and_unencodable 7 0).
Proof.
  split; [lia|].
  exact (proj1 (folder_run_calls_well_formed Z counting_add counting_add
                  ascii_lower texas_51_and_unencodable sample_pdf_dir 7 0
                  ltac:(lia))).
Defined.

(** X16: every id handed to [collection.add] by a folder run is the id
    computed from the fields of the metadata at the same position: the
    state, the file name and the chunk index (the file name and the chunk
    index for a PDF); the file name and path are those of a file of the
    listing, the title is the one extracted from that file (for a PDF, its
    stem with underscores and hyphens turned into spaces), and the chunk
    index is below the total stored with it. *)
Theorem folder_run_ids_match_metadata :
  forall (Store : Type)
         (add_h : Store -> list str -> list html_metadata -> list str
                  -> Store * bool)
         (add_p : Store -> list str -> list pdf_metadata -> list str
                  -> Store * bool)
         (lower : str -> str) (state_path : entry) (pdf_folder : pdf_dir)
         (batch_size : Z) (s : Store),
    outcome_holds
      (paired (html_id_of_metadata (lower (name (e_path state_path)))
                 (html_files state_path)))
      (process_state_folder Store add_h lower state_path batch_size s)
    /\ outcome_holds
         (paired (pdf_id_of_metadata (pdf_files pdf_folder)))
         (process_pdf_folder Store add_p pdf_folder batch_size s).
Proof.
  intros Store add_h add_p lower state_path pdf_folder bs s. split.
  - apply process_state_folder_paired.
  - apply process_pdf_folder_paired.
Qed.

Lemma Forall2_right {A B : Type} (R : A -> B -> Prop) (P : B -> Prop)
    (l : list A) (l' : list B) :
  (forall a b, R a b -> P b) -> Forall2 R l l' -> Forall P l'.
Proof.
  intros HR H. induction H; constructor; eauto.
Qed.

(** X17: a search filtered by the name of a state folder, in any letter
    case, asks the collection for exactly the value that
    [process_state_folder] stored under the key state for every record of
    that folder; an empty filter, like no filter, searches all states. *)
Theorem search_cases_filter_matches_stored_state :
  forall (Store Results : Type)
         (coll_add : Store -> list str -> list html_metadata -> list str
                     -> Store * bool)
         (coll_query : Store -> list str -> Z -> option (list (str * str))
                       -> Results)
         (lower : str -> str) (state_path : entry) (batch_size : Z)
         (s s' : Store) (query : str) (n_results : Z),
    (forall state_filter,
        truthy state_filter = true ->
        lower state_filter = lower (name (e_path state_path)) ->
        exists v,
          search_cases Store Results coll_query lower s' query n_results
            (Some state_filter)
          = coll_query s' [query] n_results (Some [(py "state", v)])
          /\ outcome_holds (every_record (fun m => hm_state m = v))
               (process_state_folder Store coll_add lower state_path
                  batch_size s))
    /\ search_cases Store Results coll_query lower s' query n_results
         (Some [])
       = search_cases Store Results coll_query lower s' query n_results None.
Proof.
  intros Store Results coll_add coll_query lower state_path bs s s' query n.
  split; [|reflexivity].
  intros f Hf Hl. exists (lower (name (e_path state_path))). split.
  - unfold search_cases. now rewrite Hf, Hl.
  - pose proof (process_state_folder_paired Store coll_add lower state_path
                  bs s) as H.
    destruct (process_state_folder _ _ _ _ _ _) as [st|st|]; cbn in *;
      [| |exact I].
    all: destruct H as [_ H]; unfold every_record;
      eapply Forall_impl; [|exact H]; cbn beta; intros b Hb;
      eapply Forall2_right; [|exact Hb];
      now intros id m (_ & Hm & _).
Qed.

Lemma search_cases_filter_matches_stored_state_witness :
  exists v,
    search_cases Z (option (list (str * str)))
      (fun _ _ _ w => w) ascii_lower 0 (py "lease") 5 (Some (py "TEXAS"))
    = Some [(py "state", v)]
    /\ outcome_holds (every_record (fun m => hm_state m = v))
         (process_state_folder Z counting_add ascii_lower texas_51 50 0).
Proof.
  exact (proj1 (search_cases_filter_matches_stored_state
                  Z (option (list (str * str))) counting_add
                  (fun _ _ _ w => w) ascii_lower texas_51 50 0 0
                  (py "lease") 5)
           (py "TEXAS") eq_refl eq_refl).
Defined.

(** X18: a file that was read and whose text has at most 50 characters
    (HTML), at most 100 characters (PDF, of which the guard of the loop lets
    a text of exactly 100 through to [chunk_text]), is counted as skipped
    and adds no record, whatever the state of the run. *)
Theorem short_file_is_skipped :
  forall (Store : Type)
         (add_h : Store -> list str -> list html_metadata -> list str
                  -> Store * bool)
         (add_p : Store -> list str -> list pdf_metadata -> list str
                  -> Store * bool)
         (batch_size : Z) (state_name : str),
    (forall (f : html_file) (x : extracted) (st : html_loader Store),
        extract_text_from_html f = Some x ->
        len (x_text x) <= 50 ->
        process_html_file Store add_h batch_size state_name st f
        = Returned (skip_file st))
    /\ (forall (f : pdf_file) (text : str) (st : pdf_loader Store),
           pf_text f = Some text ->
           len text <= 100 ->
           process_pdf_file Store add_p batch_size st f
           = Returned (skip_file st)).
Proof.
  intros Store add_h add_p bs state_name. split.
  - intros f x st Hx H. unfold process_html_file. rewrite Hx.
    destruct (negb (truthy (x_text x))); [reflexivity|].
    destruct (html_chunk_text_returns (x_text x)) as [chunks E].
    unfold html_chunk_text in E. rewrite E.
    apply chunk_text_short in E; [|exact H]. now subst chunks.
  - intros f text st Ht H. unfold process_pdf_file. rewrite Ht.
    destruct (negb (truthy text) || (len text <? 100)); [reflexivity|].
    destruct (pdf_chunk_text_returns text) as [chunks E].
    unfold pdf_chunk_text in E. rewrite E.
    apply chunk_text_short in E; [|exact H]. now subst chunks.
Qed.

Lemma short_file_is_skipped_witness :
  process_pdf_file Z counting_add 50 (start_run 0)
    {| pf_path := Path (py "laws") (py "short.pdf");
       pf_text := Some (repeat 98 100) |}
  = Returned (skip_file (start_run 0)).
Proof.
  apply (proj2 (short_file_is_skipped Z counting_add counting_add 50
                  (py "texas")) _ (repeat 98 100));
    [reflexivity | vm_compute; discriminate].
Defined.

(** *** Titles *)

Lemma rfind_scan_last (s sub : str) (lo p : Z) (cnt : nat) :
  lo <= p < lo + Z.of_nat cnt ->
  occurs_at s sub p = true ->
  (forall q, p < q < lo + Z.of_nat cnt -> occurs_at s sub q = false) ->
  rfind_scan s sub lo cnt = p.
Proof.
  induction cnt as [|k IH]; intros Hp Ho Hq; [lia|].
  cbn [rfind_scan].
  destruct (Z.eq_dec p (lo + Z.of_nat k)) as [<-|Hne].
  - now rewrite Ho.
  - rewrite (Hq (lo + Z.of_nat k)) by lia.
    apply IH; [lia | exact Ho | intros q Hq'; apply Hq; lia].
Qed.

Lemma skipn_suffix {A : Type} (a b : list A) (k : nat) :
  skipn (length a + k) (a ++ b) = skipn k b.
Proof.
  induction a as [|x a IH]; [reflexivity|exact IH].
Qed.

Lemma occurs_at_dot_false (e : str) (k : nat) :
  ~ In 46 e -> startswith (skipn k e) (py ".") = false.
Proof.
  revert k. induction e as [|c e IH]; intros k Hn.
  - now destruct k.
  - destruct k as [|k].
    + cbn. destruct (Z.eqb_spec c 46); [|reflexivity].
      exfalso. apply Hn. now left.
    + cbn [skipn]. apply IH. intros H. apply Hn. now right.
Qed.

Lemma stem_of_suffixed (p : path) (base ext : str) :
  name p = base ++ 46 :: ext -> base <> [] -> ext <> [] -> ~ In 46 ext ->
  stem p = base.
Proof.
  intros Hn Hb He Hd. unfold stem. rewrite Hn.
  set (s := base ++ 46 :: ext).
  assert (Hlen : len s = len base + 1 + len ext).
  { unfold s, len. rewrite length_app. cbn [length]. lia. }
  assert (Hbl : 0 < len base).
  { unfold len. destruct base; [contradiction|cbn [length]; lia]. }
  assert (Hel : 0 < len ext).
  { unfold len. destruct ext; [contradiction|cbn [length]; lia]. }
  assert (Hr : rfind s (py ".") 0 (len s) = len base).
  { unfold rfind.
    destruct (Z.gtb_spec (len s) (len s)); [lia|].
    destruct (Z.ltb_spec (len s) 0); [lia|].
    change (0 <? 0) with false. cbv iota.
    apply rfind_scan_last.
    - change (len (py ".")) with 1. lia.
    - unfold occurs_at.
      replace (0 <=? len base) with true by (symmetry; apply Z.leb_le; lia).
      cbn [andb]. unfold len. rewrite Nat2Z.id. unfold s.
      rewrite <- (Nat.add_0_r (length base)), skipn_suffix. cbn.
      now destruct ext.
    - intros q Hq. change (len (py ".")) with 1 in Hq.
      unfold occurs_at.
      replace (0 <=? q) with true by (symmetry; apply Z.leb_le; lia).
      cbn [andb]. unfold s.
      replace (Z.to_nat q)
        with (length base + S (Z.to_nat (q - len base - 1)))%nat
        by (unfold len in *; lia).
      rewrite skipn_suffix. cbn [skipn].
      now apply occurs_at_dot_false. }
  rewrite Hr.
  replace (0 <? len base) with true by (symmetry; apply Z.ltb_lt; lia).
  replace (len base <? len s - 1) with true
    by (symmetry; apply Z.ltb_lt; lia).
  cbn [andb]. unfold slice, adjust.
  replace (0 <? 0) with false by reflexivity.
  replace (len base <? 0) with false by (symmetry; apply Z.ltb_ge; lia).
  rewrite Z.min_l by lia. rewrite Z.min_l by lia.
  cbn [Z.to_nat skipn]. rewrite Z.sub_0_r. unfold len. rewrite Nat2Z.id.
  unfold s. rewrite firstn_app, Nat.sub_diag, firstn_all. cbn [firstn].
  apply app_nil_r.
Qed.

(** X20: for a file named [base.ext], with a base that is not empty and an
    extension without a dot, an HTML document without a title element gets
    the title [base], and a PDF the law title [base] with its underscores
    and hyphens turned into spaces: a title of the same length, in which
    neither character is left. *)
Theorem titles_from_file_names :
  forall (base ext : str),
    base <> [] -> ext <> [] -> ~ In 46 ext ->
    (forall (f : html_file) (sp : soup),
        name (hf_path f) = base ++ py "." ++ ext ->
        hf_soup f = Some sp -> soup_title sp = None ->
        option_map x_title (extract_text_from_html f) = Some base)
    /\ (forall p : path,
           name p = base ++ py "." ++ ext ->
           law_title_of p = replace 45 32 (replace 95 32 base)
           /\ len (law_title_of p) = len base
           /\ ~ In 95 (law_title_of p) /\ ~ In 45 (law_title_of p)).
Proof.
  intros base ext Hb He Hd. split.
  - intros f sp Hn Hs Ht. unfold extract_text_from_html.
    rewrite Hs, Ht. cbn [option_map x_title].
    now rewrite (stem_of_suffixed _ base ext Hn).
  - intros p Hn. unfold law_title_of.
    rewrite (stem_of_suffixed _ base ext Hn) by assumption.
    split; [reflexivity|]. split.
    + unfold replace, len. now rewrite !length_map.
    + split.
      * apply replace_keeps_out; [lia|]. apply replace_removes. lia.
      * apply replace_removes. lia.
Qed.

Lemma titles_from_file_names_witness :
  law_title_of (Path (py "laws") (py "civil_rights-act.pdf"))
  = py "civil rights act".
Proof.
  apply (proj2 (titles_from_file_names (py "civil_rights-act") (py "pdf")
                  ltac:(discriminate) ltac:(discriminate)
                  ltac:(vm_compute; intuition discriminate))
           (Path (py "laws") (py "civil_rights-act.pdf")) eq_refl).
Defined.

(** *** Whole runs *)

Lemma for_state_folders_calls (Store : Type)
    (coll_add : Store -> list str -> list html_metadata -> list str
                -> Store * bool)
    (lower : str -> str) (Q : batch html_metadata -> Prop)
    (folders : list entry) :
  (forall folder s, In folder folders ->
     outcome_holds (fun st => Forall Q (calls st))
       (process_state_folder Store coll_add lower folder 50 s)) ->
  forall r r',
    Forall Q (as_calls Store r) ->
    for_state_folders Store coll_add lower folders r = Some r' ->
    Forall Q (as_calls Store r').
Proof.
  induction folders as [|folder rest IH]; intros Hq r r' Hr H;
    cbn [for_state_folders] in H.
  - now injection H as <-.
  - pose proof (Hq folder (as_store Store r) (or_introl eq_refl)) as Hf.
    assert (Hrest : forall g s, In g rest ->
              outcome_holds (fun st => Forall Q (calls st))
                (process_state_folder Store coll_add lower g 50 s))
      by (intros g s Hg; apply Hq; now right).
    destruct (process_state_folder _ _ _ _ _ _) as [st|st|];
      [| |discriminate]; cbn in Hf;
      (eapply (IH Hrest); [|exact H]); cbn [as_calls];
      apply Forall_app; now split.
Qed.

(** X21: every call of [collection.add] made during a whole run of
    [process_all_states] carries between 1 and 50 records, all of one state
    folder of the root that passes the filter, with ids that are those of
    their metadata. *)
Theorem process_all_states_calls :
  forall (Store : Type)
         (coll_add : Store -> list str -> list html_metadata -> list str
                     -> Store * bool)
         (lower : str -> str) (root : list entry) (s : Store)
         (r : all_states Store),
    process_all_states Store coll_add lower root s = Some r ->
    Forall (call_of_root lower root) (as_calls Store r).
Proof.
  intros Store coll_add lower root s r H. unfold process_all_states in H.
  destruct (negb (nonempty (state_folders root)));
    [injection H as <-; constructor|].
  eapply for_state_folders_calls; [| |exact H]; [|constructor].
  intros folder s0 Hin. apply (proj1 (in_sorted _ _)) in Hin.
  pose proof (process_state_folder_calls Store coll_add lower 50 folder s0
                ltac:(lia)) as Hw.
  pose proof (process_state_folder_paired Store coll_add lower folder 50 s0)
    as Hp.
  destruct (process_state_folder _ _ _ _ _ _) as [st|st|]; cbn in *;
    [| |exact I].
  all: destruct Hp as [_ Hp]; rewrite Forall_forall in *; intros b Hb;
    split; [now apply Hw|]; exists folder; split; [exact Hin|];
    now apply Hp.
Qed.

Lemma process_all_states_calls_witness :
  exists r,
    process_all_states Z counting_add ascii_lower sample_root 0 = Some r
    /\ map (fun b => len (b_documents b)) (as_calls Z r) = [50; 1]
    /\ Forall (call_of_root ascii_lower sample_root) (as_calls Z r).
Proof.
  eexists. split; [vm_compute; reflexivity|].
  split; [reflexivity|].
  apply (process_all_states_calls Z counting_add ascii_lower sample_root 0).
  vm_compute. reflexivity.
Defined.

(** *** Ids of a folder run *)

Section LoaderIds.

Variable M : Type.
Variable Store : Type.
Variable coll_add : Store -> list str -> list M -> list str -> Store * bool.
Variable bs : Z.

Lemma add_record_ids (st : loader M Store) (chunk : str) (meta : M)
    (id : str) :
  let st' := add_record coll_add bs st chunk meta id in
  ids_sent_or_buffered st' = ids_sent_or_buffered st ++ [id]
  /\ (len (ids st) = len (documents st) ->
      len (ids st') = len (documents st')).
Proof.
  unfold add_record.
  destruct (len (documents (append_record st chunk meta id)) >=? bs).
  - rewrite flush_clears. unfold ids_sent_or_buffered. cbn.
    rewrite map_app, concat_app. cbn.
    rewrite !app_nil_r. split; [now rewrite app_assoc | reflexivity].
  - unfold ids_sent_or_buffered. cbn. split; [now rewrite app_assoc|].
    unfold len. rewrite !length_app. cbn [length]. lia.
Qed.

Lemma add_chunks_ids (mk : Z -> option (str * M)) (chunks : list str) :
  forall (st st' : loader M Store) (idx : Z),
    add_chunks coll_add mk bs st idx chunks = Returned st' ->
    (len (ids st) = len (documents st) ->
     len (ids st') = len (documents st'))
    /\ exists l,
        ids_sent_or_buffered st' = ids_sent_or_buffered st ++ l
        /\ (chunks <> [] ->
            exists id meta rest, mk idx = Some (id, meta) /\ l = id :: rest).
Proof.
  induction chunks as [|chunk rest IH]; intros st st' idx H;
    cbn [add_chunks] in H.
  - injection H as <-. split; [exact (fun E => E)|].
    exists []. rewrite app_nil_r.
    split; [reflexivity | congruence].
  - destruct (mk idx) as [[id meta]|] eqn:E; [|discriminate].
    apply IH in H as (Hlen & l & Hl & _).
    destruct (add_record_ids st chunk meta id) as [Hi Hk].
    split; [auto|].
    exists (id :: l). split.
    + rewrite Hl, Hi, <- app_assoc. reflexivity.
    + intros _. now exists id, meta, l.
Qed.

Lemma final_flush_ids (st : loader M Store) :
  len (ids st) = len (documents st) ->
  concat (map b_ids (calls (final_flush coll_add st)))
  = ids_sent_or_buffered st.
Proof.
  intros Hlen.
  destruct (final_flush_fields M Store coll_add st) as (_ & _ & _ & ->).
  unfold ids_sent_or_buffered. rewrite map_app, concat_app.
  destruct (documents st) eqn:Ed; cbn; rewrite ?app_nil_r; [|reflexivity].
  destruct (ids st); [now rewrite app_nil_r|].
  unfold len in Hlen. cbn in Hlen. lia.
Qed.

Lemma for_files_ids {F : Type}
    (body : loader M Store -> F -> outcome (loader M Store))
    (P : F -> list str -> Prop) (files : list F) :
  (forall st f st',
      body st f = Returned st' ->
      (len (ids st) = len (documents st) ->
       len (ids st') = len (documents st'))
      /\ exists l, ids_sent_or_buffered st' = ids_sent_or_buffered st ++ l
                   /\ P f l) ->
  forall st st',
    for_files body st files = Returned st' ->
    (len (ids st) = len (documents st) ->
     len (ids st') = len (documents st'))
    /\ exists ls,
        Forall2 P files ls
        /\ ids_sent_or_buffered st' = ids_sent_or_buffered st ++ concat ls.
Proof.
  intros Hbody. induction files as [|f files IH]; intros st st' H;
    cbn [for_files] in H.
  - injection H as <-. split; [exact (fun E => E)|].
    exists []. split; [constructor|].
    cbn. now rewrite app_nil_r.
  - destruct (body st f) as [st1|st1|] eqn:E; try discriminate.
    apply Hbody in E as (Hk & l & El & Pl).
    apply IH in H as (Hk' & ls & Hls & Hi).
    split; [auto|].
    exists (l :: ls). split; [now constructor|].
    cbn [concat]. now rewrite Hi, El, <- app_assoc.
Qed.

End LoaderIds.

(** What a PDF adds to the ids: when it has chunks, a list that starts with
    the id of its chunk 0. *)
Lemma process_pdf_file_ids (Store : Type)
    (coll_add :
       Store -> list str -> list pdf_metadata -> list str -> Store * bool)
    (bs : Z) (st st' : pdf_loader Store) (f : pdf_file) :
  process_pdf_file Store coll_add bs st f = Returned st' ->
  (len (ids st) = len (documents st) -> len (ids st') = len (documents st'))
  /\ exists l,
      ids_sent_or_buffered st' = ids_sent_or_buffered st ++ l
      /\ (pdf_file_chunks f <> [] ->
          exists id rest,
            pdf_chunk_id (name (pf_path f)) 0 = Some id /\ l = id :: rest).
Proof.
  unfold process_pdf_file, pdf_file_chunks.
  assert (Hskip : forall c : list str,
             c = [] ->
             Returned (skip_file st) = Returned st' ->
             (len (ids st) = len (documents st) ->
              len (ids st') = len (documents st'))
             /\ exists l,
                 ids_sent_or_buffered st' = ids_sent_or_buffered st ++ l
                 /\ (c <> [] ->
                     exists id rest,
                       pdf_chunk_id (name (pf_path f)) 0 = Some id
                       /\ l = id :: rest)).
  { intros c -> [= <-]. split; [exact (fun E => E)|].
    exists []. unfold ids_sent_or_buffered. cbn. rewrite app_nil_r.
    split; [reflexivity | congruence]. }
  destruct (pf_text f) as [text|]; [|now apply Hskip].
  destruct (truthy text); cbn [negb orb andb]; [|now apply Hskip].
  destruct (len text <? 100); cbn [negb]; [now apply Hskip|].
  destruct (chunk_text pdf _ _ _ _) as [chunks|]; [|discriminate].
  destruct chunks as [|c chunks]; cbn [nonempty negb]; [now apply Hskip|].
  intros H. apply add_chunks_ids in H as (Hk & l & Hl & Hh).
  split; [exact Hk|]. exists l. split; [exact Hl|].
  intros _. destruct (Hh ltac:(discriminate)) as (id & meta & rest & Hmk & ->).
  exists id, rest. split; [|reflexivity].
  unfold pdf_record in Hmk.
  destruct (pdf_chunk_id _ _) as [cid|]; [|discriminate].
  now injection Hmk as -> _.
Qed.

(** X22: the ids of the PDF pipeline are computed from the file name alone,
    while the listing is recursive: when a folder run returns and two PDFs
    of the listing, each with at least one chunk, bear the same name (in
    two subfolders), the ids handed to [collection.add] hold a
    duplicate. *)
Theorem pdf_same_name_same_ids :
  forall (Store : Type)
         (coll_add : Store -> list str -> list pdf_metadata -> list str
                     -> Store * bool)
         (pdf_folder : pdf_dir) (batch_size : Z) (s : Store)
         (st : pdf_loader Store) (f g : pdf_file)
         (l1 l2 l3 : list pdf_file),
    pdf_files pdf_folder = l1 ++ f :: l2 ++ g :: l3 ->
    name (pf_path f) = name (pf_path g) ->
    pdf_file_chunks f <> [] -> pdf_file_chunks g <> [] ->
    pd_exists pdf_folder = true ->
    process_pdf_folder Store coll_add pdf_folder batch_size s = Returned st ->
    ~ NoDup (concat (map b_ids (calls st))).
Proof.
  intros Store coll_add pdf_folder bs s st f g l1 l2 l3 Hfiles Hname Hf Hg
    Hex Hrun.
  unfold process_pdf_folder in Hrun. rewrite Hex in Hrun. cbn [negb] in Hrun.
  rewrite Hfiles in Hrun.
  replace (nonempty (l1 ++ f :: l2 ++ g :: l3)) with true in Hrun
    by now destruct l1.
  cbn [negb] in Hrun.
  destruct (for_files _ _ _) as [st0| |] eqn:Ef; try discriminate.
  injection Hrun as <-.
  apply (for_files_ids pdf_metadata Store _
           (fun f l => pdf_file_chunks f <> [] ->
                       exists id rest,
                         pdf_chunk_id (name (pf_path f)) 0 = Some id
                         /\ l = id :: rest))
    in Ef as (Hk & ls & Hls & Hi).
  2:{ intros a h a'. apply process_pdf_file_ids. }
  rewrite final_flush_ids by (apply Hk; reflexivity).
  rewrite Hi. unfold ids_sent_or_buffered at 1. cbn [start_run calls ids map concat app].
  apply Forall2_app_inv_l in Hls as (c1 & r1 & _ & Hr1 & ->).
  inversion Hr1 as [|? lf ? r2 Pf Hr2]; subst.
  apply Forall2_app_inv_l in Hr2 as (c2 & r3 & _ & Hr3 & ->).
  inversion Hr3 as [|? lg ? c3 Pg _]; subst.
  destruct (Pf Hf) as (id & rf & Hidf & ->).
  destruct (Pg Hg) as (id' & rg & Hidg & ->).
  rewrite Hname, Hidg in Hidf. injection Hidf as <-.
  rewrite concat_app. cbn [concat]. rewrite concat_app. cbn [concat].
  change ((id' :: rf) ++ concat c2 ++ (id' :: rg) ++ concat c3)
    with (id' :: (rf ++ concat c2 ++ (id' :: rg) ++ concat c3)).
  intros Hnd.
  apply (NoDup_remove_2 (concat c1)
           (rf ++ concat c2 ++ (id' :: rg) ++ concat c3) id') in Hnd.
  apply Hnd.
  apply in_or_app. right. apply in_or_app. right.
  apply in_or_app. right. apply in_or_app. left. now left.
Qed.

Lemma pdf_same_name_same_ids_witness :
  exists st,
    process_pdf_folder Z counting_add same_name_pdf_dir 50 0 = Returned st
    /\ ~ NoDup (concat (map b_ids (calls st))).
Proof.
  eexists. split; [vm_compute; reflexivity|].
  apply (pdf_same_name_same_ids Z counting_add same_name_pdf_dir 50 0 _
           {| pf_path := Path (py "laws/2019") (py "act.pdf");
              pf_text := Some (repeat 97 120) |}
           {| pf_path := Path (py "laws/2021") (py "act.pdf");
              pf_text := Some (repeat 98 120) |}
           [] [] []);
    try (vm_compute; reflexivity); vm_compute; discriminate.
Defined.

(** * Batch boundary and failure isolation *)



(** The calls of a whole run are those that the runs of the folders make
    on a collection of which no call raises, folder after folder. *)
Lemma for_state_folders_calls_of (Store : Type)
    (coll_add :
       Store -> list str -> list html_metadata -> list str -> Store * bool)
    (lower : str -> str) (folders : list entry) :
  forall r r',
    for_state_folders Store coll_add lower folders r = Some r' ->
    as_visited Store r' = as_visited Store r ++ folders
    /\ as_calls Store r'
       = as_calls Store r ++ flat_map (folder_run_calls lower) folders.
Proof.
  induction folders as [|f folders IH]; intros r r' H;
    cbn [for_state_folders] in H.
  - injection H as <-. cbn [flat_map]. now rewrite !app_nil_r.
  - pose proof (process_state_folder_isolated Store unit coll_add
                  never_raising_add lower f 50 (as_store Store r) tt)
      as Hsame.
    cbn [flat_map]. unfold folder_run_calls at 1.
    destruct (process_state_folder Store coll_add lower f 50 _)
      as [st|st|]; [| |discriminate H];
      destruct (process_state_folder unit never_raising_add lower f 50 tt)
        as [st'|st'|]; cbn in Hsame; try contradiction;
      apply view_inv in Hsame as (_ & _ & _ & _ & _ & _ & Hc);
      apply IH in H as [Hv Hcalls]; cbn [as_visited as_calls] in Hv, Hcalls;
      cbn [outcome_calls]; rewrite Hv, Hcalls, Hc, <- !app_assoc;
      split; reflexivity.
Qed.

(** C8: the flush of the chunk loop leaves the three lists empty and logs
    the batch as one call, whatever [collection.add] answers.  Whatever the
    calls answer, a folder run that returns has counted every file of the
    listing and handed every chunk of every file to [collection.add], once
    and in order, so that a batch that failed is not sent again and the
    files and chunks after it are processed; how a folder run ends, and in
    what state, does not depend on the calls; and a run over the state
    folders that completes has visited every folder that passes the filter
    and made the calls that it makes when no call raises.  In both
    pipelines. *)
Theorem flush_failure_is_isolated :
  (forall (M Store : Type)
          (coll_add : Store -> list str -> list M -> list str -> Store * bool)
          (bs : Z) (st : loader M Store) (chunk : str) (meta : M) (id : str),
      bs <= len (documents st) + 1 ->
      view (add_record coll_add bs st chunk meta id)
      = ([], [], [], total_chunks st + 1, files_processed st,
         files_skipped st,
         calls st ++ [Batch (documents st ++ [chunk]) (metadatas st ++ [meta])
                        (ids st ++ [id])]))
  /\ (forall (Store : Type) add_html lower state_path bs (s : Store) st,
         process_state_folder Store add_html lower state_path bs s
         = Returned st ->
         concat (map b_documents (calls st))
         = flat_map html_file_chunks (html_files state_path)
         /\ total_chunks st
            = len (flat_map html_file_chunks (html_files state_path))
         /\ files_processed st + files_skipped st
            = len (html_files state_path))
  /\ (forall (Store : Type) add_pdf pdf_folder bs (s : Store) st,
         pd_exists pdf_folder = true ->
         process_pdf_folder Store add_pdf pdf_folder bs s = Returned st ->
         concat (map b_documents (calls st))
         = flat_map pdf_file_chunks (pdf_files pdf_folder)
         /\ total_chunks st
            = len (flat_map pdf_file_chunks (pdf_files pdf_folder))
         /\ files_processed st + files_skipped st
            = len (pdf_files pdf_folder))
  /\ (forall (S1 S2 : Type) add1 add2 lower state_path bs (s1 : S1) (s2 : S2),
         same_outcome (process_state_folder S1 add1 lower state_path bs s1)
                      (process_state_folder S2 add2 lower state_path bs s2))
  /\ (forall (S1 S2 : Type) add1 add2 pdf_folder bs (s1 : S1) (s2 : S2),
         same_outcome (process_pdf_folder S1 add1 pdf_folder bs s1)
                      (process_pdf_folder S2 add2 pdf_folder bs s2))
  /\ (forall (Store : Type) coll_add lower root (s : Store) r,
         process_all_states Store coll_add lower root s = Some r ->
         as_visited Store r = sorted (state_folders root)
         /\ as_calls Store r
            = flat_map (folder_run_calls lower)
                (sorted (state_folders root))).
Proof.
  split; [|split; [|split; [|split; [|split]]]].
  - intros M Store coll_add bs st chunk meta id Hbs. unfold add_record.
    assert (Hlen : len (documents (append_record st chunk meta id))
                   = len (documents st) + 1) by apply len_snoc.
    rewrite Hlen.
    destruct (Z.geb_spec (len (documents st) + 1) bs) as [_|Hlt]; [|lia].
    now rewrite flush_clears.
  - intros Store add_html lower state_path bs s st H.
    destruct (process_state_folder_returned _ _ _ _ _ _ _ H)
      as (H1 & H2 & H3).
    repeat split; assumption.
  - intros Store add_pdf pdf_folder bs s st He H.
    destruct (process_pdf_folder_returned _ _ _ _ _ _ He H)
      as (H1 & H2 & H3).
    repeat split; assumption.
  - intros. apply process_state_folder_isolated.
  - intros. apply process_pdf_folder_isolated.
  - intros Store coll_add lower root s r H. unfold process_all_states in H.
    destruct (state_folders root) as [|f fs] eqn:E; cbn [nonempty negb] in H.
    + injection H as <-. split; reflexivity.
    + apply for_state_folders_calls_of in H as [Hv Hc]. split; assumption.
Qed.

(** A collection that raises at every call.  The two folders of 51 files:
    each run returns, nothing is stored, and the two calls of 50 and of 1
    records carry the 51 chunks.  The root with two state folders: both are
    visited, and the calls of the second follow those of the first. *)
Lemma flush_failure_is_isolated_witness :
  exists st_html st_pdf r,
    (process_state_folder Z failing_add ascii_lower texas_51 50 0
     = Returned st_html
     /\ store st_html = 0
     /\ map (fun b => len (b_documents b)) (calls st_html) = [50; 1]
     /\ concat (map b_documents (calls st_html))
        = flat_map html_file_chunks (html_files texas_51))
    /\ (process_pdf_folder Z failing_add pdf_51 50 0 = Returned st_pdf
        /\ store st_pdf = 0
        /\ map (fun b => len (b_documents b)) (calls st_pdf) = [50; 1]
        /\ concat (map b_documents (calls st_pdf))
           = flat_map pdf_file_chunks (pdf_files pdf_51))
    /\ (process_all_states Z failing_add ascii_lower two_states_root 0
        = Some r
        /\ map (fun f => name (e_path f)) (as_visited Z r)
           = [py "Texas"; py "Utah"]
        /\ map (fun b => len (b_documents b)) (as_calls Z r) = [50; 1; 2]
        /\ as_calls Z r
           = flat_map (folder_run_calls ascii_lower)
               (sorted (state_folders two_states_root))).
Proof.
  destruct flush_failure_is_isolated as (_ & Hhtml & Hpdf & _ & _ & Hall).
  do 3 eexists. split; [|split].
  - split; [vm_compute; reflexivity|].
    split; [reflexivity|]. split; [reflexivity|].
    apply (Hhtml Z failing_add ascii_lower texas_51 50 0).
    vm_compute. reflexivity.
  - split; [vm_compute; reflexivity|].
    split; [reflexivity|]. split; [reflexivity|].
    apply (Hpdf Z failing_add pdf_51 50 0); [reflexivity|].
    vm_compute. reflexivity.
  - split; [vm_compute; reflexivity|].
    split; [reflexivity|]. split; [reflexivity|].
    apply (Hall Z failing_add ascii_lower two_states_root 0).
    vm_compute. reflexivity.
Defined.
